(** * InferLLM core: operators, tensor lifetime and the attention cache

    A shallow embedding of [src/core/op.h] and [src/core/graph.h].

    Tensors are shared through [std::shared_ptr]; the embedding keeps them in
    an arena (a list indexed by handle), so that two operators naming the
    same handle see the same record.  [size_t] values are integers reduced
    modulo [2^64], [uint32_t] values modulo [2^32].  A failed [INFER_ASSERT]
    is [Fatal] with the diagnostic of the source (without its final line
    break); an out-of-range vector index, a null pointer and a division by
    zero are [Undefined].  The consumer counts of a tensor are unbounded
    integers, so that staying non-negative is a theorem and not a
    convention.

    [tensor.h], [kvstorage.h], [kern/kernel_define.h] and the [.cpp] files
    are not part of the sources; what the two headers use of them is
    marked as modelled from the specification. *)

From Stdlib Require Import ZArith Lia.
From stdpp Require Import base option list strings.

Open Scope Z_scope.

(** ** Results of fallible code *)

Inductive res (A : Type) : Type :=
  | Ok (a : A)
  | Fatal (msg : string)
  | Undefined.
Arguments Ok {A} a.
Arguments Fatal {A} msg.
Arguments Undefined {A}.

#[global] Instance res_ret : MRet res := fun A a => Ok a.
#[global] Instance res_bind : MBind res := fun A B f m =>
  match m with
  | Ok a => f a
  | Fatal msg => Fatal msg
  | Undefined => Undefined
  end.

(** [v[i]] on a [std::vector], and [*p] on a pointer that may be null. *)
Definition at_ {A} (v : list A) (i : nat) : res A :=
  match v !! i with
  | Some a => Ok a
  | None => Undefined
  end.

Definition deref {A} (p : option A) : res A :=
  match p with
  | Some a => Ok a
  | None => Undefined
  end.

(** [x || y]: [y] is evaluated only when [x] is false. *)
Definition lazy_or (x y : res bool) : res bool :=
  match x with
  | Ok true => Ok true
  | Ok false => y
  | Fatal msg => Fatal msg
  | Undefined => Undefined
  end.

Definition INFER_ASSERT (cond : bool) (msg : string) : res unit :=
  if cond then Ok tt else Fatal msg.

Definition is_ok {A} (r : res A) : bool :=
  match r with
  | Ok _ => true
  | _ => false
  end.

Definition is_fatal {A} (r : res A) : bool :=
  match r with
  | Fatal _ => true
  | _ => false
  end.

(** ** Machine integers *)

Definition to_size_t (z : Z) : Z := z mod 2 ^ 64.
Definition to_uint32 (z : Z) : Z := z mod 2 ^ 32.

Definition PACK_SIZE : Z := 8.

#[global] Instance Z_divide_dec : RelDecision Z.divide.
Proof.
  intros a b. destruct (decide (a = 0)) as [->|Ha].
  - destruct (decide (b = 0)) as [->|Hb].
    + left. apply Z.divide_0_r.
    + right. intros H. by apply Z.divide_0_l in H.
  - destruct (decide (b mod a = 0)) as [Hm|Hm].
    + left. by apply Z.mod_divide.
    + right. intros H. by apply Z.mod_divide in H.
Defined.

(** ** Collaborators declared outside [op.h] *)

(** Modelled from the spec: the element types of [kern/kernel_define.h],
    which is not part of the sources; [op.h] names [Float32] and [Int4],
    the quantized narrow format. *)
Inductive DType : Type :=
  | Float32
  | Float16
  | Int32
  | Int8
  | Int4.

#[global] Instance DType_eq_dec : EqDecision DType.
Proof. solve_decision. Defined.

(** Modelled from the spec: of the optimization tags and the rotation modes
    [op.h] names [MatmulInt4Reorder] and [Mode0]; one more constructor
    stands for the remaining tags of each enumeration. *)
Inductive KernelOptMethod : Type :=
  | MatmulInt4Reorder
  | OtherOptMethod.

Inductive RotMode : Type :=
  | Mode0
  | OtherRotMode.

(** The device is consulted only for what its kernel reports as available
    ([kernel->supported_optimization]). *)
Record Device : Type := mkDevice {
  supported_optimization : KernelOptMethod → bool
}.

(** ** Tensor *)

Module Tensor.

(** Modelled from the spec: [tensor.h] is not part of the sources.  A
    tensor has a shape and element type, the operator that owns it, the
    declared number of consumers ([usr_count], raised by [add_user]), the
    number of consumers still pending in the current pass ([cur_count]),
    the shared flag and its materialization state; [data] holds the bit
    patterns of the elements. *)
Record t : Type := mk {
  name : string;
  shape : list Z;
  dtype : DType;
  owner_op : option string;
  usr_count : Z;
  cur_count : Z;
  shared : bool;
  allocated : bool;
  data : list Z
}.

(** Modelled from the spec: the constructor [Tensor(device, name)]; a new
    tensor has no shape, no owner, no consumer, and no buffer. *)
Definition make (nm : string) : t :=
  mk nm [] Float32 None 0 0 false false [].

(** Modelled from the spec: the setters; [set_shape] is called with and
    without an element type. *)
Definition set_shape (s : list Z) (d : option DType) (x : t) : t :=
  mk (name x) s (default (dtype x) d) (owner_op x) (usr_count x)
     (cur_count x) (shared x) (allocated x) (data x).

Definition set_owner_op (o : string) (x : t) : t :=
  mk (name x) (shape x) (dtype x) (Some o) (usr_count x) (cur_count x)
     (shared x) (allocated x) (data x).

Definition set_cur_count (c : Z) (x : t) : t :=
  mk (name x) (shape x) (dtype x) (owner_op x) (usr_count x) c
     (shared x) (allocated x) (data x).

Definition set_allocated (b : bool) (x : t) : t :=
  mk (name x) (shape x) (dtype x) (owner_op x) (usr_count x) (cur_count x)
     (shared x) b (data x).

Definition set_data (d : list Z) (x : t) : t :=
  mk (name x) (shape x) (dtype x) (owner_op x) (usr_count x) (cur_count x)
     (shared x) (allocated x) d.

Definition set_shared (b : bool) (x : t) : t :=
  mk (name x) (shape x) (dtype x) (owner_op x) (usr_count x) (cur_count x)
     b (allocated x) (data x).

(** Modelled from the spec: [length()], the total element count. *)
Definition length (x : t) : Z :=
  to_size_t (foldr Z.mul 1 (shape x)).

Definition get_curr_user_count (x : t) : Z := cur_count x.

(** Modelled from the spec: [add_user()] registers one more consumer when
    an operator is wired to read the tensor. *)
Definition add_user (x : t) : t :=
  mk (name x) (shape x) (dtype x) (owner_op x) (usr_count x + 1)
     (cur_count x) (shared x) (allocated x) (data x).

(** Modelled from the spec: [resume_user_count()] resets the pending count
    to the originally declared number. *)
Definition resume_user_count (x : t) : t :=
  set_cur_count (usr_count x) x.

(** Modelled from the spec: [prepare_data()] allocates the buffer. *)
Definition prepare_data (x : t) : t := set_allocated true x.

(** Modelled from the spec: [recall_data()] releases the buffer; shared
    tensors are never recycled. *)
Definition recall_data (x : t) : t :=
  if shared x then x else set_allocated false x.

(** Modelled from the spec: [decrease_curr_user_count()] takes one pending
    consumer off; the buffer is released when the count reaches zero and
    the tensor is not shared. *)
Definition decrease_curr_user_count (x : t) : t :=
  let x' := set_cur_count (cur_count x - 1) x in
  if bool_decide (cur_count x' = 0) then recall_data x' else x'.

End Tensor.

(** A [shared_ptr<Tensor>] is a handle into the arena. *)
Abbreviation handle := nat.
Abbreviation Arena := (list Tensor.t).

(** [std::make_shared<Tensor>(device, name)]. *)
Definition make_shared (nm : string) (st : Arena) : handle * Arena :=
  (length st, st ++ [Tensor.make nm]).

(** [p->f()] for a method that mutates the tensor.  Handles come from
    [make_shared] and always name a tensor; on a handle outside the arena,
    which no constructor produces, the write is lost. *)
Definition update (f : Tensor.t → Tensor.t) (h : handle) (st : Arena) : Arena :=
  alter f h st.

(** [for (auto p : ps) p->f();] *)

Definition update_all (f : Tensor.t → Tensor.t) (hs : list handle) (st : Arena)
  : Arena :=
  foldl (fun s h => update f h s) st hs.

(** ** KvStorage *)

Module KvStorage.

(** Modelled from the spec: [kvstorage.h] is not part of the sources.  A
    cache is a buffer of [total_id] rows of [width] elements, of which the
    first [curr_id] are valid; [prepared] is the number of rows
    materialized for the running call. *)
Record t : Type := mk {
  total_id : Z;
  width : Z;
  dtype : DType;
  curr_id : Z;
  prepared : Z;
  rows : list (list Z)
}.

(** Modelled from the spec: the constructor [KvStorage(shape, dtype,
    device)]; the buffer has [shape[0]] rows and the cache is empty. *)
Definition make (shp : list Z) (d : DType) : res t :=
  n ← at_ shp 0;
  w ← at_ shp 1;
  Ok (mk n w d 0 0 (replicate (Z.to_nat n) (replicate (Z.to_nat w) 0))).

Definition set_curr_id (c : Z) (x : t) : t :=
  mk (total_id x) (width x) (dtype x) c (prepared x) (rows x).

Definition set_prepared (p : Z) (x : t) : t :=
  mk (total_id x) (width x) (dtype x) (curr_id x) p (rows x).

Definition set_rows (r : list (list Z)) (x : t) : t :=
  mk (total_id x) (width x) (dtype x) (curr_id x) (prepared x) r.

(** Modelled from the spec: [prepare_data_with_length(len)] makes room for
    [len] more rows; growth beyond the capacity is fatal, not a resize (the
    spec does not give the diagnostic). *)
Definition prepare_data_with_length (len : Z) (x : t) : res t :=
  _ ← INFER_ASSERT (bool_decide (curr_id x + len ≤ total_id x))
        "The kvstorage is overflow.";
  Ok (set_prepared len x).

(** Modelled from the spec: [add_id(len)] extends the logical length by
    the number of new tokens. *)
Definition add_id (len : Z) (x : t) : t :=
  set_curr_id (curr_id x + len) x.

(** Modelled from the spec: [reset_id()] sets the logical length back to
    zero without reallocating. *)
Definition reset_id (x : t) : t := set_curr_id 0 x.

(** Modelled from the spec: [recall_data()] releases what was materialized
    for the call; the cache buffer lives as long as the operator. *)
Definition recall_data (x : t) : t := set_prepared 0 x.

End KvStorage.

(** ** OpBase *)

Module OpBase.

Record t : Type := mk {
  m_device : Device;
  m_weights : list handle;
  m_inputs : list handle;
  m_outputs : list handle;
  m_name : string
}.

(** The constructor registers the operator as a user of each input.  The
    inputs are tensors of the arena: on a handle that names none, where
    the source dereferences a dangling pointer, the loop does nothing, and
    the statements about the outcome of a construction leave that case
    out. *)
Definition ctor (device : Device) (nm : string) (inputs : list handle)
    (st : Arena) : t * Arena :=
  (mk device [] inputs [] nm, update_all Tensor.add_user inputs st).

Definition set_weights (weights : list handle) (op : t) (st : Arena)
  : t * Arena :=
  (mk (m_device op) weights (m_inputs op) (m_outputs op) (m_name op),
   update_all (Tensor.set_owner_op (m_name op)) weights st).

Definition add_outputs (output : handle) (op : t) (st : Arena) : t * Arena :=
  (mk (m_device op) (m_weights op) (m_inputs op) (m_outputs op ++ [output])
      (m_name op),
   update (Tensor.set_owner_op (m_name op)) output st).

Definition weights (op : t) : list handle := m_weights op.
Definition inputs (op : t) : list handle := m_inputs op.
Definition outputs (op : t) : list handle := m_outputs op.

Definition get_kernel (op : t) : KernelOptMethod → bool :=
  supported_optimization (m_device op).

(** One round of the loop over the outputs in [pre_execute]. *)
Definition pre_execute_output (x : Tensor.t) : Tensor.t :=
  if bool_decide (Tensor.get_curr_user_count x = 0) && negb (Tensor.shared x)
  then Tensor.prepare_data (Tensor.resume_user_count x)
  else x.

Definition pre_execute (op : t) (st : Arena) : Arena :=
  let st1 := update_all Tensor.prepare_data (m_weights op) st in
  update_all pre_execute_output (m_outputs op) st1.

Definition end_execute (op : t) (st : Arena) : Arena :=
  update_all Tensor.decrease_curr_user_count (m_inputs op) st.

Definition deduce_output_shape (op : t) (st : Arena) : res Arena :=
  o ← at_ (m_outputs op) 0;
  i ← at_ (m_inputs op) 0;
  x ← at_ st i;
  Ok (update (Tensor.set_shape (Tensor.shape x) (Some (Tensor.dtype x))) o st).

Definition need_preprocess_weight (op : t) (w : Tensor.t) : res bool :=
  Ok false.

End OpBase.

(** ** MatMul and MatMulLast *)

Module MatMul.

Record t : Type := mk {
  base : OpBase.t;
  m_bias : bool;
  m_weight_packed : bool
}.

Definition ctor (device : Device) (nm : string) (inputs : list handle)
    (shp : list Z) (bias : bool) (st : Arena) : res (t * Arena) :=
  let '(op, st) := OpBase.ctor device nm inputs st in
  let '(out, st) := make_shared (nm +:+ "_out0") st in
  let '(op, st) := OpBase.add_outputs out op st in
  let '(weight, st) := make_shared (nm +:+ ".weight") st in
  let st := update (Tensor.set_shape shp None) weight st in
  if bias then
    let '(b, st) := make_shared (nm +:+ ".bias") st in
    d0 ← at_ shp 0;
    let st := update (Tensor.set_shape [d0] None) b st in
    let '(op, st) := OpBase.set_weights [weight; b] op st in
    Ok (mk op bias false, st)
  else
    let '(op, st) := OpBase.set_weights [weight] op st in
    Ok (mk op bias false, st).

Definition deduce_output_shape (m : t) (st : Arena) : res Arena :=
  w ← at_ (OpBase.weights (base m)) 0;
  wt ← at_ st w;
  i ← at_ (OpBase.inputs (base m)) 0;
  it ← at_ st i;
  let weight_shape := Tensor.shape wt in
  let input_shape := Tensor.shape it in
  M ← (if bool_decide (length input_shape = 2%nat)
       then at_ input_shape 0 else at_ input_shape 1);
  N ← at_ weight_shape 0;
  let N := if m_weight_packed m then to_size_t (N * PACK_SIZE) else N in
  o ← at_ (OpBase.outputs (base m)) 0;
  Ok (update (Tensor.set_shape [M; N] (Some (Tensor.dtype it))) o st).

Definition need_preprocess_weight (m : t) (st : Arena) (weight : Tensor.t)
  : res bool :=
  let kernel := OpBase.get_kernel (base m) in
  w ← at_ (OpBase.weights (base m)) 0;
  wt ← at_ st w;
  if bool_decide (Tensor.name weight = Tensor.name wt) then
    M ← at_ (Tensor.shape weight) 0;
    let optimized := kernel MatmulInt4Reorder in
    let int4 := bool_decide (Tensor.dtype weight = Int4) in
    if optimized && int4 && bool_decide (M mod PACK_SIZE = 0)
    then Ok true
    else Ok false
  else Ok false.

End MatMul.

Module MatMulLast.

(** [using MatMul::MatMul]: same fields, same constructor. *)
Definition deduce_output_shape (m : MatMul.t) (st : Arena) : res Arena :=
  w ← at_ (OpBase.weights (MatMul.base m)) 0;
  wt ← at_ st w;
  i ← at_ (OpBase.inputs (MatMul.base m)) 0;
  it ← at_ st i;
  let weight_shape := Tensor.shape wt in
  let M := 1 in
  K ← at_ weight_shape 1;
  N ← at_ weight_shape 0;
  let N := if MatMul.m_weight_packed m then to_size_t (N * PACK_SIZE) else N in
  o ← at_ (OpBase.outputs (MatMul.base m)) 0;
  Ok (update (Tensor.set_shape [M; N] (Some (Tensor.dtype it))) o st).

Definition need_preprocess_weight (m : MatMul.t) (st : Arena)
    (weight : Tensor.t) : res bool :=
  Ok false.

End MatMulLast.

(** ** Reshape *)

Module Reshape.

Record t : Type := mk {
  base : OpBase.t;
  m_target_shape : list Z
}.

Definition ctor (device : Device) (nm : string) (inputs : list handle)
    (shp : list Z) (st : Arena) : t * Arena :=
  let '(op, st) := OpBase.ctor device nm inputs st in
  let '(out, st) := make_shared (nm +:+ "_out0") st in
  let '(op, st) := OpBase.add_outputs out op st in
  (mk op shp, st).

(** The first loop, from index [i] on: [ts] is the rest of the target
    shape, [len] the running quotient, [count] the wildcards met so far
    (an [int], which a vector that fits in memory cannot overflow).  The
    [int] entry is converted to [size_t] for [%] and [/]. *)
Fixpoint solve_fixed (ts : list Z) (i : nat) (len count : Z)
    (out_shape : list Z) : res (Z * Z * list Z) :=
  match ts with
  | [] => Ok (len, count, out_shape)
  | d :: ts' =>
      if bool_decide (d ≠ -1) then
        let out_shape := <[i := to_size_t d]> out_shape in
        if bool_decide (to_size_t d = 0) then Undefined
        else
          _ ← INFER_ASSERT (bool_decide (len mod to_size_t d = 0))
                "Reshape error.";
          solve_fixed ts' (S i) (len / to_size_t d) count out_shape
      else solve_fixed ts' (S i) len (count + 1) out_shape
  end.

(** The second loop: every wildcard slot receives the quotient. *)
Fixpoint fill_wildcard (ts : list Z) (i : nat) (len : Z)
    (out_shape : list Z) : list Z :=
  match ts with
  | [] => out_shape
  | d :: ts' =>
      fill_wildcard ts' (S i) len
        (if bool_decide (d = -1) then <[i := len]> out_shape else out_shape)
  end.

Definition out_shape (target : list Z) (len : Z) : res (list Z) :=
  let out := replicate (length target) 0 in
  '(len, count, out) ← solve_fixed target 0 len 0 out;
  _ ← INFER_ASSERT (bool_decide (count = 1)) "multi -1 in Reshape param.";
  Ok (fill_wildcard target 0 len out).

Definition deduce_output_shape (r : t) (st : Arena) : res Arena :=
  i ← at_ (OpBase.inputs (base r)) 0;
  it ← at_ st i;
  let len := Tensor.length it in
  shp ← out_shape (m_target_shape r) len;
  o ← at_ (OpBase.outputs (base r)) 0;
  Ok (update (Tensor.set_shape shp (Some (Tensor.dtype it))) o st).

(** Vocabulary for the statements about [out_shape]: the number of
    wildcards of a target shape, the product of its other entries, and the
    target with every wildcard replaced by [q]. *)
Fixpoint wildcards (target : list Z) : Z :=
  match target with
  | [] => 0
  | d :: ts => (if bool_decide (d = -1) then 1 else 0) + wildcards ts
  end.

Fixpoint fixed_product (target : list Z) : Z :=
  match target with
  | [] => 1
  | d :: ts => (if bool_decide (d = -1) then 1 else d) * fixed_product ts
  end.

Definition solved (q : Z) (target : list Z) : list Z :=
  map (fun d => if bool_decide (d = -1) then q else d) target.

(** Target shapes whose entries other than the wildcard are positive
    [int] values. *)
Definition fixed_dims_positive (target : list Z) : Prop :=
  Forall (fun d => d = -1 ∨ 1 ≤ d < 2 ^ 31) target.

End Reshape.

(** ** Embedding *)

Module Embedding.

Record t : Type := mk {
  base : OpBase.t;
  m_comp_type : DType;
  m_embd : Z;
  m_vocab : Z
}.

Definition ctor (inputs : list handle) (embd vocab : Z) (compt_type : DType)
    (device : Device) (nm : string) (st : Arena) : t * Arena :=
  let '(op, st) := OpBase.ctor device nm inputs st in
  let '(out, st) := make_shared (nm +:+ "_out0") st in
  let '(op, st) := OpBase.add_outputs out op st in
  let '(embeddings, st) := make_shared (nm +:+ ".weight") st in
  let st := update (Tensor.set_shape [vocab; embd] None) embeddings st in
  let '(op, st) := OpBase.set_weights [embeddings] op st in
  (mk op compt_type embd vocab, st).

Definition deduce_output_shape (e : t) (st : Arena) : res Arena :=
  i ← at_ (OpBase.inputs (base e)) 0;
  it ← at_ st i;
  len ← at_ (Tensor.shape it) 0;
  o ← at_ (OpBase.outputs (base e)) 0;
  Ok (update (Tensor.set_shape [len; m_embd e] (Some (m_comp_type e))) o st).

End Embedding.

(** ** The operators that only add an output *)

(** Modelled from the spec: the elementwise modes are an enumeration of
    [kern/kernel_define.h], which is not part of the sources; [op.h] names
    none of them, so a mode is kept as its enumerator value. *)
Definition ElemMode : Type := Z.

Module LayerNorm.

(** [m_norm_eps] is kept as the bit pattern of the [float]. *)
Record t : Type := mk {
  base : OpBase.t;
  m_mul : bool;
  m_bias : bool;
  m_rms : bool;
  m_norm_eps : Z
}.

Definition ctor (device : Device) (nm : string) (inputs : list handle)
    (embd : Z) (mul bias rms : bool) (eps : Z) (st : Arena) : t * Arena :=
  let '(op, st) := OpBase.ctor device nm inputs st in
  let '(out, st) := make_shared (nm +:+ "_out0") st in
  let '(op, st) := OpBase.add_outputs out op st in
  let weights : list handle := [] in
  let '(weights, st) :=
    if mul then
      let '(w, st) := make_shared (nm +:+ ".weight") st in
      ((weights ++ [w],
        update (Tensor.set_shape [embd] (Some Float32)) w st)
       : list handle * Arena)
    else (weights, st) in
  let '(weights, st) :=
    if bias then
      let '(w, st) := make_shared (nm +:+ ".bias") st in
      ((weights ++ [w],
        update (Tensor.set_shape [embd] (Some Float32)) w st)
       : list handle * Arena)
    else (weights, st) in
  let '(op, st) := OpBase.set_weights weights op st in
  (mk op mul bias rms eps, st).

End LayerNorm.

Module SoftMax.

Definition ctor (device : Device) (nm : string) (inputs : list handle)
    (st : Arena) : OpBase.t * Arena :=
  let '(op, st) := OpBase.ctor device nm inputs st in
  let '(out, st) := make_shared (nm +:+ "_out0") st in
  OpBase.add_outputs out op st.

End SoftMax.

Module Elemwise.

(** [m_scale] is kept as the bit pattern of the [float]. *)
Record t : Type := mk {
  base : OpBase.t;
  m_scale : Z;
  m_mode : ElemMode
}.

Definition ctor (device : Device) (nm : string) (inputs : list handle)
    (mode : ElemMode) (scale : Z) (st : Arena) : t * Arena :=
  let '(op, st) := OpBase.ctor device nm inputs st in
  let '(out, st) := make_shared (nm +:+ "_out0") st in
  let '(op, st) := OpBase.add_outputs out op st in
  (mk op scale mode, st).

End Elemwise.

Module SpliteHalfActiveMul.

Record t : Type := mk {
  base : OpBase.t;
  m_mode : ElemMode
}.

Definition ctor (device : Device) (nm : string) (inputs : list handle)
    (mode : ElemMode) (st : Arena) : t * Arena :=
  let '(op, st) := OpBase.ctor device nm inputs st in
  let '(out, st) := make_shared (nm +:+ "_out0") st in
  let '(op, st) := OpBase.add_outputs out op st in
  (mk op mode, st).

(** The copy of the input shape has its entry 1 halved; on a shape with
    fewer than two entries the access is out of range. *)
Definition deduce_output_shape (s : t) (st : Arena) : res Arena :=
  i ← at_ (OpBase.inputs (base s)) 0;
  it ← at_ st i;
  let input_shape := Tensor.shape it in
  d ← at_ input_shape 1;
  let input_shape := <[1%nat := d / 2]> input_shape in
  o ← at_ (OpBase.outputs (base s)) 0;
  Ok (update (Tensor.set_shape input_shape (Some (Tensor.dtype it))) o st).

End SpliteHalfActiveMul.

Module DiagMask.

Definition ctor (device : Device) (nm : string) (inputs : list handle)
    (st : Arena) : OpBase.t * Arena :=
  let '(op, st) := OpBase.ctor device nm inputs st in
  let '(out, st) := make_shared (nm +:+ "_out0") st in
  OpBase.add_outputs out op st.

End DiagMask.

(** ** The attention family *)

Module AttentionBase.

(** What distinguishes the subclasses: [m_rot] and [m_rotary_mode] of
    [LlamaAttention], [m_rotary_mode] of [GlmAttention], and
    [m_query_group_num] of [Glm2MultiQueryAttention]. *)
Inductive variant : Type :=
  | Llama (m_rot : Z) (m_rotary_mode : RotMode)
  | Glm (m_rotary_mode : RotMode)
  | Glm2MultiQuery (m_query_group_num : Z).

Record t : Type := mk {
  base : OpBase.t;
  m_embd : Z;
  m_head : Z;
  m_ctx : Z;
  m_layer_id : Z;
  m_fused_weights : bool;
  m_bias : bool;
  m_packed_weight : bool;
  m_kstorage : option KvStorage.t;
  m_vstorage : option KvStorage.t;
  m_variant : variant
}.

Definition set_base (b : OpBase.t) (a : t) : t :=
  mk b (m_embd a) (m_head a) (m_ctx a) (m_layer_id a) (m_fused_weights a)
     (m_bias a) (m_packed_weight a) (m_kstorage a) (m_vstorage a)
     (m_variant a).

Definition set_storage (k v : option KvStorage.t) (a : t) : t :=
  mk (base a) (m_embd a) (m_head a) (m_ctx a) (m_layer_id a)
     (m_fused_weights a) (m_bias a) (m_packed_weight a) k v (m_variant a).

(** A fresh tensor with its shape set, as the weight blocks of the
    constructors do. *)
Definition make_weight (nm : string) (shp : list Z) (st : Arena)
  : handle * Arena :=
  let '(w, st) := make_shared nm st in
  (w, update (Tensor.set_shape shp None) w st).

(** The nine-argument constructor; the caches are still null. *)
Definition ctor (device : Device) (nm : string) (inputs : list handle)
    (embd nr_ctx head layer_id : Z) (fused_weights bias : bool)
    (var : variant) (st : Arena) : t * Arena :=
  let '(op, st) := OpBase.ctor device nm inputs st in
  let '(out, st) := make_shared (nm +:+ "_out") st in
  let '(op, st) := OpBase.add_outputs out op st in
  let '(weights, st) :=
    if fused_weights then
      let '(weight_fused, st) :=
        make_weight (nm +:+ ".wqkv.weight") [to_uint32 (embd * 3); embd] st in
      if bias then
        let '(weight_bias, st) :=
          make_weight (nm +:+ ".wqkv.bias") [to_uint32 (embd * 3)] st in
        ([weight_fused; weight_bias], st)
      else ([weight_fused], st)
    else
      let '(weight_q, st) := make_weight (nm +:+ ".wq.weight") [embd; embd] st in
      let '(weight_k, st) := make_weight (nm +:+ ".wk.weight") [embd; embd] st in
      let '(weight_v, st) := make_weight (nm +:+ ".wv.weight") [embd; embd] st in
      if bias then
        let '(bias_q, st) := make_weight (nm +:+ ".wq.bias") [embd] st in
        let '(bias_k, st) := make_weight (nm +:+ ".wk.bias") [embd] st in
        let '(bias_v, st) := make_weight (nm +:+ ".wv.bias") [embd] st in
        ([weight_q; weight_k; weight_v; bias_q; bias_k; bias_v], st)
      else ([weight_q; weight_k; weight_v], st) in
  let '(op, st) := OpBase.set_weights weights op st in
  (mk op embd head nr_ctx layer_id fused_weights bias false None None var, st).

Definition token_len (a : t) (st : Arena) : res Z :=
  i ← at_ (OpBase.inputs (base a)) 0;
  x ← at_ st i;
  at_ (Tensor.shape x) 0.

(** The attention output is re-prepared whenever nobody is pending on it;
    the shared flag is not looked at. *)
Definition pre_execute_output (x : Tensor.t) : Tensor.t :=
  if bool_decide (Tensor.get_curr_user_count x = 0)
  then Tensor.resume_user_count (Tensor.prepare_data x)
  else x.

Definition pre_execute (a : t) (st : Arena) : res (t * Arena) :=
  len ← token_len a st;
  let st := update_all Tensor.prepare_data (OpBase.weights (base a)) st in
  output ← at_ (OpBase.outputs (base a)) 0;
  _ ← at_ st output;
  let st := update pre_execute_output output st in
  k ← deref (m_kstorage a);
  k ← KvStorage.prepare_data_with_length len k;
  v ← deref (m_vstorage a);
  v ← KvStorage.prepare_data_with_length len v;
  Ok (set_storage (Some k) (Some v) a, st).

Definition end_execute (a : t) (st : Arena) : res (t * Arena) :=
  let st := update_all Tensor.recall_data (OpBase.weights (base a)) st in
  let st :=
    update_all Tensor.decrease_curr_user_count (OpBase.inputs (base a)) st in
  len ← token_len a st;
  k ← deref (m_kstorage a);
  let k := KvStorage.add_id len k in
  v ← deref (m_vstorage a);
  let v := KvStorage.add_id len v in
  let k := KvStorage.recall_data k in
  let v := KvStorage.recall_data v in
  Ok (set_storage (Some k) (Some v) a, st).

Definition reset_ctx (a : t) : res t :=
  k ← deref (m_kstorage a);
  let k := KvStorage.reset_id k in
  v ← deref (m_vstorage a);
  let v := KvStorage.reset_id v in
  Ok (set_storage (Some k) (Some v) a).

(** [weight->name() == weights()[i]->name()]. *)
Definition same_name (a : t) (st : Arena) (weight : Tensor.t) (i : nat)
  : res bool :=
  w ← at_ (OpBase.weights (base a)) i;
  wt ← at_ st w;
  Ok (bool_decide (Tensor.name weight = Tensor.name wt)).

Definition need_preprocess_weight (a : t) (st : Arena) (weight : Tensor.t)
  : res bool :=
  let kernel := OpBase.get_kernel (base a) in
  let int4 := bool_decide (Tensor.dtype weight = Int4) in
  M ← at_ (Tensor.shape weight) 0;
  let optimized := kernel MatmulInt4Reorder in
  right_weight ←
    (if m_fused_weights a then same_name a st weight 0
     else
       lazy_or (same_name a st weight 0)
         (lazy_or (same_name a st weight 1) (same_name a st weight 2)));
  Ok (optimized && int4 && right_weight && bool_decide (M mod PACK_SIZE = 0)).

End AttentionBase.

Module LlamaAttention.

Definition ctor (device : Device) (nm : string) (inputs : list handle)
    (embd rot nr_ctx head layer_id : Z) (compt_type : DType)
    (fused_weights bias : bool) (rotary_mode : RotMode) (st : Arena)
  : res (AttentionBase.t * Arena) :=
  let '(a, st) :=
    AttentionBase.ctor device nm inputs embd nr_ctx head layer_id
      fused_weights bias (AttentionBase.Llama rot rotary_mode) st in
  k ← KvStorage.make [nr_ctx; embd] compt_type;
  v ← KvStorage.make [nr_ctx; embd] compt_type;
  Ok (AttentionBase.set_storage (Some k) (Some v) a, st).

End LlamaAttention.

Module GlmAttention.

Definition ctor (device : Device) (nm : string) (inputs : list handle)
    (embd rot nr_ctx head layer_id : Z) (compt_type : DType)
    (fused_weights bias : bool) (rotary_mode : RotMode) (st : Arena)
  : res (AttentionBase.t * Arena) :=
  let '(a, st) :=
    AttentionBase.ctor device nm inputs embd nr_ctx head layer_id
      fused_weights bias (AttentionBase.Glm rotary_mode) st in
  k ← KvStorage.make [nr_ctx; embd] compt_type;
  v ← KvStorage.make [nr_ctx; embd] compt_type;
  Ok (AttentionBase.set_storage (Some k) (Some v) a, st).

End GlmAttention.

Module Glm2MultiQueryAttention.

(** Unsigned 32-bit division; a zero divisor is undefined. *)
Definition udiv32 (a b : Z) : res Z :=
  if bool_decide (b = 0) then Undefined else Ok (a / b).

Definition ctor (device : Device) (nm : string) (inputs : list handle)
    (embd query_group_num nr_ctx head layer_id : Z) (compt_type : DType)
    (fused_weights bias : bool) (rotary_mode : RotMode) (st : Arena)
  : res (AttentionBase.t * Arena) :=
  let '(op, st) := OpBase.ctor device nm inputs st in
  let '(out, st) := make_shared (nm +:+ "_out") st in
  let '(op, st) := OpBase.add_outputs out op st in
  _ ← INFER_ASSERT fused_weights
        "Glm2MultiQueryAttention only support fused weights.";
  let '(weight_fused, st) := make_shared (nm +:+ ".wqkv.weight") st in
  q ← udiv32 (to_uint32 (to_uint32 (query_group_num * 2) * embd)) head;
  let weight_dim0 := to_uint32 (embd + q) in
  let st := update (Tensor.set_shape [weight_dim0; embd] None) weight_fused st in
  let '(weights, st) :=
    if bias then
      let '(weight_bias, st) :=
        AttentionBase.make_weight (nm +:+ ".wqkv.bias") [weight_dim0] st in
      (([weight_fused; weight_bias], st) : list handle * Arena)
    else ([weight_fused], st) in
  let '(op, st) := OpBase.set_weights weights op st in
  sub_dim ← udiv32 embd head;
  k ← KvStorage.make [nr_ctx; to_uint32 (sub_dim * query_group_num)] compt_type;
  v ← KvStorage.make [nr_ctx; to_uint32 (sub_dim * query_group_num)] compt_type;
  Ok (AttentionBase.mk op embd head nr_ctx layer_id fused_weights bias false
        (Some k) (Some v) (AttentionBase.Glm2MultiQuery query_group_num),
      st).

End Glm2MultiQueryAttention.

(** ** Dispatch over the operator classes *)

(** [Plain] stands for the operators that inherit every stage modelled
    here from [OpBase] ([LayerNorm], [SoftMax], [Elemwise], [DiagMask]).
    [SpliteHalfActiveMul], which has a shape inference of its own, is not
    one of them: it is modelled in its own module and is not dispatched
    over here. *)
Inductive Op : Type :=
  | Plain (b : OpBase.t)
  | MatMulOp (m : MatMul.t)
  | MatMulLastOp (m : MatMul.t)
  | ReshapeOp (r : Reshape.t)
  | AttentionOp (a : AttentionBase.t)
  | EmbeddingOp (e : Embedding.t).

(** What the numeric kernels see of a tensor. *)
Definition view (x : Tensor.t) : list Z * DType * list Z :=
  (Tensor.shape x, Tensor.dtype x, Tensor.data x).

Fixpoint views (st : Arena) (hs : list handle)
  : res (list (list Z * DType * list Z)) :=
  match hs with
  | [] => Ok []
  | h :: hs' =>
      x ← at_ st h;
      xs ← views st hs';
      Ok (view x :: xs)
  end.

(** The external numeric kernels.  [compute] produces the output elements
    of an operator without a cache.  For attention, [project_k] and
    [project_v] give the key and the value row of one incoming token, and
    [attend] the output from the valid rows of both caches.  An attention
    kernel receives the operator with its caches detached. *)
Record Kernel : Type := mkKernel {
  compute : Op → list (list Z * DType * list Z) →
            list (list Z * DType * list Z) → Z → list Z;
  project_k : AttentionBase.t → list (list Z * DType * list Z) →
              list Z * DType * list Z → Z → nat → list Z;
  project_v : AttentionBase.t → list (list Z * DType * list Z) →
              list Z * DType * list Z → Z → nat → list Z;
  attend : AttentionBase.t → list (list Z * DType * list Z) →
           list Z * DType * list Z → Z →
           list (list Z) → list (list Z) → list Z
}.

(** Rows written into a cache buffer from row [off] on. *)
Definition write_rows (buf : list (list Z)) (off : nat) (new : list (list Z))
  : list (list Z) :=
  take off buf ++ new ++ drop (off + length new) buf.

Module Execute.

(** Modelled from the spec: the [execute] bodies are in [op.cpp], which is
    not part of the sources.  An operator without a cache writes what the
    kernel computes from its inputs and weights into its first output. *)
Definition plain (kern : Kernel) (op : Op) (b : OpBase.t) (st : Arena)
    (nr_past : Z) : res Arena :=
  ins ← views st (OpBase.inputs b);
  ws ← views st (OpBase.weights b);
  o ← at_ (OpBase.outputs b) 0;
  Ok (update (Tensor.set_data (compute kern op ins ws nr_past)) o st).

(** Modelled from the spec: attention computes the key and value rows of
    the incoming tokens, writes them at the current length of each cache,
    and attends over the rows [0 .. current length + new length). *)
Definition attention (kern : Kernel) (a : AttentionBase.t) (st : Arena)
    (nr_past : Z) : res (AttentionBase.t * Arena) :=
  len ← AttentionBase.token_len a st;
  i ← at_ (OpBase.inputs (AttentionBase.base a)) 0;
  x ← at_ st i;
  ws ← views st (OpBase.weights (AttentionBase.base a));
  k ← deref (AttentionBase.m_kstorage a);
  v ← deref (AttentionBase.m_vstorage a);
  let cfg := AttentionBase.set_storage None None a in
  let tokens := seq 0 (Z.to_nat len) in
  let new_k := map (project_k kern cfg ws (view x) nr_past) tokens in
  let new_v := map (project_v kern cfg ws (view x) nr_past) tokens in
  let k_off := Z.to_nat (KvStorage.curr_id k) in
  let v_off := Z.to_nat (KvStorage.curr_id v) in
  let k_rows := write_rows (KvStorage.rows k) k_off new_k in
  let v_rows := write_rows (KvStorage.rows v) v_off new_v in
  let out :=
    attend kern cfg ws (view x) nr_past
      (take (k_off + Z.to_nat len) k_rows)
      (take (v_off + Z.to_nat len) v_rows) in
  o ← at_ (OpBase.outputs (AttentionBase.base a)) 0;
  Ok (AttentionBase.set_storage
        (Some (KvStorage.set_rows k_rows k))
        (Some (KvStorage.set_rows v_rows v)) a,
      update (Tensor.set_data out) o st).

End Execute.

Module Operator.

Definition base (op : Op) : OpBase.t :=
  match op with
  | Plain b => b
  | MatMulOp m | MatMulLastOp m => MatMul.base m
  | ReshapeOp r => Reshape.base r
  | AttentionOp a => AttentionBase.base a
  | EmbeddingOp e => Embedding.base e
  end.

Definition deduce_output_shape (op : Op) (st : Arena) : res Arena :=
  match op with
  | Plain b => OpBase.deduce_output_shape b st
  | MatMulOp m => MatMul.deduce_output_shape m st
  | MatMulLastOp m => MatMulLast.deduce_output_shape m st
  | ReshapeOp r => Reshape.deduce_output_shape r st
  | AttentionOp a => OpBase.deduce_output_shape (AttentionBase.base a) st
  | EmbeddingOp e => Embedding.deduce_output_shape e st
  end.

Definition need_preprocess_weight (op : Op) (st : Arena) (weight : Tensor.t)
  : res bool :=
  match op with
  | Plain b => OpBase.need_preprocess_weight b weight
  | MatMulOp m => MatMul.need_preprocess_weight m st weight
  | MatMulLastOp m => MatMulLast.need_preprocess_weight m st weight
  | ReshapeOp r => OpBase.need_preprocess_weight (Reshape.base r) weight
  | AttentionOp a => AttentionBase.need_preprocess_weight a st weight
  | EmbeddingOp e => OpBase.need_preprocess_weight (Embedding.base e) weight
  end.

Definition pre_execute (op : Op) (st : Arena) : res (Op * Arena) :=
  match op with
  | AttentionOp a =>
      '(a, st) ← AttentionBase.pre_execute a st;
      Ok (AttentionOp a, st)
  | _ => Ok (op, OpBase.pre_execute (base op) st)
  end.

Definition execute (kern : Kernel) (op : Op) (st : Arena) (nr_past : Z)
  : res (Op * Arena) :=
  match op with
  | AttentionOp a =>
      '(a, st) ← Execute.attention kern a st nr_past;
      Ok (AttentionOp a, st)
  | _ =>
      st ← Execute.plain kern op (base op) st nr_past;
      Ok (op, st)
  end.

Definition end_execute (op : Op) (st : Arena) : res (Op * Arena) :=
  match op with
  | AttentionOp a =>
      '(a, st) ← AttentionBase.end_execute a st;
      Ok (AttentionOp a, st)
  | _ => Ok (op, OpBase.end_execute (base op) st)
  end.

(** The three execution stages of one operator in a pass. *)
Definition run (kern : Kernel) (nr_past : Z) (op : Op) (st : Arena)
  : res (Op * Arena) :=
  '(op, st) ← pre_execute op st;
  '(op, st) ← execute kern op st nr_past;
  end_execute op st.

End Operator.

(** ** Making an operator *)

(** [std::make_shared<Op>(args...)], as the templates [add_opr] of
    [graph.h] call it: an operator class with the arguments of its
    constructor that follow the device, the name and the inputs.
    ([Embedding] takes the same arguments in another order.) *)
Inductive OpClass : Type :=
  | LayerNormC (embd : Z) (mul bias rms : bool) (eps : Z)
  | MatMulC (shp : list Z) (bias : bool)
  | MatMulLastC (shp : list Z) (bias : bool)
  | SoftMaxC
  | ReshapeC (shp : list Z)
  | ElemwiseC (mode : ElemMode) (scale : Z)
  | DiagMaskC
  | LlamaAttentionC (embd rot nr_ctx head layer_id : Z) (compt_type : DType)
      (fused_weights bias : bool) (rotary_mode : RotMode)
  | GlmAttentionC (embd rot nr_ctx head layer_id : Z) (compt_type : DType)
      (fused_weights bias : bool) (rotary_mode : RotMode)
  | Glm2MultiQueryAttentionC (embd query_group_num nr_ctx head layer_id : Z)
      (compt_type : DType) (fused_weights bias : bool) (rotary_mode : RotMode)
  | EmbeddingC (embd vocab : Z) (compt_type : DType).

Definition make_op (c : OpClass) (device : Device) (nm : string)
    (inputs : list handle) (st : Arena) : res (Op * Arena) :=
  match c with
  | LayerNormC embd mul bias rms eps =>
      let '(l, st) := LayerNorm.ctor device nm inputs embd mul bias rms eps st in
      Ok (Plain (LayerNorm.base l), st)
  | MatMulC shp bias =>
      '(m, st) ← MatMul.ctor device nm inputs shp bias st;
      Ok (MatMulOp m, st)
  | MatMulLastC shp bias =>
      '(m, st) ← MatMul.ctor device nm inputs shp bias st;
      Ok (MatMulLastOp m, st)
  | SoftMaxC =>
      let '(b, st) := SoftMax.ctor device nm inputs st in
      Ok (Plain b, st)
  | ReshapeC shp =>
      let '(r, st) := Reshape.ctor device nm inputs shp st in
      Ok (ReshapeOp r, st)
  | ElemwiseC mode scale =>
      let '(e, st) := Elemwise.ctor device nm inputs mode scale st in
      Ok (Plain (Elemwise.base e), st)
  | DiagMaskC =>
      let '(b, st) := DiagMask.ctor device nm inputs st in
      Ok (Plain b, st)
  | LlamaAttentionC embd rot nr_ctx head layer_id compt_type fused_weights
      bias rotary_mode =>
      '(a, st) ← LlamaAttention.ctor device nm inputs embd rot nr_ctx head
                   layer_id compt_type fused_weights bias rotary_mode st;
      Ok (AttentionOp a, st)
  | GlmAttentionC embd rot nr_ctx head layer_id compt_type fused_weights
      bias rotary_mode =>
      '(a, st) ← GlmAttention.ctor device nm inputs embd rot nr_ctx head
                   layer_id compt_type fused_weights bias rotary_mode st;
      Ok (AttentionOp a, st)
  | Glm2MultiQueryAttentionC embd query_group_num nr_ctx head layer_id
      compt_type fused_weights bias rotary_mode =>
      '(a, st) ← Glm2MultiQueryAttention.ctor device nm inputs embd
                   query_group_num nr_ctx head layer_id compt_type
                   fused_weights bias rotary_mode st;
      Ok (AttentionOp a, st)
  | EmbeddingC embd vocab compt_type =>
      let '(e, st) := Embedding.ctor inputs embd vocab compt_type device nm st in
      Ok (EmbeddingOp e, st)
  end.

(** ** Decoding with one attention operator *)

Module Decode.

(** The logical lengths of the key and of the value cache. *)
Definition cache_lengths (a : AttentionBase.t) : option (Z * Z) :=
  k ← AttentionBase.m_kstorage a;
  v ← AttentionBase.m_vstorage a;
  Some (KvStorage.curr_id k, KvStorage.curr_id v).

(** What happens upstream of the operator in a call with [b] new tokens:
    shape inference gives the input the shape [[b; embd]], and the
    producer's [pre_execute] prepares it. *)
Definition feed (b : Z) (a : AttentionBase.t) (i : handle) (st : Arena)
  : Arena :=
  update OpBase.pre_execute_output i
    (update (Tensor.set_shape [b; AttentionBase.m_embd a] None) i st).

(** One call: the input is fed, then the three execution stages run. *)
Definition call (kern : Kernel) (b nr_past : Z) (a : AttentionBase.t)
    (st : Arena) : res (AttentionBase.t * Arena) :=
  i ← at_ (OpBase.inputs (AttentionBase.base a)) 0;
  let st := feed b a i st in
  '(a, st) ← AttentionBase.pre_execute a st;
  '(a, st) ← Execute.attention kern a st nr_past;
  AttentionBase.end_execute a st.

(** Successive calls with batches [bs]; each call is told the number of
    positions processed before it. *)
Fixpoint calls (kern : Kernel) (bs : list Z) (nr_past : Z)
    (a : AttentionBase.t) (st : Arena) : res (AttentionBase.t * Arena) :=
  match bs with
  | [] => Ok (a, st)
  | b :: bs' =>
      '(a, st) ← call kern b nr_past a st;
      calls kern bs' (nr_past + b) a st
  end.

(** The operator's first input, first output and weights are tensors of
    the arena. *)
Definition ready (a : AttentionBase.t) (st : Arena) : Prop :=
  (∃ i, OpBase.inputs (AttentionBase.base a) !! 0%nat = Some i ∧
        is_Some (st !! i)) ∧
  (∃ o, OpBase.outputs (AttentionBase.base a) !! 0%nat = Some o ∧
        is_Some (st !! o)) ∧
  Forall (fun w => is_Some (st !! w)) (OpBase.weights (AttentionBase.base a)).

End Decode.

(** Two arenas holding tensors of the same shapes at the same handles. *)
Definition same_shapes (st st' : Arena) : Prop :=
  ∀ h, Tensor.shape <$> st' !! h = Tensor.shape <$> st !! h.

(** Sum of the batch sizes. *)
Definition total (bs : list Z) : Z := foldr Z.add 0 bs.

(** ** Modules and the graph *)

Module OprModuleBase.

Inductive kind : Type :=
  | BaseModule
  | AttentionModule.

(** In an [AttentionModule], [m_attention_op] is the operator [oprs()[0]]. *)
Record t : Type := mk {
  m_name : string;
  m_inputs : list handle;
  m_output : option handle;
  m_oprs : list Op;
  m_kind : kind
}.

Definition set_oprs (ops : list Op) (m : t) : t :=
  mk (m_name m) (m_inputs m) (m_output m) ops (m_kind m).

Fixpoint deduce_ops (ops : list Op) (st : Arena) : res Arena :=
  match ops with
  | [] => Ok st
  | op :: ops' =>
      st ← Operator.deduce_output_shape op st;
      deduce_ops ops' st
  end.

(** Modelled from the spec: the body of [execute] is in [graph.cpp], which
    is not part of the sources.  The operators run in declaration order,
    each through [pre_execute], [execute] and [end_execute]. *)
Fixpoint run_ops (kern : Kernel) (nr_past : Z) (ops : list Op) (st : Arena)
  : res (list Op * Arena) :=
  match ops with
  | [] => Ok ([], st)
  | op :: ops' =>
      '(op, st) ← Operator.run kern nr_past op st;
      '(ops', st) ← run_ops kern nr_past ops' st;
      Ok (op :: ops', st)
  end.

(** Modelled from the spec: the body of [deduce_output_shape] is in
    [graph.cpp]; every operator of the module infers its shape, in
    declaration order. *)
Definition deduce_output_shape (m : t) (st : Arena) : res Arena :=
  deduce_ops (m_oprs m) st.

Definition execute (kern : Kernel) (nr_past : Z) (m : t) (st : Arena)
  : res (t * Arena) :=
  '(ops, st) ← run_ops kern nr_past (m_oprs m) st;
  Ok (set_oprs ops m, st).

Definition reset_ctx (m : t) : res t :=
  match m_kind m with
  | BaseModule => Ok m
  | AttentionModule =>
      op ← at_ (m_oprs m) 0;
      match op with
      | AttentionOp a =>
          a ← AttentionBase.reset_ctx a;
          Ok (set_oprs (<[0%nat := AttentionOp a]> (m_oprs m)) m)
      | _ => Undefined
      end
  end.

(** The weights of the module's operators, in declaration order. *)
Definition get_all_weights (m : t) : list handle :=
  foldl (fun all_weights opr =>
           all_weights ++ OpBase.weights (Operator.base opr))
    [] (m_oprs m).

End OprModuleBase.

Module AttentionModule.

(** [Attention] is the template argument: the constructor of the attention
    class the module is instantiated with. *)
Definition ctor
    (Attention : Device → string → list handle → Z → Z → Z → Z → Z → DType →
                 bool → bool → RotMode → Arena → res (AttentionBase.t * Arena))
    (input : handle) (embd head n_rot n_ctx : Z) (compt_type : DType)
    (device : Device) (nm : string) (layer_id : Z)
    (fused_weights bias : bool) (rotary_mode : RotMode) (same_bias : bool)
    (st : Arena) : res (OprModuleBase.t * Arena) :=
  _ ← (if bool_decide (head = 0) then Undefined
       else INFER_ASSERT (bool_decide (embd mod head = 0))
              "Embedding and head is not match.");
  '(a, st) ← Attention device nm [input] embd n_rot n_ctx head layer_id
               compt_type fused_weights bias rotary_mode st;
  v_out ← at_ (OpBase.outputs (AttentionBase.base a)) 0;
  let proj_bias := if same_bias then bias else negb bias in
  '(mm, st) ← MatMul.ctor device (nm +:+ ".wo") [v_out] [embd; embd]
                proj_bias st;
  proj_out ← at_ (OpBase.outputs (MatMul.base mm)) 0;
  Ok (OprModuleBase.mk nm [input] (Some proj_out)
        [AttentionOp a; MatMulOp mm] OprModuleBase.AttentionModule,
      st).

End AttentionModule.

(** The hyperparameters of [graph.h], all [int32_t] but the flag. *)
Record LlmParams : Type := mkLlmParams {
  is_multi_query : bool;
  multi_query_group_num : Z;
  n_vocab : Z;
  n_embd : Z;
  n_mult : Z;
  n_head : Z;
  n_layer : Z;
  n_rot : Z;
  ftype : Z;
  n_ctx : Z
}.

Module Graph.

Record t : Type := mk {
  m_input : handle;
  m_modules : list OprModuleBase.t;
  m_param : LlmParams
}.

Definition set_modules (ms : list OprModuleBase.t) (g : t) : t :=
  mk (m_input g) ms (m_param g).

(** The accessors return [uint32_t]. *)
Definition get_nr_ctx (g : t) : Z := to_uint32 (n_ctx (m_param g)).
Definition get_nr_vocab (g : t) : Z := to_uint32 (n_vocab (m_param g)).

(** All operators of the graph, in execution order. *)
Definition oprs (g : t) : list Op :=
  concat (map OprModuleBase.m_oprs (m_modules g)).

Fixpoint deduce_modules (ms : list OprModuleBase.t) (st : Arena) : res Arena :=
  match ms with
  | [] => Ok st
  | m :: ms' =>
      st ← OprModuleBase.deduce_output_shape m st;
      deduce_modules ms' st
  end.

Fixpoint run_modules (kern : Kernel) (nr_past : Z)
    (ms : list OprModuleBase.t) (st : Arena)
  : res (list OprModuleBase.t * Arena) :=
  match ms with
  | [] => Ok ([], st)
  | m :: ms' =>
      '(m, st) ← OprModuleBase.execute kern nr_past m st;
      '(ms', st) ← run_modules kern nr_past ms' st;
      Ok (m :: ms', st)
  end.

(** Modelled from the spec: the body of [execute] is in [graph.cpp], which
    is not part of the sources.  A call that would push the sequence past
    the context length is fatal (the spec does not give the diagnostic).
    Otherwise the pass gives the input tensor the shape of the token
    sequence, infers the shapes, resumes and materializes the input
    ([begin_pass]), and runs the modules in declaration order. *)
Definition begin_pass (in_token : list Z) (g : t) (st : Arena) : res Arena :=
  let st :=
    update (Tensor.set_shape [Z.of_nat (length in_token)] (Some Int32))
      (m_input g) st in
  let st := update (Tensor.set_data in_token) (m_input g) st in
  st ← deduce_modules (m_modules g) st;
  let st := update Tensor.resume_user_count (m_input g) st in
  Ok (update Tensor.prepare_data (m_input g) st).

Definition execute (kern : Kernel) (in_token : list Z) (nr_past : Z) (g : t)
    (st : Arena) : res (t * Arena) :=
  _ ← INFER_ASSERT
        (bool_decide (nr_past + Z.of_nat (length in_token) ≤ get_nr_ctx g))
        "The context length is exceeded.";
  st ← begin_pass in_token g st;
  '(ms, st) ← run_modules kern nr_past (m_modules g) st;
  Ok (set_modules ms g, st).

Fixpoint reset_modules (ms : list OprModuleBase.t)
  : res (list OprModuleBase.t) :=
  match ms with
  | [] => Ok []
  | m :: ms' =>
      m ← OprModuleBase.reset_ctx m;
      ms' ← reset_modules ms';
      Ok (m :: ms')
  end.

(** Modelled from the spec: the body of [Graph::reset_ctx] is in
    [graph.cpp]; it forwards to every module's [reset_ctx]. *)
Definition reset_ctx (g : t) : res t :=
  ms ← reset_modules (m_modules g);
  Ok (set_modules ms g).

(** [add_module<OpModule>(args...)]: [OpModule] stands for the module
    class applied to its arguments.  The module is appended, and its
    output handed back for the next module to read. *)
Definition add_module (OpModule : Arena → res (OprModuleBase.t * Arena))
    (g : t) (st : Arena) : res (option handle * t * Arena) :=
  '(module, st) ← OpModule st;
  Ok (OprModuleBase.m_output module,
      set_modules (m_modules g ++ [module]) g, st).

End Graph.

(** The weights an operator may ask to have repacked: the weight of a
    matrix multiply, the fused QKV weight of an attention with fused
    weights, and the Q, K and V weights of an attention without. *)
Definition reorder_candidates (op : Op) : list handle :=
  match op with
  | MatMulOp m | MatMulLastOp m => take 1 (OpBase.weights (MatMul.base m))
  | AttentionOp a =>
      take (if AttentionBase.m_fused_weights a then 1 else 3)
        (OpBase.weights (AttentionBase.base a))
  | _ => []
  end.

(** [t] carries the name of one of the candidates. *)
Definition names_candidate (op : Op) (st : Arena) (t : Tensor.t) : Prop :=
  ∃ w wt, w ∈ reorder_candidates op ∧ st !! w = Some wt ∧
          Tensor.name t = Tensor.name wt.

(** The candidates exist: one for a matrix multiply or a fused attention,
    three for an attention with separate weights. *)
Definition candidates_present (op : Op) (st : Arena) : Prop :=
  match op with
  | MatMulOp m | MatMulLastOp m =>
      ∃ w, OpBase.weights (MatMul.base m) !! 0%nat = Some w ∧ is_Some (st !! w)
  | AttentionOp a =>
      ∀ j, (j < if AttentionBase.m_fused_weights a then 1 else 3)%nat →
        ∃ w, OpBase.weights (AttentionBase.base a) !! j = Some w ∧
             is_Some (st !! w)
  | _ => True
  end.

(** ** Consumers of a tensor *)

Module Wiring.

(** The number of input slots, over the operators [ops], that hold [h]. *)
Fixpoint uses (ops : list Op) (h : handle) : Z :=
  match ops with
  | [] => 0
  | op :: ops' =>
      Z.of_nat (count_occ Nat.eq_dec (OpBase.inputs (Operator.base op)) h) +
      uses ops' h
  end.

(** The number of operators of [ops] that list [h] among their inputs. *)
Fixpoint users (ops : list Op) (h : handle) : Z :=
  match ops with
  | [] => 0
  | op :: ops' =>
      (if decide (h ∈ OpBase.inputs (Operator.base op)) then 1 else 0) +
      users ops' h
  end.

(** The tensors available once the operators [ops] have run: the graph
    input and their outputs. *)
Definition produced (input : handle) (ops : list Op) : list handle :=
  input :: concat (map (fun op => OpBase.outputs (Operator.base op)) ops).

(** An attention operator has the single output its constructor adds; an
    output of any other operator that is marked shared has no consumer (it
    is the result handed to the caller). *)
Definition output_ok (op : Op) (st : Arena) : Prop :=
  match op with
  | AttentionOp a => ∃ o, OpBase.outputs (AttentionBase.base a) = [o]
  | _ =>
      ∀ o x, o ∈ OpBase.outputs (Operator.base op) → st !! o = Some x →
        Tensor.shared x = true → Tensor.usr_count x = 0
  end.

(** What the ordering of a graph depends on: whether the operator is an
    attention, and its wiring. *)
Definition skeleton (op : Op) : bool * OpBase.t :=
  (match op with AttentionOp _ => true | _ => false end, Operator.base op).

(** The operators [rest], run after [done], read only tensors produced
    before them and produce tensors of their own. *)
Fixpoint ordered (input : handle) (done rest : list Op) (st : Arena) : Prop :=
  match rest with
  | [] => True
  | op :: rest' =>
      (∀ h, h ∈ OpBase.inputs (Operator.base op) → h ∈ produced input done) ∧
      (∀ h, h ∈ OpBase.outputs (Operator.base op) → h ∉ produced input done) ∧
      output_ok op st ∧
      ordered input (done ++ [op]) rest' st
  end.

Definition well_formed (g : Graph.t) (st : Arena) : Prop :=
  ordered (Graph.m_input g) [] (Graph.oprs g) st.

(** The declared consumer count of every tensor is the number of input
    slots that hold it, as the constructors leave it. *)
Definition wired (g : Graph.t) (st : Arena) : Prop :=
  ∀ h x, st !! h = Some x → Tensor.usr_count x = uses (Graph.oprs g) h.

(** The declared count and the shared flag of a tensor, which no stage of
    a pass changes, and these together with the pending count. *)
Definition static (x : Tensor.t) : Z * bool :=
  (Tensor.usr_count x, Tensor.shared x).

Definition counts (x : Tensor.t) : Z * Z * bool :=
  (Tensor.usr_count x, Tensor.cur_count x, Tensor.shared x).

(** Two arenas that agree on the field [P] of every tensor. *)
Definition same_on {B} (P : Tensor.t → B) (st st' : Arena) : Prop :=
  ∀ h, P <$> st' !! h = P <$> st !! h.

(** The pending count of [x] after [pre_execute] of its producer [op],
    when [h] is the handle of [x]. *)
Definition cur_after_pre (op : Op) (h : handle) (x : Tensor.t) : Z :=
  match op with
  | AttentionOp a =>
      if decide (OpBase.outputs (AttentionBase.base a) !! 0%nat = Some h)
      then Tensor.cur_count (AttentionBase.pre_execute_output x)
      else Tensor.cur_count x
  | _ =>
      if decide (h ∈ OpBase.outputs (Operator.base op))
      then Tensor.cur_count (OpBase.pre_execute_output x)
      else Tensor.cur_count x
  end.

(** The state of the pending counts once the operators [done] have run: a
    tensor already produced has its declared count less the slots of
    [done] that hold it, any other tensor has none pending. *)
Definition balanced (input : handle) (done : list Op) (st : Arena) : Prop :=
  ∀ h x, st !! h = Some x →
    Tensor.cur_count x =
      if decide (h ∈ produced input done)
      then Tensor.usr_count x - uses done h else 0.

(** The operators [done] hold only tensors produced among them. *)
Definition closed (input : handle) (done : list Op) : Prop :=
  ∀ h, h ∉ produced input done → uses done h = 0.

(** No consumer is pending on any tensor. *)
Definition idle (st : Arena) : Prop :=
  ∀ h x, st !! h = Some x → Tensor.cur_count x = 0.

End Wiring.

(** The endings of the names of an operator's weights, in the order of
    [weights()]; each name begins with the name of the operator. *)
Definition weight_suffixes (c : OpClass) : list string :=
  match c with
  | LayerNormC _ mul bias _ _ =>
      (if mul then [".weight"] else []) ++ (if bias then [".bias"] else [])
  | MatMulC _ bias | MatMulLastC _ bias =>
      ".weight" :: (if bias then [".bias"] else [])
  | LlamaAttentionC _ _ _ _ _ _ fused_weights bias _
  | GlmAttentionC _ _ _ _ _ _ fused_weights bias _ =>
      if fused_weights
      then ".wqkv.weight" :: (if bias then [".wqkv.bias"] else [])
      else [".wq.weight"; ".wk.weight"; ".wv.weight"] ++
           (if bias then [".wq.bias"; ".wk.bias"; ".wv.bias"] else [])
  | Glm2MultiQueryAttentionC _ _ _ _ _ _ _ bias _ =>
      ".wqkv.weight" :: (if bias then [".wqkv.bias"] else [])
  | EmbeddingC _ _ _ => [".weight"]
  | SoftMaxC | ReshapeC _ | ElemwiseC _ _ | DiagMaskC => []
  end.

(** ** Assembling a graph *)

(** The attention classes an [AttentionModule] is instantiated with. *)
Inductive AttentionClass : Type :=
  | LlamaAttentionT
  | GlmAttentionT
  | Glm2MultiQueryAttentionT.

Definition attention_ctor (k : AttentionClass)
  : Device → string → list handle → Z → Z → Z → Z → Z → DType →
    bool → bool → RotMode → Arena → res (AttentionBase.t * Arena) :=
  match k with
  | LlamaAttentionT => LlamaAttention.ctor
  | GlmAttentionT => GlmAttention.ctor
  | Glm2MultiQueryAttentionT => Glm2MultiQueryAttention.ctor
  end.

Module Assembly.

(** A tensor as a constructor leaves it: owned by the operator [nm],
    without consumer, buffer or data. *)
Definition fresh (nm : string) (x : Tensor.t) : Prop :=
  Tensor.owner_op x = Some nm ∧ Tensor.usr_count x = 0 ∧
  Tensor.cur_count x = 0 ∧ Tensor.shared x = false ∧
  Tensor.allocated x = false ∧ Tensor.data x = [].

(** The operator [b] was made in the arena [st], which became [st']: the
    tensors of [st] are where they were, each input with one more declared
    consumer per slot that holds it; after them come the output and the
    weights of [b], in this order, all fresh. *)
Definition built (nm : string) (inputs : list handle) (st : Arena)
    (b : OpBase.t) (st' : Arena) : Prop :=
  OpBase.m_name b = nm ∧ OpBase.inputs b = inputs ∧
  OpBase.outputs b = [length st] ∧
  OpBase.weights b = seq (S (length st)) (length (OpBase.weights b)) ∧
  ∃ new, st' = update_all Tensor.add_user inputs st ++ new ∧
         length new = S (length (OpBase.weights b)) ∧
         Forall (fresh nm) new.

(** Operators made one after the other in an arena whose tensors had no
    consumer, each reading only the graph input and outputs of operators
    made before it. *)
Inductive assembled (input : handle) : list Op → Arena → Prop :=
  | assembled_nil st :
      (input < length st)%nat →
      Forall (fun x => Tensor.usr_count x = 0 ∧ Tensor.cur_count x = 0) st →
      assembled input [] st
  | assembled_snoc ops st c device nm inputs op st' :
      assembled input ops st →
      (∀ h, h ∈ inputs → h ∈ Wiring.produced input ops) →
      make_op c device nm inputs st = Ok (op, st') →
      assembled input (ops ++ [op]) st'.

End Assembly.

(** ** Concrete instances *)

Definition cpu : Device := mkDevice (fun _ => true).
Definition plain_cpu : Device := mkDevice (fun _ => false).

(** An activation tensor of the given shape, produced upstream. *)
Definition activation (nm : string) (shp : list Z) : Tensor.t :=
  Tensor.set_shape shp (Some Float32) (Tensor.make nm).

(** A projection whose weight was loaded as [Int4]. *)
Definition int4_matmul (device : Device) (shp : list Z)
  : res (MatMul.t * Arena) :=
  '(m, st) ← MatMul.ctor device "proj" [0%nat] shp false
               [activation "x" [5; 16]];
  w ← at_ (OpBase.weights (MatMul.base m)) 0;
  Ok (m, update (Tensor.set_shape shp (Some Int4)) w st).

(** One transformer block's attention sub-block on a three-token input:
    a [LlamaAttention] followed by its output projection.  The handles are
    0 for the input, 1 for the attention output, 2 to 4 for the Q, K and V
    weights, 5 for the projection output and 6 for its weight. *)
Definition llama_block : res (OprModuleBase.t * Arena) :=
  AttentionModule.ctor LlamaAttention.ctor 0%nat 16 4 4 8 Float32 cpu "l0" 0
    false false Mode0 true [activation "x" [3; 16]].

(** The same block with the outputs of both operators marked shared. *)
Definition llama_block_shared : res (OprModuleBase.t * Arena) :=
  '(m, st) ← llama_block;
  Ok (m, update_all (Tensor.set_shared true) [1%nat; 5%nat] st).

(** A kernel that copies nothing: every result is the empty buffer. *)
Definition null_kernel : Kernel :=
  mkKernel (fun _ _ _ _ => []) (fun _ _ _ _ _ => []) (fun _ _ _ _ _ => [])
    (fun _ _ _ _ _ _ => []).

(** A kernel whose results expose what it was given: a projected row holds
    the token position and the sum of the input elements, and attention
    returns the cache rows it was shown, keys first. *)
Definition probe_kernel : Kernel :=
  mkKernel
    (fun _ ins _ _ => concat (map snd ins))
    (fun _ _ x nr_past t => [nr_past + Z.of_nat t; foldr Z.add 0 (snd x)])
    (fun _ _ x nr_past t => [foldr Z.add 1 (snd x); nr_past + Z.of_nat t])
    (fun _ _ _ _ ks vs => concat ks ++ concat vs).

(** The attention operator of [llama_block], freshly built, on an input
    holding some data. *)
Definition fresh_attention : res (AttentionBase.t * Arena) :=
  '(m, st) ← llama_block;
  op ← at_ (OprModuleBase.m_oprs m) 0;
  match op with
  | AttentionOp a => Ok (a, update (Tensor.set_data [7; 11; 13]) 0%nat st)
  | _ => Undefined
  end.

(** The same operator after a first sequence of five tokens. *)
Definition used_attention : res (AttentionBase.t * Arena) :=
  '(a, st) ← fresh_attention;
  Decode.calls probe_kernel [3; 2] 0 a st.

(** A graph of two modules on token ids: an embedding lookup, then the
    attention sub-block of [llama_block] on its output.  The handles are 0
    for the token ids, 1 and 2 for the embedding output and weight, 3 for
    the attention output, 4 to 6 for the Q, K and V weights, 7 and 8 for
    the projection output and weight. *)
Definition tiny_graph : res (Graph.t * Arena) :=
  let '(e, st) :=
    Embedding.ctor [0%nat] 16 100 Float32 cpu "tok_embeddings"
      [Tensor.make "tokens"] in
  x ← at_ (OpBase.outputs (Embedding.base e)) 0;
  '(m, st) ← AttentionModule.ctor LlamaAttention.ctor x 16 4 4 8 Float32 cpu
               "l0" 0 false false Mode0 true st;
  Ok (Graph.mk 0%nat
        [OprModuleBase.mk "embd" [0%nat] (Some x) [EmbeddingOp e]
           OprModuleBase.BaseModule; m]
        (mkLlmParams false 1 100 16 0 4 1 4 0 8),
      st).

(** An elementwise operator reading the same tensor through both inputs. *)
Definition square : OpBase.t * Arena :=
  OpBase.ctor cpu "square" [0%nat; 0%nat] [activation "x" [4]].

(** * Properties *)

(** ** Arena lemmas *)

Lemma update_lookup f h (st : Arena) : update f h st !! h = f <$> st !! h.
Proof. unfold update. apply list_lookup_alter_eq. Qed.

Lemma update_lookup_ne f h h' (st : Arena) :
  h ≠ h' → update f h st !! h' = st !! h'.
Proof. intros Hne. unfold update. by apply list_lookup_alter_ne. Qed.

Lemma update_length f h (st : Arena) : length (update f h st) = length st.
Proof. unfold update. apply length_alter. Qed.

Lemma at_Ok {A} (v : list A) i a : v !! i = Some a → at_ v i = Ok a.
Proof. unfold at_. by intros ->. Qed.

Lemma at_Ok_inv {A} (v : list A) i a : at_ v i = Ok a → v !! i = Some a.
Proof. unfold at_. destruct (v !! i); by inversion 1. Qed.

Lemma to_size_t_small z : 0 ≤ z < 2 ^ 64 → to_size_t z = z.
Proof. intros H. unfold to_size_t. by apply Z.mod_small. Qed.


Lemma packed_features N :
  0 ≤ N < 2 ^ 64 → (PACK_SIZE | N) → to_size_t (N / PACK_SIZE * PACK_SIZE) = N.
Proof.
  intros HN [q ->]. unfold PACK_SIZE in *.
  rewrite Z.div_mul by lia. by apply to_size_t_small.
Qed.

(** ** Shape inference of the matrix multiplies *)

(** The two stages of [MatMul::deduce_output_shape]: the row count [M]
    read off the input shape, then the write of [[M; N]]. *)
Lemma MatMul_deduce_output_shape_eq m st i it w wt o N0 wrest M :
  OpBase.inputs (MatMul.base m) !! 0%nat = Some i → st !! i = Some it →
  OpBase.weights (MatMul.base m) !! 0%nat = Some w → st !! w = Some wt →
  OpBase.outputs (MatMul.base m) !! 0%nat = Some o →
  Tensor.shape wt = N0 :: wrest →
  (if bool_decide (length (Tensor.shape it) = 2%nat)
   then Tensor.shape it !! 0%nat else Tensor.shape it !! 1%nat) = Some M →
  MatMul.deduce_output_shape m st =
    Ok (update
          (Tensor.set_shape
             [M; if MatMul.m_weight_packed m
                 then to_size_t (N0 * PACK_SIZE) else N0]
             (Some (Tensor.dtype it))) o st).
Proof.
  intros Hi Hit Hw Hwt Ho Hws HM. unfold MatMul.deduce_output_shape.
  rewrite (at_Ok _ _ _ Hw). cbn. rewrite (at_Ok _ _ _ Hwt). cbn.
  rewrite (at_Ok _ _ _ Hi). cbn. rewrite (at_Ok _ _ _ Hit). cbn.
  rewrite Hws. cbn.
  case_bool_decide.
  - rewrite (at_Ok _ _ _ HM). cbn. by rewrite (at_Ok _ _ _ Ho).
  - rewrite (at_Ok _ _ _ HM). cbn. by rewrite (at_Ok _ _ _ Ho).
Qed.

(** C3 (amended). For a matrix multiply whose weight has shape [[N; K]], or
    [[N / 8; K]] when it is packed and 8 divides [N], the output shape is
    [[M; N]] with the element type of the input, where [M] is the leading
    dimension of a rank-2 input [[M; K]] and the second dimension of an
    input of any other rank (at least two dimensions). *)
Theorem MatMul_deduce_output_shape_rows m st i it w wt o ot N K wrest :
  OpBase.inputs (MatMul.base m) !! 0%nat = Some i → st !! i = Some it →
  OpBase.weights (MatMul.base m) !! 0%nat = Some w → st !! w = Some wt →
  OpBase.outputs (MatMul.base m) !! 0%nat = Some o → st !! o = Some ot →
  0 ≤ N < 2 ^ 64 →
  (MatMul.m_weight_packed m = true → (PACK_SIZE | N)) →
  Tensor.shape wt =
    (if MatMul.m_weight_packed m then N / PACK_SIZE else N) :: K :: wrest →
  (∀ M K', Tensor.shape it = [M; K'] →
     ∃ st', MatMul.deduce_output_shape m st = Ok st' ∧
            st' !! o =
              Some (Tensor.set_shape [M; N] (Some (Tensor.dtype it)) ot)) ∧
  (∀ d0 M rest, Tensor.shape it = d0 :: M :: rest → rest ≠ [] →
     ∃ st', MatMul.deduce_output_shape m st = Ok st' ∧
            st' !! o =
              Some (Tensor.set_shape [M; N] (Some (Tensor.dtype it)) ot)).
Proof.
  intros Hi Hit Hw Hwt Ho Hot HN Hpack Hws.
  assert (HN' : (if MatMul.m_weight_packed m
                 then to_size_t
                        ((if MatMul.m_weight_packed m
                          then N / PACK_SIZE else N) * PACK_SIZE)
                 else (if MatMul.m_weight_packed m
                       then N / PACK_SIZE else N)) = N).
  { destruct (MatMul.m_weight_packed m); [|done].
    apply packed_features; auto. }
  split.
  - intros M K' Hs. eexists. split.
    + eapply MatMul_deduce_output_shape_eq; eauto. by rewrite Hs.
    + rewrite update_lookup, Hot, HN'. done.
  - intros d0 M rest Hs Hrest. eexists. split.
    + eapply MatMul_deduce_output_shape_eq; eauto. rewrite Hs.
      rewrite bool_decide_eq_false_2; [done|].
      destruct rest; [done|]. cbn. lia.
    + rewrite update_lookup, Hot, HN'. done.
Qed.

Lemma MatMul_deduce_output_shape_rows_witness :
  ∃ m st, MatMul.ctor cpu "proj" [0%nat] [32; 16] false
            [activation "x" [5; 16]] = Ok (m, st) ∧
    ∃ st', MatMul.deduce_output_shape m st = Ok st' ∧
           Tensor.shape <$> st' !! 1%nat = Some [5; 32].
Proof.
  eexists _, _. split; [vm_compute; reflexivity|].
  match goal with
  | |- ∃ st', MatMul.deduce_output_shape ?m ?st = _ ∧ _ =>
      destruct (MatMul_deduce_output_shape_rows m st 0%nat
                  _ 2%nat _ 1%nat _ 32 16 []
                  eq_refl eq_refl eq_refl eq_refl eq_refl eq_refl
                  ltac:(lia) ltac:(discriminate) eq_refl) as [H _]
  end.
  destruct (H 5 16 eq_refl) as (st' & H1 & H2).
  exists st'. split; [exact H1|]. rewrite H2. reflexivity.
Defined.

(** C3 as stated fails: on an input of shape [[2; 5; 16]] the rows of the
    output are the second dimension 5, not the leading dimension 2. *)
Lemma MatMul_rows_not_leading :
  ¬ (∀ m st st' i it o ot M rest,
       OpBase.inputs (MatMul.base m) !! 0%nat = Some i → st !! i = Some it →
       OpBase.outputs (MatMul.base m) !! 0%nat = Some o →
       Tensor.shape it = M :: rest →
       MatMul.deduce_output_shape m st = Ok st' → st' !! o = Some ot →
       Tensor.shape ot !! 0%nat = Some M).
Proof.
  intros H.
  eassert (E : MatMul.ctor cpu "proj" [0%nat] [32; 16] false
                 [activation "x" [2; 5; 16]] = Ok (_, _))
    by (vm_compute; reflexivity).
  match type of E with
  | _ = Ok (?m, ?st) =>
      specialize (H m st _ 0%nat _ 1%nat _ 2 [5; 16]
                    eq_refl eq_refl eq_refl eq_refl eq_refl eq_refl)
  end.
  vm_compute in H. discriminate H.
Qed.

(** C4. The last-token-only matrix multiply gives its output the shape
    [[1; N']] whatever the shape of its input, where [N'] is the leading
    dimension [N] of the weight, multiplied by the pack size 8 (in
    [size_t]) when the weight is packed. *)
Theorem MatMulLast_deduce_output_shape_one m st i it w wt o ot N K wrest :
  OpBase.inputs (MatMul.base m) !! 0%nat = Some i → st !! i = Some it →
  OpBase.weights (MatMul.base m) !! 0%nat = Some w → st !! w = Some wt →
  OpBase.outputs (MatMul.base m) !! 0%nat = Some o → st !! o = Some ot →
  Tensor.shape wt = N :: K :: wrest →
  ∃ st' N',
    MatMulLast.deduce_output_shape m st = Ok st' ∧
    st' !! o = Some (Tensor.set_shape [1; N'] (Some (Tensor.dtype it)) ot) ∧
    N' = (if MatMul.m_weight_packed m then to_size_t (N * PACK_SIZE) else N) ∧
    (0 ≤ N * PACK_SIZE < 2 ^ 64 →
     N' = if MatMul.m_weight_packed m then N * PACK_SIZE else N).
Proof.
  intros Hi Hit Hw Hwt Ho Hot Hws. eexists _, _. split; [|split; [|split]].
  - unfold MatMulLast.deduce_output_shape.
    rewrite (at_Ok _ _ _ Hw). cbn. rewrite (at_Ok _ _ _ Hwt). cbn.
    rewrite (at_Ok _ _ _ Hi). cbn. rewrite (at_Ok _ _ _ Hit). cbn.
    rewrite Hws. cbn. rewrite (at_Ok _ _ _ Ho). cbn. reflexivity.
  - by rewrite update_lookup, Hot.
  - reflexivity.
  - intros HN. destruct (MatMul.m_weight_packed m); [|done].
    by apply to_size_t_small.
Qed.

Lemma MatMulLast_deduce_output_shape_one_witness :
  ∃ m st, MatMul.ctor cpu "head" [0%nat] [32; 16] false
            [activation "x" [5; 16]] = Ok (m, st) ∧
    ∃ st', MatMulLast.deduce_output_shape m st = Ok st' ∧
           Tensor.shape <$> st' !! 1%nat = Some [1; 32].
Proof.
  eexists _, _. split; [vm_compute; reflexivity|].
  match goal with
  | |- ∃ st', MatMulLast.deduce_output_shape ?m ?st = _ ∧ _ =>
      destruct (MatMulLast_deduce_output_shape_one m st 0%nat
                  _ 2%nat _ 1%nat _ 32 16 []
                  eq_refl eq_refl eq_refl eq_refl eq_refl eq_refl eq_refl)
        as (st' & N' & H1 & H2 & H3 & _)
  end.
  exists st'. split; [exact H1|]. rewrite H2, H3. reflexivity.
Defined.

(** The packed variant of the same head: a weight stored as [[4; 16]]. *)
Example MatMulLast_packed_example :
  ∃ m st st', MatMul.ctor cpu "head" [0%nat] [4; 16] false
                [activation "x" [7; 16]] = Ok (m, st) ∧
    MatMulLast.deduce_output_shape
      (MatMul.mk (MatMul.base m) (MatMul.m_bias m) true) st = Ok st' ∧
    Tensor.shape <$> st' !! 1%nat = Some [1; 32].
Proof. eexists _, _, _. repeat split; vm_compute; reflexivity. Qed.

(** ** Reshape *)

Section ReshapeLoops.

Implicit Types (ts pre : list Z) (len count : Z).

Lemma fixed_product_pos ts : Reshape.fixed_dims_positive ts → 0 < Reshape.fixed_product ts.
Proof.
  induction 1 as [|d ts Hd _ IH]; cbn; [lia|].
  case_bool_decide; [lia|]. destruct Hd; [done|]. nia.
Qed.

Lemma divide_step d P len :
  0 < d → 0 < P → ((d * P | len) ↔ (d | len) ∧ (P | len / d)).
Proof.
  intros Hd HP. split.
  - intros [q ->]. split.
    + exists (q * P). lia.
    + exists q. replace (q * (d * P)) with (q * P * d) by lia.
      by rewrite Z.div_mul by lia.
  - intros [[q ->] [r Hr]]. rewrite Z.div_mul in Hr by lia. subst q.
    exists r. lia.
Qed.

Lemma insert_slot pre (v x : Z) (rest : list Z) :
  <[length pre := v]> (pre ++ x :: rest) = (pre ++ [v]) ++ rest.
Proof.
  rewrite insert_app_r_alt by lia. rewrite Nat.sub_diag. cbn.
  by rewrite <- app_assoc.
Qed.

(** The first loop fails with the divisibility diagnostic exactly when the
    product of the fixed entries does not divide the element count;
    otherwise it leaves the quotient, the wildcard count, and the fixed
    entries in their slots. *)
Lemma solve_fixed_spec ts : ∀ pre len count,
  Reshape.fixed_dims_positive ts →
  Reshape.solve_fixed ts (length pre) len count
    (pre ++ replicate (length ts) 0) =
  if decide (Reshape.fixed_product ts | len)
  then Ok (len / Reshape.fixed_product ts, count + Reshape.wildcards ts,
           pre ++ Reshape.solved 0 ts)
  else Fatal "Reshape error.".
Proof.
  induction ts as [|d ts IH]; intros pre len count Hpos.
  - cbn. rewrite decide_True by apply Z.divide_1_l.
    by rewrite Z.div_1_r, Z.add_0_r.
  - inversion Hpos as [|? ? Hd Hts]; subst.
    pose proof (fixed_product_pos ts Hts) as HP.
    cbn [Reshape.solve_fixed Reshape.fixed_product Reshape.wildcards
         Reshape.solved map length replicate].
    destruct Hd as [->|Hd].
    + rewrite (bool_decide_eq_false_2 (-1 ≠ -1)) by (intros ?; done).
      rewrite !(bool_decide_eq_true_2 (-1 = -1)) by done.
      replace (pre ++ 0 :: replicate (length ts) 0)
        with ((pre ++ [0]) ++ replicate (length ts) 0)
        by (by rewrite <- app_assoc).
      replace (S (length pre)) with (length (pre ++ [0]))
        by (rewrite length_app; cbn; lia).
      rewrite IH by done. rewrite Z.mul_1_l.
      destruct (decide _); [|done].
      rewrite <- app_assoc. cbn. do 3 f_equal. lia.
    + assert (Hne : d ≠ -1) by lia.
      rewrite (bool_decide_eq_true_2 (d ≠ -1)) by done.
      rewrite !(bool_decide_eq_false_2 (d = -1)) by done.
      assert (Hsz : to_size_t d = d) by (apply to_size_t_small; lia).
      rewrite Hsz. rewrite bool_decide_eq_false_2 by lia.
      rewrite insert_slot.
      replace (S (length pre)) with (length (pre ++ [d]))
        by (rewrite length_app; cbn; lia).
      destruct (decide (d * Reshape.fixed_product ts | len)) as [Hdiv|Hdiv].
      * apply divide_step in Hdiv as [Hd1 Hd2]; [|lia..].
        rewrite bool_decide_eq_true_2
          by (apply Z.mod_divide; [lia|done]).
        cbn. rewrite IH by done. rewrite decide_True by done.
        rewrite <- app_assoc. cbn.
        rewrite Z.div_div by lia. by rewrite Z.add_0_l.
      * destruct (decide (d | len)) as [Hd1|Hd1].
        -- rewrite bool_decide_eq_true_2
             by (apply Z.mod_divide; [lia|done]).
           cbn. rewrite IH by done.
           rewrite decide_False; [done|].
           intros Hd2. apply Hdiv. apply divide_step; [lia..|done].
        -- rewrite bool_decide_eq_false_2; [done|].
           intros Hm. apply Hd1. apply Z.mod_divide; [lia|done].
Qed.

Lemma fill_wildcard_spec ts : ∀ pre len,
  Reshape.fill_wildcard ts (length pre) len (pre ++ Reshape.solved 0 ts) =
  pre ++ Reshape.solved len ts.
Proof.
  induction ts as [|d ts IH]; intros pre len; [done|].
  cbn [Reshape.fill_wildcard Reshape.solved map].
  fold (Reshape.solved 0 ts). fold (Reshape.solved len ts).
  destruct (bool_decide (d = -1)).
  - rewrite insert_slot.
    replace (S (length pre)) with (length (pre ++ [len]))
      by (rewrite length_app; cbn; lia).
    rewrite IH. by rewrite <- app_assoc.
  - replace (pre ++ d :: Reshape.solved 0 ts)
      with ((pre ++ [d]) ++ Reshape.solved 0 ts)
      by (by rewrite <- app_assoc).
    replace (S (length pre)) with (length (pre ++ [d]))
      by (rewrite length_app; cbn; lia).
    rewrite IH. by rewrite <- app_assoc.
Qed.

Lemma out_shape_spec ts len :
  Reshape.fixed_dims_positive ts →
  Reshape.out_shape ts len =
  if decide (Reshape.fixed_product ts | len) then
    if decide (Reshape.wildcards ts = 1)
    then Ok (Reshape.solved (len / Reshape.fixed_product ts) ts)
    else Fatal "multi -1 in Reshape param."
  else Fatal "Reshape error.".
Proof.
  intros Hpos. unfold Reshape.out_shape.
  pose proof (solve_fixed_spec ts [] len 0 Hpos) as Hs.
  cbn [length app] in Hs. rewrite Hs.
  destruct (decide (_ | _)); [|done]. cbn.
  destruct (decide _) as [Hc|Hc].
  - rewrite bool_decide_eq_true_2 by done. cbn.
    pose proof (fill_wildcard_spec ts [] (len / Reshape.fixed_product ts))
      as Hf.
    cbn [length app] in Hf. by rewrite Hf.
  - by rewrite bool_decide_eq_false_2 by done.
Qed.

End ReshapeLoops.

(** C5 (amended). On a target shape with positive fixed entries, reshape
    succeeds when the target has exactly one wildcard and the product of
    the fixed entries divides the element count of the input: the output
    shape is the target with the wildcard replaced by the quotient.  It
    fails fatally when the number of wildcards is not exactly one (none, or
    more than one), and when the product does not divide the count. *)
Theorem Reshape_deduce_output_shape_one_wildcard r st i it o ot :
  OpBase.inputs (Reshape.base r) !! 0%nat = Some i → st !! i = Some it →
  OpBase.outputs (Reshape.base r) !! 0%nat = Some o → st !! o = Some ot →
  Reshape.fixed_dims_positive (Reshape.m_target_shape r) →
  (Reshape.wildcards (Reshape.m_target_shape r) = 1 →
   (Reshape.fixed_product (Reshape.m_target_shape r) | Tensor.length it) →
   ∃ st', Reshape.deduce_output_shape r st = Ok st' ∧
     st' !! o =
       Some (Tensor.set_shape
               (Reshape.solved
                  (Tensor.length it /
                   Reshape.fixed_product (Reshape.m_target_shape r))
                  (Reshape.m_target_shape r))
               (Some (Tensor.dtype it)) ot)) ∧
  (Reshape.wildcards (Reshape.m_target_shape r) ≠ 1 →
   is_fatal (Reshape.deduce_output_shape r st) = true) ∧
  (¬ (Reshape.fixed_product (Reshape.m_target_shape r) | Tensor.length it) →
   is_fatal (Reshape.deduce_output_shape r st) = true).
Proof.
  intros Hi Hit Ho Hot Hpos. unfold Reshape.deduce_output_shape.
  rewrite (at_Ok _ _ _ Hi). cbn. rewrite (at_Ok _ _ _ Hit). cbn.
  rewrite (out_shape_spec _ _ Hpos).
  split; [|split].
  - intros Hw Hdiv. rewrite decide_True by done. rewrite decide_True by done.
    cbn. rewrite (at_Ok _ _ _ Ho). cbn. eexists. split; [done|].
    by rewrite update_lookup, Hot.
  - intros Hw. destruct (decide (_ | _)); [|done].
    by rewrite decide_False by done.
  - intros Hdiv. by rewrite decide_False by done.
Qed.

Ltac fixed_dims :=
  unfold Reshape.fixed_dims_positive;
  repeat first
    [ apply List.Forall_nil
    | apply List.Forall_cons; [first [left; reflexivity | right; lia]|] ].

Lemma Reshape_deduce_output_shape_one_wildcard_witness :
  ∃ r st, Reshape.ctor cpu "view" [0%nat] [-1; 4]
            [activation "x" [2; 6]] = (r, st) ∧
    ∃ st', Reshape.deduce_output_shape r st = Ok st' ∧
           Tensor.shape <$> st' !! 1%nat = Some [3; 4].
Proof.
  eexists _, _. split; [vm_compute; reflexivity|].
  match goal with
  | |- ∃ st', Reshape.deduce_output_shape ?r ?st = _ ∧ _ =>
      destruct (Reshape_deduce_output_shape_one_wildcard r st 0%nat _ 1%nat _
                  eq_refl eq_refl eq_refl eq_refl) as [H _]
  end.
  - fixed_dims.
  - destruct H as (st' & H1 & H2); [reflexivity|by exists 3|].
    exists st'. split; [exact H1|]. rewrite H2. reflexivity.
Defined.

(** C5 as stated fails: a target without any wildcard, whose entries
    multiply to the element count, is not accepted. *)
Lemma Reshape_rejects_no_wildcard :
  ¬ (∀ r st i it,
       OpBase.inputs (Reshape.base r) !! 0%nat = Some i → st !! i = Some it →
       Reshape.fixed_dims_positive (Reshape.m_target_shape r) →
       Reshape.wildcards (Reshape.m_target_shape r) ≤ 1 →
       (Reshape.fixed_product (Reshape.m_target_shape r) | Tensor.length it) →
       is_ok (Reshape.deduce_output_shape r st) = true).
Proof.
  intros H.
  eassert (E : Reshape.ctor cpu "view" [0%nat] [3; 4]
                 [activation "x" [12]] = (_, _))
    by (vm_compute; reflexivity).
  match type of E with
  | _ = (?r, ?st) =>
      assert (Hok : is_ok (Reshape.deduce_output_shape r st) = true)
        by (apply (H r st 0%nat _ eq_refl eq_refl);
            [fixed_dims | by vm_compute | by exists 1])
  end.
  vm_compute in Hok. discriminate Hok.
Qed.

Example Reshape_no_wildcard_diagnostic :
  Reshape.out_shape [3; 4] 12 = Fatal "multi -1 in Reshape param.".
Proof. reflexivity. Qed.

Example Reshape_two_wildcards :
  Reshape.out_shape [-1; -1; 4] 12 = Fatal "multi -1 in Reshape param.".
Proof. reflexivity. Qed.

Example Reshape_not_dividing :
  Reshape.out_shape [-1; 5] 12 = Fatal "Reshape error.".
Proof. reflexivity. Qed.

(** ** Weight preprocessing policy *)

Lemma same_name_Ok a st weight j b :
  AttentionBase.same_name a st weight j = Ok b →
  ∃ w wt, OpBase.weights (AttentionBase.base a) !! j = Some w ∧
          st !! w = Some wt ∧
          b = bool_decide (Tensor.name weight = Tensor.name wt).
Proof.
  unfold AttentionBase.same_name, at_. intros H.
  destruct (OpBase.weights (AttentionBase.base a) !! j) as [w|] eqn:Hw;
    [|done].
  cbn in H. destruct (st !! w) as [wt|] eqn:Hwt; [|done].
  cbn in H. exists w, wt. by inversion H.
Qed.

Lemma same_name_present a st weight j w wt :
  OpBase.weights (AttentionBase.base a) !! j = Some w → st !! w = Some wt →
  AttentionBase.same_name a st weight j =
    Ok (bool_decide (Tensor.name weight = Tensor.name wt)).
Proof.
  intros Hw Hwt. unfold AttentionBase.same_name.
  rewrite (at_Ok _ _ _ Hw). cbn. by rewrite (at_Ok _ _ _ Hwt).
Qed.

Lemma elem_of_take_lookup {A} (l : list A) n j x :
  (j < n)%nat → l !! j = Some x → x ∈ take n l.
Proof.
  intros Hj Hx. apply list_elem_of_lookup. exists j.
  by rewrite lookup_take_lt.
Qed.

Lemma elem_of_take_inv {A} (l : list A) n x :
  x ∈ take n l → ∃ j, (j < n)%nat ∧ l !! j = Some x.
Proof.
  intros [j Hj]%list_elem_of_lookup. exists j.
  destruct (decide (j < n)%nat) as [Hlt|Hge].
  - by rewrite lookup_take_lt in Hj.
  - rewrite lookup_take_ge in Hj by lia. done.
Qed.

(** The value computed by [MatMul::need_preprocess_weight]. *)
Lemma MatMul_need_preprocess_weight_eq m st weight w wt M rest :
  OpBase.weights (MatMul.base m) !! 0%nat = Some w → st !! w = Some wt →
  Tensor.shape weight = M :: rest →
  MatMul.need_preprocess_weight m st weight =
    Ok (bool_decide (Tensor.name weight = Tensor.name wt) &&
        supported_optimization (OpBase.m_device (MatMul.base m))
          MatmulInt4Reorder &&
        bool_decide (Tensor.dtype weight = Int4) &&
        bool_decide (M mod PACK_SIZE = 0)).
Proof.
  intros Hw Hwt Hs. unfold MatMul.need_preprocess_weight.
  rewrite (at_Ok _ _ _ Hw). cbn. rewrite (at_Ok _ _ _ Hwt). cbn.
  case_bool_decide; [|done]. rewrite Hs. cbn.
  unfold OpBase.get_kernel.
  by destruct (supported_optimization _ _), (bool_decide (_ = Int4)),
    (bool_decide (_ mod _ = 0)).
Qed.

(** The value computed by [AttentionBase::need_preprocess_weight]. *)
Lemma Attention_need_preprocess_weight_eq a st weight M rest :
  candidates_present (AttentionOp a) st →
  Tensor.shape weight = M :: rest →
  ∃ right_weight : bool,
    (right_weight = true ↔ names_candidate (AttentionOp a) st weight) ∧
    AttentionBase.need_preprocess_weight a st weight =
      Ok (supported_optimization (OpBase.m_device (AttentionBase.base a))
            MatmulInt4Reorder &&
          bool_decide (Tensor.dtype weight = Int4) &&
          right_weight &&
          bool_decide (M mod PACK_SIZE = 0)).
Proof.
  intros Hp Hs. unfold AttentionBase.need_preprocess_weight.
  rewrite Hs. cbn. unfold candidates_present in Hp.
  unfold names_candidate, reorder_candidates.
  destruct (AttentionBase.m_fused_weights a).
  - destruct (Hp 0%nat ltac:(lia)) as (w0 & Hw0 & [t0 Ht0]).
    rewrite (same_name_present _ _ _ _ _ _ Hw0 Ht0). cbn.
    eexists. split; [|reflexivity].
    rewrite bool_decide_eq_true. split.
    + intros Hn. exists w0, t0. split; [|done].
      by eapply elem_of_take_lookup; [|done]; lia.
    + intros (w & wt & [j [Hj Hw]]%elem_of_take_inv & Hwt & Hn).
      assert (j = 0%nat) as -> by lia. congruence.
  - destruct (Hp 0%nat ltac:(lia)) as (w0 & Hw0 & [t0 Ht0]).
    destruct (Hp 1%nat ltac:(lia)) as (w1 & Hw1 & [t1 Ht1]).
    destruct (Hp 2%nat ltac:(lia)) as (w2 & Hw2 & [t2 Ht2]).
    rewrite (same_name_present _ _ _ _ _ _ Hw0 Ht0).
    rewrite (same_name_present _ _ _ _ _ _ Hw1 Ht1).
    rewrite (same_name_present _ _ _ _ _ _ Hw2 Ht2).
    exists (bool_decide (Tensor.name weight = Tensor.name t0) ||
            bool_decide (Tensor.name weight = Tensor.name t1) ||
            bool_decide (Tensor.name weight = Tensor.name t2)).
    split.
    + rewrite !orb_true_iff, !bool_decide_eq_true. split.
      * intros [[Hn|Hn]|Hn].
        -- exists w0, t0. split; [|done].
           by eapply elem_of_take_lookup; [|done]; lia.
        -- exists w1, t1. split; [|done].
           by eapply elem_of_take_lookup; [|done]; lia.
        -- exists w2, t2. split; [|done].
           by eapply elem_of_take_lookup; [|done]; lia.
      * intros (w & wt & [j [Hj Hw]]%elem_of_take_inv & Hwt & Hn).
        destruct j as [|[|[|j]]]; [| | |lia].
        -- left; left. congruence.
        -- left; right. congruence.
        -- right. congruence.
    + unfold lazy_or.
      by destruct (bool_decide (Tensor.name weight = Tensor.name t0)),
        (bool_decide (Tensor.name weight = Tensor.name t1)).
Qed.

(** What a positive answer of the two overriding classes implies. *)
Lemma MatMul_need_preprocess_weight_true m st weight :
  MatMul.need_preprocess_weight m st weight = Ok true →
  names_candidate (MatMulOp m) st weight ∧
  Tensor.dtype weight = Int4 ∧
  (∃ M rest, Tensor.shape weight = M :: rest ∧ M mod PACK_SIZE = 0) ∧
  supported_optimization (OpBase.m_device (MatMul.base m))
    MatmulInt4Reorder = true.
Proof.
  unfold MatMul.need_preprocess_weight, at_. intros H.
  destruct (OpBase.weights (MatMul.base m) !! 0%nat) as [w|] eqn:Hw; [|done].
  cbn in H. destruct (st !! w) as [wt|] eqn:Hwt; [|done]. cbn in H.
  case_bool_decide as Hn; [|done].
  destruct (Tensor.shape weight) as [|M rest] eqn:Hs; [done|]. cbn in H.
  unfold OpBase.get_kernel in H.
  destruct (supported_optimization _ _) eqn:Hk; [|done]. cbn in H.
  case_bool_decide as Hd; [|done]. cbn in H.
  case_bool_decide as HM; [|done].
  repeat split; [|done|by exists M, rest].
  exists w, wt. split; [|done].
  by eapply elem_of_take_lookup; [|done]; lia.
Qed.

Lemma Attention_need_preprocess_weight_true a st weight :
  AttentionBase.need_preprocess_weight a st weight = Ok true →
  names_candidate (AttentionOp a) st weight ∧
  Tensor.dtype weight = Int4 ∧
  (∃ M rest, Tensor.shape weight = M :: rest ∧ M mod PACK_SIZE = 0) ∧
  supported_optimization (OpBase.m_device (AttentionBase.base a))
    MatmulInt4Reorder = true.
Proof.
  unfold AttentionBase.need_preprocess_weight. intros H.
  destruct (Tensor.shape weight) as [|M rest] eqn:Hs; [done|]. cbn in H.
  match type of H with
  | mbind _ ?r = _ => destruct r as [rw| |] eqn:Hr; [|done..]
  end.
  cbn in H. injection H as H.
  apply andb_true_iff in H as [H HM].
  apply andb_true_iff in H as [H Hrw].
  apply andb_true_iff in H as [Hk Hd].
  apply bool_decide_eq_true in HM, Hd. subst rw.
  repeat split; [|done|by exists M, rest|done].
  unfold names_candidate, reorder_candidates.
  destruct (AttentionBase.m_fused_weights a).
  - apply same_name_Ok in Hr as (w & wt & Hw & Hwt & Hb).
    symmetry in Hb. apply bool_decide_eq_true in Hb.
    exists w, wt. split; [|done].
    by eapply elem_of_take_lookup; [|done]; lia.
  - unfold lazy_or in Hr.
    destruct (AttentionBase.same_name a st weight 0) as [[]| |] eqn:H0;
      [| |done..].
    { apply same_name_Ok in H0 as (w & wt & Hw & Hwt & Hb).
      symmetry in Hb. apply bool_decide_eq_true in Hb.
      exists w, wt. split; [|done].
      by eapply elem_of_take_lookup; [|done]; lia. }
    destruct (AttentionBase.same_name a st weight 1) as [[]| |] eqn:H1;
      [| |done..].
    { apply same_name_Ok in H1 as (w & wt & Hw & Hwt & Hb).
      symmetry in Hb. apply bool_decide_eq_true in Hb.
      exists w, wt. split; [|done].
      by eapply elem_of_take_lookup; [|done]; lia. }
    apply same_name_Ok in Hr as (w & wt & Hw & Hwt & Hb).
    symmetry in Hb. apply bool_decide_eq_true in Hb.
    exists w, wt. split; [|done].
    by eapply elem_of_take_lookup; [|done]; lia.
Qed.

(** C6 (amended). Whatever the operator, [need_preprocess_weight] answers
    true only for a tensor that carries the name of one of the operator's
    Q/K/V (or fused QKV) or matmul weights, has element type [Int4], has a
    leading dimension that is a multiple of the pack size 8, on a device
    whose kernel reports [MatmulInt4Reorder]; when the operator's weights
    are in place and one of these conditions fails on a tensor of rank at
    least one, the answer is false. *)
Theorem need_preprocess_weight_policy op st weight :
  (Operator.need_preprocess_weight op st weight = Ok true →
   names_candidate op st weight ∧
   Tensor.dtype weight = Int4 ∧
   (∃ M rest, Tensor.shape weight = M :: rest ∧ M mod PACK_SIZE = 0) ∧
   supported_optimization (OpBase.m_device (Operator.base op))
     MatmulInt4Reorder = true) ∧
  (candidates_present op st → Tensor.shape weight ≠ [] →
   ¬ (names_candidate op st weight ∧
      Tensor.dtype weight = Int4 ∧
      (∃ M rest, Tensor.shape weight = M :: rest ∧ M mod PACK_SIZE = 0) ∧
      supported_optimization (OpBase.m_device (Operator.base op))
        MatmulInt4Reorder = true) →
   Operator.need_preprocess_weight op st weight = Ok false).
Proof.
  split.
  - destruct op as [b|m|m|r|a|e]; cbn; try done.
    + apply MatMul_need_preprocess_weight_true.
    + apply Attention_need_preprocess_weight_true.
  - intros Hp Hs Hn.
    destruct (Tensor.shape weight) as [|M rest] eqn:Hshape; [done|].
    destruct op as [b|m|m|r|a|e]; cbn; try done.
    + destruct Hp as (w & Hw & [wt Hwt]).
      rewrite (MatMul_need_preprocess_weight_eq _ _ _ _ _ _ _ Hw Hwt Hshape).
      f_equal. apply not_true_is_false. intros Ht. apply Hn.
      apply andb_true_iff in Ht as [Ht HM].
      apply andb_true_iff in Ht as [Ht Hd].
      apply andb_true_iff in Ht as [Hnm Hk].
      apply bool_decide_eq_true in HM, Hd, Hnm.
      repeat split; [|done|by exists M, rest|done].
      exists w, wt. split; [|done].
      by eapply elem_of_take_lookup; [|done]; lia.
    + destruct (Attention_need_preprocess_weight_eq a st weight M rest Hp
                  Hshape) as (rw & Hrw & ->).
      f_equal. apply not_true_is_false. intros Ht. apply Hn.
      apply andb_true_iff in Ht as [Ht HM].
      apply andb_true_iff in Ht as [Ht Hr].
      apply andb_true_iff in Ht as [Hk Hd].
      apply bool_decide_eq_true in HM, Hd.
      repeat split; [by apply Hrw|done|by exists M, rest|done].
Qed.

Lemma need_preprocess_weight_policy_witness :
  ∃ m st wt,
    int4_matmul cpu [32; 16] = Ok (m, st) ∧ st !! 2%nat = Some wt ∧
    Operator.need_preprocess_weight (MatMulOp m) st wt = Ok true ∧
    (names_candidate (MatMulOp m) st wt ∧
     Tensor.dtype wt = Int4 ∧
     (∃ M rest, Tensor.shape wt = M :: rest ∧ M mod PACK_SIZE = 0) ∧
     supported_optimization (OpBase.m_device (MatMul.base m))
       MatmulInt4Reorder = true) ∧
    Operator.need_preprocess_weight (MatMulOp m) st
      (Tensor.set_shape [30; 16] None wt) = Ok false.
Proof.
  eexists _, _, _. split; [vm_compute; reflexivity|].
  split; [reflexivity|]. split; [reflexivity|].
  match goal with
  | |- _ ∧ Operator.need_preprocess_weight ?op ?st ?t = _ =>
      pose proof (need_preprocess_weight_policy op st t) as [_ Hfalse]
  end.
  split.
  - match goal with
    | |- names_candidate ?op ?st ?t ∧ _ =>
        exact (proj1 (need_preprocess_weight_policy op st t) eq_refl)
    end.
  - apply Hfalse.
    + eexists. split; [reflexivity|]. by eexists.
    + discriminate.
    + intros (_ & _ & (M & rest & HM & Hmod) & _).
      injection HM as <- <-. vm_compute in Hmod. discriminate Hmod.
Defined.

(** C6 as stated fails: the operator knows its weights by name only.  A
    tensor that is none of the operator's weights, but is named like its
    weight, is repacked. *)
Lemma need_preprocess_weight_foreign_tensor :
  ¬ (∀ op st weight,
       Operator.need_preprocess_weight op st weight = Ok true →
       ∃ w, w ∈ OpBase.weights (Operator.base op) ∧ st !! w = Some weight).
Proof.
  intros H.
  eassert (E : int4_matmul cpu [32; 16] = Ok (_, _))
    by (vm_compute; reflexivity).
  match type of E with
  | _ = Ok (?m, ?st) =>
      destruct (H (MatMulOp m) st
                  (Tensor.set_shape [32; 16] (Some Int4)
                     (Tensor.make "proj.weight")) eq_refl)
        as (w & Hw & Hst)
  end.
  cbn in Hw. apply list_elem_of_singleton in Hw as ->.
  vm_compute in Hst. discriminate Hst.
Qed.

(** X19. The policy is complete for a matrix multiply and for an
    attention: a tensor that carries the name of a candidate weight of the
    operator, has element type [Int4] and a leading dimension that is a
    multiple of the pack size is repacked when the device reports the
    reordered kernel. *)
Lemma need_preprocess_weight_complete op st weight :
  match op with
  | MatMulOp _ | AttentionOp _ => True
  | _ => False
  end →
  candidates_present op st →
  names_candidate op st weight → Tensor.dtype weight = Int4 →
  (∃ M rest, Tensor.shape weight = M :: rest ∧ M mod PACK_SIZE = 0) →
  supported_optimization (OpBase.m_device (Operator.base op))
    MatmulInt4Reorder = true →
  Operator.need_preprocess_weight op st weight = Ok true.
Proof.
  intros Hop Hp Hn Hd (M & rest & Hs & HM) Hk.
  destruct op as [b|m|m|r|a|e]; try done; cbn in *.
  - destruct Hp as (w & Hw & [wt Hwt]).
    rewrite (MatMul_need_preprocess_weight_eq _ _ _ _ _ _ _ Hw Hwt Hs).
    destruct Hn as (w' & wt' & [j [Hj Hw']]%elem_of_take_inv & Hwt' & Hn).
    assert (j = 0%nat) as -> by lia.
    assert (w' = w) as -> by congruence.
    assert (wt' = wt) as -> by congruence.
    rewrite Hk. by rewrite !bool_decide_eq_true_2.
  - destruct (Attention_need_preprocess_weight_eq a st weight M rest Hp Hs)
      as (rw & Hrw & ->).
    rewrite Hk. apply Hrw in Hn as ->. by rewrite !bool_decide_eq_true_2.
Qed.

(** On a device that does not report the reordered kernel, the same
    weight is left alone. *)
Example MatMul_needs_device_support :
  ∃ m st wt,
    int4_matmul plain_cpu [32; 16] = Ok (m, st) ∧ st !! 2%nat = Some wt ∧
    Operator.need_preprocess_weight (MatMulOp m) st wt = Ok false.
Proof. eexists _, _, _. repeat split; vm_compute; reflexivity. Qed.

(** C10. The last-token-only matrix multiply never asks for its weight to
    be repacked, whatever the tensor, its element type and the device. *)
Theorem MatMulLast_need_preprocess_weight_false m st weight :
  MatMulLast.need_preprocess_weight m st weight = Ok false ∧
  Operator.need_preprocess_weight (MatMulLastOp m) st weight = Ok false.
Proof. split; reflexivity. Qed.

(** The same [Int4] weight on the same device: repacked for [MatMul], left
    alone for [MatMulLast]. *)
Example MatMulLast_leaves_int4_weight :
  ∃ m st wt,
    int4_matmul cpu [32; 16] = Ok (m, st) ∧ st !! 2%nat = Some wt ∧
    Operator.need_preprocess_weight (MatMulOp m) st wt = Ok true ∧
    Operator.need_preprocess_weight (MatMulLastOp m) st wt = Ok false.
Proof. eexists _, _, _. repeat split; vm_compute; reflexivity. Qed.

(** ** Construction of the multi-query-group attention *)

Lemma update_all_length f hs (st : Arena) :
  length (update_all f hs st) = length st.
Proof.
  unfold update_all. revert st.
  induction hs as [|h hs IH]; intros st; [done|].
  cbn. rewrite IH. apply update_length.
Qed.

(** A field that [f] leaves alone reads the same after any number of
    updates with [f]. *)
Lemma update_all_preserves {B} (P : Tensor.t → B) f hs (st : Arena) h :
  (∀ x, P (f x) = P x) → P <$> update_all f hs st !! h = P <$> st !! h.
Proof.
  intros HP. unfold update_all. revert st.
  induction hs as [|h' hs IH]; intros st; [done|].
  cbn. rewrite IH. destruct (decide (h' = h)) as [->|Hne].
  - rewrite update_lookup. destruct (st !! h); cbn; [|done]. by rewrite HP.
  - by rewrite update_lookup_ne.
Qed.





(** Through [AttentionModule] the head count divides [embd], or
    construction is fatal before the attention operator is built. *)
Lemma AttentionModule_ctor_checks_heads Attention input embd head n_rot n_ctx
    compt_type device nm layer_id fused bias mode same_bias st :
  head ≠ 0 → embd mod head ≠ 0 →
  AttentionModule.ctor Attention input embd head n_rot n_ctx compt_type
    device nm layer_id fused bias mode same_bias st =
  Fatal "Embedding and head is not match.".
Proof.
  intros Hh Hm. unfold AttentionModule.ctor.
  rewrite bool_decide_eq_false_2 by done.
  by rewrite bool_decide_eq_false_2 by done.
Qed.

(** ** Updates through a list of handles *)

Lemma update_all_cons f h hs (st : Arena) :
  update_all f (h :: hs) st = update_all f hs (update f h st).
Proof. reflexivity. Qed.

(** A handle named [n] times in the list has [f] applied [n] times. *)
Lemma update_all_lookup f hs (st : Arena) h :
  update_all f hs st !! h =
  Nat.iter (count_occ Nat.eq_dec hs h) f <$> st !! h.
Proof.
  revert st. induction hs as [|h' hs IH]; intros st.
  - cbn. by destruct (st !! h).
  - rewrite update_all_cons, IH. cbn [count_occ].
    destruct (Nat.eq_dec h' h) as [->|Hne].
    + rewrite update_lookup.
      destruct (st !! h); cbn [fmap option_fmap option_map]; [|done].
      f_equal. symmetry. apply Nat.iter_succ_r.
    + by rewrite update_lookup_ne.
Qed.

Lemma iter_idempotent {A} (f : A → A) n x :
  (∀ y, f (f y) = f y) → Nat.iter (S n) f x = f x.
Proof. intros Hf. induction n as [|n IH]; [done|]. cbn in *. by rewrite IH. Qed.

Lemma update_all_lookup_idem f hs (st : Arena) h :
  (∀ y, f (f y) = f y) →
  update_all f hs st !! h =
  if decide (h ∈ hs) then f <$> st !! h else st !! h.
Proof.
  intros Hf. rewrite update_all_lookup.
  destruct (decide (h ∈ hs)) as [Hin|Hin].
  - apply list_elem_of_In in Hin.
    apply (count_occ_In Nat.eq_dec) in Hin.
    destruct (count_occ Nat.eq_dec hs h) as [|n]; [lia|].
    destruct (st !! h); cbn [fmap option_fmap option_map]; [|done].
    f_equal. by apply iter_idempotent.
  - rewrite list_elem_of_In in Hin.
    apply (count_occ_not_In Nat.eq_dec) in Hin. rewrite Hin.
    by destruct (st !! h).
Qed.

Lemma prepare_data_idem x :
  Tensor.prepare_data (Tensor.prepare_data x) = Tensor.prepare_data x.
Proof. reflexivity. Qed.

Lemma recall_data_idem x :
  Tensor.recall_data (Tensor.recall_data x) = Tensor.recall_data x.
Proof. unfold Tensor.recall_data. by destruct x as [? ? ? ? ? ? [] ? ?]. Qed.

Lemma OpBase_pre_execute_output_idem x :
  OpBase.pre_execute_output (OpBase.pre_execute_output x) =
  OpBase.pre_execute_output x.
Proof.
  unfold OpBase.pre_execute_output.
  destruct x as [nm sh dt ow usr cur [] al da]; cbn;
    destruct (bool_decide (cur = 0)) eqn:E; cbn; rewrite ?E; cbn; try done.
  by destruct (bool_decide (usr = 0)).
Qed.

(** ** Preparing the outputs *)

Lemma update_all_fixed f hs (st : Arena) h x :
  st !! h = Some x → f x = x → update_all f hs st !! h = Some x.
Proof.
  intros Hx Hf. rewrite update_all_lookup, Hx.
  cbn [fmap option_fmap option_map]. f_equal.
  induction (count_occ Nat.eq_dec hs h) as [|n IH]; [done|].
  rewrite Nat.iter_succ. by rewrite IH.
Qed.

(** C9. An attention operator whose first output has no pending user
    materializes that output and resumes its count in [pre_execute],
    whether or not the tensor is marked shared; the base protocol leaves a
    shared output alone: its pending count is not resumed, and the tensor
    is untouched unless it is also one of the operator's weights. *)
Theorem Attention_pre_execute_ignores_shared :
  (∀ a st len k v o ot,
     AttentionBase.token_len a st = Ok len →
     AttentionBase.m_kstorage a = Some k →
     AttentionBase.m_vstorage a = Some v →
     KvStorage.curr_id k + len ≤ KvStorage.total_id k →
     KvStorage.curr_id v + len ≤ KvStorage.total_id v →
     OpBase.outputs (AttentionBase.base a) !! 0%nat = Some o →
     st !! o = Some ot → Tensor.get_curr_user_count ot = 0 →
     ∃ a' st' ot',
       AttentionBase.pre_execute a st = Ok (a', st') ∧
       st' !! o = Some ot' ∧
       ot' = Tensor.resume_user_count (Tensor.prepare_data ot) ∧
       Tensor.allocated ot' = true ∧
       Tensor.cur_count ot' = Tensor.usr_count ot ∧
       Tensor.shared ot' = Tensor.shared ot) ∧
  (∀ b st o ot,
     o ∈ OpBase.outputs b → st !! o = Some ot → Tensor.shared ot = true →
     ∃ ot',
       OpBase.pre_execute b st !! o = Some ot' ∧
       Tensor.cur_count ot' = Tensor.cur_count ot ∧
       (o ∉ OpBase.weights b → ot' = ot)).
Proof.
  split.
  - intros a st len k v o ot Hlen Hk Hv Hkc Hvc Ho Hot Hcur.
    unfold AttentionBase.pre_execute. rewrite Hlen. cbn.
    rewrite (at_Ok _ _ _ Ho). cbn.
    set (st1 := update_all Tensor.prepare_data
                  (OpBase.weights (AttentionBase.base a)) st).
    assert (Hst1 : ∃ x, st1 !! o = Some x ∧
                        Tensor.prepare_data x = Tensor.prepare_data ot ∧
                        Tensor.cur_count x = 0).
    { unfold st1.
      rewrite (update_all_lookup_idem _ _ _ _ prepare_data_idem), Hot.
      destruct (decide _); eexists; split_and!; done. }
    destruct Hst1 as (x & Hx & Hprep & Hxc).
    rewrite (at_Ok _ _ _ Hx). cbn. rewrite Hk, Hv. cbn.
    unfold KvStorage.prepare_data_with_length.
    rewrite !bool_decide_eq_true_2 by done. cbn.
    eexists _, _, _. split; [reflexivity|].
    rewrite update_lookup, Hx. cbn.
    unfold AttentionBase.pre_execute_output.
    rewrite bool_decide_eq_true_2 by done.
    rewrite Hprep. split_and!; try done.
  - intros b st o ot Ho Hot Hsh. unfold OpBase.pre_execute.
    set (st1 := update_all Tensor.prepare_data (OpBase.weights b) st).
    assert (Hst1 : ∃ x, st1 !! o = Some x ∧ Tensor.shared x = true ∧
                        Tensor.cur_count x = Tensor.cur_count ot ∧
                        (o ∉ OpBase.weights b → x = ot)).
    { unfold st1.
      rewrite (update_all_lookup_idem _ _ _ _ prepare_data_idem), Hot.
      destruct (decide _); eexists; split_and!; done. }
    destruct Hst1 as (x & Hx & Hxs & Hxc & Hxw).
    exists x. split_and!; try done.
    apply update_all_fixed; [done|].
    unfold OpBase.pre_execute_output. rewrite Hxs.
    by rewrite andb_false_r.
Qed.

Lemma Attention_pre_execute_ignores_shared_witness :
  ∃ m st a mm,
    llama_block_shared = Ok (m, st) ∧
    OprModuleBase.m_oprs m = [AttentionOp a; MatMulOp mm] ∧
    (Tensor.shared <$> st !! 1%nat = Some true ∧
     ∃ a' st',
       AttentionBase.pre_execute a st = Ok (a', st') ∧
       Tensor.allocated <$> st' !! 1%nat = Some true ∧
       Tensor.cur_count <$> st' !! 1%nat = Some 1) ∧
    (Tensor.shared <$> st !! 5%nat = Some true ∧
     OpBase.pre_execute (MatMul.base mm) st !! 5%nat = st !! 5%nat).
Proof.
  eexists _, _, _, _. split; [vm_compute; reflexivity|].
  split; [reflexivity|].
  pose proof Attention_pre_execute_ignores_shared as [HA HB].
  split; (split; [reflexivity|]).
  - match goal with
    | |- ∃ a' st', AttentionBase.pre_execute ?a ?st = _ ∧ _ =>
        destruct (HA a st 3 _ _ 1%nat _ eq_refl eq_refl eq_refl
                    ltac:(by vm_compute) ltac:(by vm_compute)
                    eq_refl eq_refl eq_refl)
          as (a' & st' & ot' & Hpre & Hot' & -> & _)
    end.
    exists a', st'. split; [exact Hpre|]. rewrite Hot'. split; reflexivity.
  - match goal with
    | |- OpBase.pre_execute ?b ?st !! _ = _ =>
        destruct (HB b st 5%nat _ ltac:(by apply list_elem_of_here) eq_refl
                    eq_refl) as (ot' & Hot' & _ & Hsame)
    end.
    rewrite Hot'. rewrite Hsame; [reflexivity|].
    intros Hin. apply list_elem_of_In in Hin. cbn in Hin.
    destruct Hin as [Hin|[]]. discriminate Hin.
Defined.

(** ** The attention cache across calls *)

Lemma same_shapes_refl st : same_shapes st st.
Proof. done. Qed.

Lemma same_shapes_trans st1 st2 st3 :
  same_shapes st1 st2 → same_shapes st2 st3 → same_shapes st1 st3.
Proof. intros H1 H2 h. by rewrite H2, H1. Qed.

Lemma same_shapes_is_Some st st' h :
  same_shapes st st' → is_Some (st' !! h) ↔ is_Some (st !! h).
Proof.
  intros H. specialize (H h).
  destruct (st' !! h), (st !! h); cbn in H; done.
Qed.

Lemma update_same_shapes f h st :
  (∀ x, Tensor.shape (f x) = Tensor.shape x) → same_shapes st (update f h st).
Proof.
  intros Hf h'. destruct (decide (h = h')) as [->|Hne].
  - rewrite update_lookup. destruct (st !! h'); cbn; [|done]. by rewrite Hf.
  - by rewrite update_lookup_ne.
Qed.

Lemma update_all_same_shapes f hs st :
  (∀ x, Tensor.shape (f x) = Tensor.shape x) →
  same_shapes st (update_all f hs st).
Proof. intros Hf h. by apply update_all_preserves. Qed.

Lemma token_len_same_shapes a st st' :
  same_shapes st st' → AttentionBase.token_len a st' = AttentionBase.token_len a st.
Proof.
  intros H. unfold AttentionBase.token_len.
  destruct (at_ (OpBase.inputs (AttentionBase.base a)) 0) as [i| |]; [|done..].
  cbn. specialize (H i). unfold at_.
  destruct (st' !! i), (st !! i); cbn in *; try done.
  injection H as H. by rewrite H.
Qed.

Lemma ready_same_shapes a st st' :
  same_shapes st st' → Decode.ready a st → Decode.ready a st'.
Proof.
  intros H ((i & Hi & Hsi) & (o & Ho & Hso) & Hw). split_and!.
  - exists i. split; [done|]. by apply (same_shapes_is_Some _ _ _ H).
  - exists o. split; [done|]. by apply (same_shapes_is_Some _ _ _ H).
  - eapply Forall_impl; [exact Hw|].
    intros w Hsw. by apply (same_shapes_is_Some _ _ _ H).
Qed.

Lemma decrease_shape x :
  Tensor.shape (Tensor.decrease_curr_user_count x) = Tensor.shape x.
Proof.
  unfold Tensor.decrease_curr_user_count, Tensor.recall_data.
  destruct x as [? ? ? ? ? ? [] ? ?]; cbn; by case_bool_decide.
Qed.

Lemma recall_shape x : Tensor.shape (Tensor.recall_data x) = Tensor.shape x.
Proof. unfold Tensor.recall_data. by destruct (Tensor.shared x). Qed.

Lemma Attention_pre_output_shape x :
  Tensor.shape (AttentionBase.pre_execute_output x) = Tensor.shape x.
Proof. unfold AttentionBase.pre_execute_output. by case_bool_decide. Qed.

Lemma views_ready st hs :
  Forall (fun w => is_Some (st !! w)) hs → ∃ vs, views st hs = Ok vs.
Proof.
  induction 1 as [|h hs [x Hx] _ [vs IH]]; [by eexists|].
  cbn. rewrite (at_Ok _ _ _ Hx). cbn. rewrite IH. cbn. by eexists.
Qed.

Lemma Attention_pre_execute_inv a st a' st' :
  AttentionBase.pre_execute a st = Ok (a', st') →
  ∃ len k v,
    AttentionBase.token_len a st = Ok len ∧
    AttentionBase.m_kstorage a = Some k ∧
    AttentionBase.m_vstorage a = Some v ∧
    a' = AttentionBase.set_storage (Some (KvStorage.set_prepared len k))
           (Some (KvStorage.set_prepared len v)) a ∧
    same_shapes st st'.
Proof.
  unfold AttentionBase.pre_execute. intros H.
  destruct (AttentionBase.token_len a st) as [len| |]; [cbn in H|done..].
  destruct (at_ (OpBase.outputs (AttentionBase.base a)) 0) as [o| |];
    [cbn in H|done..].
  destruct (at_ _ o) as [x| |]; [cbn in H|done..].
  destruct (AttentionBase.m_kstorage a) as [k|]; [cbn in H|done].
  unfold KvStorage.prepare_data_with_length in H.
  destruct (bool_decide (KvStorage.curr_id k + len ≤ _)); [cbn in H|done].
  destruct (AttentionBase.m_vstorage a) as [v|]; [cbn in H|done].
  destruct (bool_decide (KvStorage.curr_id v + len ≤ _)); [cbn in H|done].
  injection H as <- <-. exists len, k, v. split_and!; try done.
  eapply same_shapes_trans.
  - by apply (update_all_same_shapes Tensor.prepare_data).
  - apply update_same_shapes, Attention_pre_output_shape.
Qed.

Lemma Attention_pre_execute_ok a st len k v :
  Decode.ready a st →
  AttentionBase.token_len a st = Ok len →
  AttentionBase.m_kstorage a = Some k →
  AttentionBase.m_vstorage a = Some v →
  KvStorage.curr_id k + len ≤ KvStorage.total_id k →
  KvStorage.curr_id v + len ≤ KvStorage.total_id v →
  ∃ st', AttentionBase.pre_execute a st =
           Ok (AttentionBase.set_storage
                 (Some (KvStorage.set_prepared len k))
                 (Some (KvStorage.set_prepared len v)) a, st').
Proof.
  intros (_ & (o & Ho & Hso) & _) Hlen Hk Hv Hkc Hvc.
  unfold AttentionBase.pre_execute. rewrite Hlen. cbn.
  rewrite (at_Ok _ _ _ Ho). cbn.
  apply (same_shapes_is_Some _ _ o
           (update_all_same_shapes Tensor.prepare_data
              (OpBase.weights (AttentionBase.base a)) st
              (fun _ => eq_refl))) in Hso as [x Hx].
  rewrite (at_Ok _ _ _ Hx). cbn. rewrite Hk, Hv. cbn.
  unfold KvStorage.prepare_data_with_length.
  rewrite !bool_decide_eq_true_2 by done. cbn. by eexists.
Qed.

Lemma Attention_execute_inv kern a st nr_past a' st' :
  Execute.attention kern a st nr_past = Ok (a', st') →
  ∃ k v rk rv,
    AttentionBase.m_kstorage a = Some k ∧
    AttentionBase.m_vstorage a = Some v ∧
    a' = AttentionBase.set_storage (Some (KvStorage.set_rows rk k))
           (Some (KvStorage.set_rows rv v)) a ∧
    same_shapes st st'.
Proof.
  unfold Execute.attention. intros H.
  destruct (AttentionBase.token_len a st) as [len| |]; [cbn in H|done..].
  destruct (at_ (OpBase.inputs (AttentionBase.base a)) 0) as [i| |];
    [cbn in H|done..].
  destruct (at_ st i) as [x| |]; [cbn in H|done..].
  destruct (views st _) as [ws| |]; [cbn in H|done..].
  destruct (AttentionBase.m_kstorage a) as [k|]; [cbn in H|done].
  destruct (AttentionBase.m_vstorage a) as [v|]; [cbn in H|done].
  destruct (at_ (OpBase.outputs (AttentionBase.base a)) 0) as [o| |];
    [cbn in H|done..].
  injection H as <- <-. eexists k, v, _, _. split_and!; try done.
  by apply update_same_shapes.
Qed.

Lemma Attention_execute_ok kern a st nr_past len k v :
  Decode.ready a st →
  AttentionBase.token_len a st = Ok len →
  AttentionBase.m_kstorage a = Some k →
  AttentionBase.m_vstorage a = Some v →
  ∃ a' st', Execute.attention kern a st nr_past = Ok (a', st').
Proof.
  intros ((i & Hi & [x Hx]) & (o & Ho & _) & Hw) Hlen Hk Hv.
  unfold Execute.attention. rewrite Hlen. cbn.
  rewrite (at_Ok _ _ _ Hi). cbn. rewrite (at_Ok _ _ _ Hx). cbn.
  destruct (views_ready _ _ Hw) as [ws ->]. cbn. rewrite Hk, Hv. cbn.
  rewrite (at_Ok _ _ _ Ho). cbn. by eexists _, _.
Qed.

Lemma Attention_end_execute_spec a st :
  AttentionBase.end_execute a st =
  (len ← AttentionBase.token_len a st;
   k ← deref (AttentionBase.m_kstorage a);
   v ← deref (AttentionBase.m_vstorage a);
   Ok (AttentionBase.set_storage
         (Some (KvStorage.recall_data (KvStorage.add_id len k)))
         (Some (KvStorage.recall_data (KvStorage.add_id len v))) a,
       update_all Tensor.decrease_curr_user_count
         (OpBase.inputs (AttentionBase.base a))
         (update_all Tensor.recall_data
            (OpBase.weights (AttentionBase.base a)) st))).
Proof.
  unfold AttentionBase.end_execute.
  rewrite (token_len_same_shapes a st).
  - destruct (AttentionBase.token_len a st); [cbn|done..].
    destruct (AttentionBase.m_kstorage a); [cbn|done].
    by destruct (AttentionBase.m_vstorage a).
  - eapply same_shapes_trans.
    + apply (update_all_same_shapes Tensor.recall_data), recall_shape.
    + apply update_all_same_shapes, decrease_shape.
Qed.

Lemma Attention_end_execute_same_shapes a st a' st' :
  AttentionBase.end_execute a st = Ok (a', st') → same_shapes st st'.
Proof.
  rewrite Attention_end_execute_spec. intros H.
  destruct (AttentionBase.token_len a st); [cbn in H|done..].
  destruct (AttentionBase.m_kstorage a); [cbn in H|done].
  destruct (AttentionBase.m_vstorage a); [cbn in H|done].
  injection H as <- <-.
  eapply same_shapes_trans.
  - apply (update_all_same_shapes Tensor.recall_data), recall_shape.
  - apply update_all_same_shapes, decrease_shape.
Qed.

Lemma same_shapes_length st st' : same_shapes st st' → length st' = length st.
Proof.
  intros H.
  destruct (Nat.lt_trichotomy (length st') (length st)) as [Hlt|[Heq|Hlt]];
    [|done|].
  - apply lookup_lt_is_Some in Hlt.
    apply (same_shapes_is_Some _ _ _ H), lookup_lt_is_Some in Hlt. lia.
  - apply lookup_lt_is_Some in Hlt.
    apply (same_shapes_is_Some _ _ _ H), lookup_lt_is_Some in Hlt. lia.
Qed.

Lemma ready_length a a' st st' :
  AttentionBase.base a' = AttentionBase.base a → length st' = length st →
  Decode.ready a st → Decode.ready a' st'.
Proof.
  intros Hb Hl ((i & Hi & Hsi) & (o & Ho & Hso) & Hw).
  unfold Decode.ready. rewrite Hb. split_and!.
  - exists i. split; [done|].
    apply lookup_lt_is_Some. apply lookup_lt_is_Some in Hsi. lia.
  - exists o. split; [done|].
    apply lookup_lt_is_Some. apply lookup_lt_is_Some in Hso. lia.
  - eapply Forall_impl; [exact Hw|]. intros w Hsw.
    apply lookup_lt_is_Some. apply lookup_lt_is_Some in Hsw. lia.
Qed.

Lemma OpBase_pre_output_shape x :
  Tensor.shape (OpBase.pre_execute_output x) = Tensor.shape x.
Proof.
  unfold OpBase.pre_execute_output. by destruct (_ && _).
Qed.

Lemma feed_length b a i st : length (Decode.feed b a i st) = length st.
Proof. unfold Decode.feed. by rewrite !update_length. Qed.

Lemma feed_shape b a i st :
  Tensor.shape <$> Decode.feed b a i st !! i =
  (fun _ => [b; AttentionBase.m_embd a]) <$> st !! i.
Proof.
  unfold Decode.feed. rewrite !update_lookup.
  destruct (st !! i); cbn; [|done]. by rewrite OpBase_pre_output_shape.
Qed.

Lemma token_len_fed a st i b len :
  OpBase.inputs (AttentionBase.base a) !! 0%nat = Some i →
  AttentionBase.token_len a (Decode.feed b a i st) = Ok len →
  len = b.
Proof.
  intros Hi. unfold AttentionBase.token_len.
  rewrite (at_Ok _ _ _ Hi). cbn. unfold at_.
  pose proof (feed_shape b a i st) as Hs.
  destruct (Decode.feed b a i st !! i) as [x|]; [|done].
  destruct (st !! i); [|done]. cbn in Hs. injection Hs as Hs.
  cbn. rewrite Hs. cbn. by intros [= <-].
Qed.

Lemma token_len_feed a st i b :
  OpBase.inputs (AttentionBase.base a) !! 0%nat = Some i →
  is_Some (st !! i) →
  AttentionBase.token_len a (Decode.feed b a i st) = Ok b.
Proof.
  intros Hi [y Hy]. unfold AttentionBase.token_len.
  rewrite (at_Ok _ _ _ Hi). cbn. unfold at_.
  pose proof (feed_shape b a i st) as Hs. rewrite Hy in Hs.
  destruct (Decode.feed b a i st !! i) as [x|]; [|done].
  cbn in Hs. injection Hs as Hs. cbn. by rewrite Hs.
Qed.

Lemma token_len_set_storage k v a st :
  AttentionBase.token_len (AttentionBase.set_storage k v a) st =
  AttentionBase.token_len a st.
Proof. reflexivity. Qed.

(** What one call does to the operator: the arena keeps its size, the
    operator its wiring and capacity, and both caches grow by [b]. *)
Lemma Decode_call_inv kern b nr_past a st a' st' :
  Decode.call kern b nr_past a st = Ok (a', st') →
  ∃ k v k' v',
    AttentionBase.m_kstorage a = Some k ∧
    AttentionBase.m_vstorage a = Some v ∧
    AttentionBase.m_kstorage a' = Some k' ∧
    AttentionBase.m_vstorage a' = Some v' ∧
    KvStorage.curr_id k' = KvStorage.curr_id k + b ∧
    KvStorage.curr_id v' = KvStorage.curr_id v + b ∧
    KvStorage.total_id k' = KvStorage.total_id k ∧
    KvStorage.total_id v' = KvStorage.total_id v ∧
    AttentionBase.base a' = AttentionBase.base a ∧
    length st' = length st.
Proof.
  unfold Decode.call. intros H.
  destruct (at_ (OpBase.inputs (AttentionBase.base a)) 0) as [i| |] eqn:Hi;
    [cbn in H|done..].
  apply at_Ok_inv in Hi.
  destruct (AttentionBase.pre_execute a _) as [[a1 st1]| |] eqn:H1;
    [cbn in H|done..].
  destruct (Execute.attention kern a1 st1 nr_past) as [[a2 st2]| |] eqn:H2;
    [cbn in H|done..].
  apply Attention_pre_execute_inv in H1
    as (len & k & v & Hlen & Hk & Hv & -> & Hs1).
  apply (token_len_fed _ _ _ _ _ Hi) in Hlen as ->.
  apply Attention_execute_inv in H2
    as (k1 & v1 & rk & rv & Hk1 & Hv1 & -> & Hs2).
  cbn in Hk1, Hv1. injection Hk1 as <-. injection Hv1 as <-.
  pose proof (Attention_end_execute_same_shapes _ _ _ _ H) as Hs3.
  rewrite Attention_end_execute_spec in H.
  rewrite !token_len_set_storage in H.
  rewrite (token_len_same_shapes a _ _ Hs2) in H.
  rewrite (token_len_same_shapes a _ _ Hs1) in H.
  assert (Hb : AttentionBase.token_len a (Decode.feed b a i st) = Ok b).
  { destruct (AttentionBase.token_len a _) as [len| |] eqn:E in H;
      [|done..].
    by rewrite E, (token_len_fed _ _ _ _ _ Hi E). }
  rewrite Hb in H. cbn in H. injection H as Ha Hst. subst a' st'.
  exists k, v. eexists _, _. split_and!; try done.
  rewrite (same_shapes_length _ _ Hs3), (same_shapes_length _ _ Hs2),
    (same_shapes_length _ _ Hs1). apply feed_length.
Qed.

Lemma Decode_call_ok kern b nr_past a st k v :
  Decode.ready a st →
  AttentionBase.m_kstorage a = Some k →
  AttentionBase.m_vstorage a = Some v →
  KvStorage.curr_id k + b ≤ KvStorage.total_id k →
  KvStorage.curr_id v + b ≤ KvStorage.total_id v →
  ∃ a' st', Decode.call kern b nr_past a st = Ok (a', st').
Proof.
  intros Hr Hk Hv Hkc Hvc. unfold Decode.call.
  pose proof Hr as ((i & Hi & Hsi) & _).
  rewrite (at_Ok _ _ _ Hi). cbn.
  set (st0 := Decode.feed b a i st).
  assert (Hr0 : Decode.ready a st0)
    by (by apply (ready_length a a st); [|apply feed_length|]).
  assert (Hlen : AttentionBase.token_len a st0 = Ok b)
    by (by apply token_len_feed).
  destruct (Attention_pre_execute_ok a st0 b k v Hr0 Hlen Hk Hv Hkc Hvc)
    as [st1 H1].
  rewrite H1. cbn.
  apply Attention_pre_execute_inv in H1 as H1'.
  destruct H1' as (len' & k' & v' & _ & _ & _ & _ & Hs1).
  match goal with
  | |- ∃ _ _, mbind _ (Execute.attention _ ?a1 _ _) = _ =>
      destruct (Attention_execute_ok kern a1 st1 nr_past b
                  (KvStorage.set_prepared b k) (KvStorage.set_prepared b v))
        as (a2 & st2 & H2);
        [apply (ready_length a _ st0);
           [done|apply (same_shapes_length _ _ Hs1)|done]
        |rewrite token_len_set_storage, <- Hlen;
           by apply token_len_same_shapes
        |done|done|]
  end.
  rewrite H2. cbn.
  apply Attention_execute_inv in H2 as H2'.
  destruct H2' as (k1 & v1 & rk & rv & Hk1 & Hv1 & -> & Hs2).
  rewrite Attention_end_execute_spec.
  rewrite !token_len_set_storage.
  rewrite (token_len_same_shapes a _ _ Hs2).
  rewrite (token_len_same_shapes a _ _ Hs1), Hlen. cbn. by eexists _, _.
Qed.

Lemma total_cons b bs : total (b :: bs) = b + total bs.
Proof. reflexivity. Qed.

Lemma total_nonneg bs : Forall (fun b => 0 ≤ b) bs → 0 ≤ total bs.
Proof. induction 1; [done|]. rewrite total_cons. lia. Qed.

Lemma Decode_calls_inv kern bs : ∀ nr_past a st a' st' lk lv,
  Decode.calls kern bs nr_past a st = Ok (a', st') →
  Decode.cache_lengths a = Some (lk, lv) →
  Decode.cache_lengths a' = Some (lk + total bs, lv + total bs).
Proof.
  induction bs as [|b bs IH]; intros nr_past a st a' st' lk lv H Hl.
  - cbn in H. injection H as <- <-. cbn. by rewrite !Z.add_0_r.
  - cbn in H.
    destruct (Decode.call kern b nr_past a st) as [[a1 st1]| |] eqn:H1;
      [cbn in H|done..].
    apply Decode_call_inv in H1
      as (k & v & k' & v' & Hk & Hv & Hk' & Hv' & Hck & Hcv & _).
    unfold Decode.cache_lengths in Hl. rewrite Hk, Hv in Hl. cbn in Hl.
    injection Hl as <- <-.
    rewrite (IH _ _ _ _ _ (KvStorage.curr_id k') (KvStorage.curr_id v') H).
    + by rewrite total_cons, Hck, Hcv, !Z.add_assoc.
    + unfold Decode.cache_lengths. by rewrite Hk', Hv'.
Qed.

Lemma Decode_calls_ok kern bs : ∀ nr_past a st k v,
  Decode.ready a st →
  AttentionBase.m_kstorage a = Some k →
  AttentionBase.m_vstorage a = Some v →
  Forall (fun b => 0 ≤ b) bs →
  KvStorage.curr_id k + total bs ≤ KvStorage.total_id k →
  KvStorage.curr_id v + total bs ≤ KvStorage.total_id v →
  ∃ a' st', Decode.calls kern bs nr_past a st = Ok (a', st').
Proof.
  induction bs as [|b bs IH]; intros nr_past a st k v Hr Hk Hv Hpos Hkc Hvc.
  - by eexists _, _.
  - inversion Hpos as [|? ? Hb Hbs]; subst. rewrite total_cons in Hkc, Hvc.
    pose proof (total_nonneg bs Hbs) as Htot.
    destruct (Decode_call_ok kern b nr_past a st k v Hr Hk Hv)
      as (a1 & st1 & H1); [lia..|].
    cbn. rewrite H1. cbn.
    apply Decode_call_inv in H1
      as (k0 & v0 & k' & v' & Hk0 & Hv0 & Hk' & Hv' & Hck & Hcv & Htk & Htv &
          Hbase & Hlen).
    assert (k0 = k) as -> by congruence.
    assert (v0 = v) as -> by congruence.
    apply (IH _ a1 st1 k' v'); try done; [|lia..].
    by apply (ready_length a _ st).
Qed.

(** C1. The cache lengths change in [end_execute] only: [pre_execute] and
    [execute] keep both, [end_execute] adds the leading dimension of the
    first input to both.  Hence any completed run of calls with batches
    [bs] adds their sum to both lengths, and after a reset a run within the
    capacity completes with both lengths equal to the sum. *)
Theorem Attention_cache_length_is_sum :
  (∀ a st a' st',
     AttentionBase.pre_execute a st = Ok (a', st') →
     Decode.cache_lengths a' = Decode.cache_lengths a) ∧
  (∀ kern a st nr_past a' st',
     Execute.attention kern a st nr_past = Ok (a', st') →
     Decode.cache_lengths a' = Decode.cache_lengths a) ∧
  (∀ a st a' st',
     AttentionBase.end_execute a st = Ok (a', st') →
     ∃ len lk lv,
       AttentionBase.token_len a st = Ok len ∧
       Decode.cache_lengths a = Some (lk, lv) ∧
       Decode.cache_lengths a' = Some (lk + len, lv + len)) ∧
  (∀ kern bs nr_past a st a' st' lk lv,
     Decode.calls kern bs nr_past a st = Ok (a', st') →
     Decode.cache_lengths a = Some (lk, lv) →
     Decode.cache_lengths a' = Some (lk + total bs, lv + total bs)) ∧
  (∀ kern bs nr_past a0 a st k v,
     Decode.ready a0 st →
     AttentionBase.reset_ctx a0 = Ok a →
     AttentionBase.m_kstorage a = Some k →
     AttentionBase.m_vstorage a = Some v →
     Forall (fun b => 0 ≤ b) bs →
     total bs ≤ KvStorage.total_id k → total bs ≤ KvStorage.total_id v →
     ∃ a' st',
       Decode.calls kern bs nr_past a st = Ok (a', st') ∧
       Decode.cache_lengths a' = Some (total bs, total bs)).
Proof.
  split_and!.
  - intros a st a' st' H.
    apply Attention_pre_execute_inv in H as (len & k & v & _ & Hk & Hv & -> & _).
    unfold Decode.cache_lengths. cbn. by rewrite Hk, Hv.
  - intros kern a st nr_past a' st' H.
    apply Attention_execute_inv in H as (k & v & rk & rv & Hk & Hv & -> & _).
    unfold Decode.cache_lengths. cbn. by rewrite Hk, Hv.
  - intros a st a' st' H. rewrite Attention_end_execute_spec in H.
    destruct (AttentionBase.token_len a st) as [len| |]; [cbn in H|done..].
    destruct (AttentionBase.m_kstorage a) as [k|] eqn:Hk; [cbn in H|done].
    destruct (AttentionBase.m_vstorage a) as [v|] eqn:Hv; [cbn in H|done].
    injection H as <- _.
    exists len, (KvStorage.curr_id k), (KvStorage.curr_id v).
    unfold Decode.cache_lengths. by rewrite Hk, Hv.
  - intros kern bs nr_past a st a' st' lk lv. apply Decode_calls_inv.
  - intros kern bs nr_past a0 a st k v Hr Hreset Hk Hv Hpos Hkc Hvc.
    unfold AttentionBase.reset_ctx in Hreset.
    destruct (AttentionBase.m_kstorage a0) as [k0|]; [cbn in Hreset|done].
    destruct (AttentionBase.m_vstorage a0) as [v0|]; [cbn in Hreset|done].
    injection Hreset as <-. cbn in Hk, Hv.
    injection Hk as <-. injection Hv as <-. cbn in Hkc, Hvc.
    match goal with
    | |- ∃ _ _, Decode.calls _ _ _ ?a _ = _ ∧ _ =>
        destruct (Decode_calls_ok kern bs nr_past a st
                    (KvStorage.reset_id k0) (KvStorage.reset_id v0))
          as (a' & st' & H); [by apply (ready_length a0 _ st)|done..|]
    end.
    exists a', st'. split; [done|].
    by rewrite (Decode_calls_inv _ _ _ _ _ _ _ 0 0 H).
Qed.

Lemma Attention_cache_length_is_sum_witness :
  ∃ m st a mm ar,
    llama_block = Ok (m, st) ∧
    OprModuleBase.m_oprs m = [AttentionOp a; MatMulOp mm] ∧
    AttentionBase.reset_ctx a = Ok ar ∧
    ∃ a' st',
      Decode.calls null_kernel [3; 1; 2] 0 ar st = Ok (a', st') ∧
      Decode.cache_lengths a' = Some (6, 6).
Proof.
  eexists _, _, _, _, _. split; [vm_compute; reflexivity|].
  split; [reflexivity|].
  match goal with
  | |- AttentionBase.reset_ctx ?a = _ ∧ _ =>
      split; [vm_compute; reflexivity|];
      match goal with
      | |- ∃ _ _, Decode.calls ?kern ?bs ?n ?ar ?st = _ ∧ _ =>
          eapply (proj2 (proj2 (proj2 (proj2 Attention_cache_length_is_sum)))
                    kern bs n a ar st)
      end
  end.
  - split_and!.
    + exists 0%nat. split; [reflexivity|]. by eexists.
    + exists 1%nat. split; [reflexivity|]. by eexists.
    + repeat first
        [apply List.Forall_nil | apply List.Forall_cons; [by eexists|]].
  - reflexivity.
  - reflexivity.
  - reflexivity.
  - repeat first [apply List.Forall_nil | apply List.Forall_cons; [lia|]].
  - by vm_compute.
  - by vm_compute.
Defined.

(** ** Resetting the context *)

Lemma write_rows_valid_from_0 buf new n :
  length new = n → take (0 + n) (write_rows buf 0 new) = new.
Proof.
  intros <-. unfold write_rows. rewrite take_0. cbn [app Nat.add].
  by rewrite take_app_length.
Qed.

Lemma reset_ctx_inv a a' :
  AttentionBase.reset_ctx a = Ok a' →
  ∃ k v,
    AttentionBase.m_kstorage a = Some k ∧
    AttentionBase.m_vstorage a = Some v ∧
    a' = AttentionBase.set_storage (Some (KvStorage.reset_id k))
           (Some (KvStorage.reset_id v)) a.
Proof.
  unfold AttentionBase.reset_ctx. intros H.
  destruct (AttentionBase.m_kstorage a) as [k|]; [cbn in H|done].
  destruct (AttentionBase.m_vstorage a) as [v|]; [cbn in H|done].
  injection H as <-. by exists k, v.
Qed.

(** With empty caches the output depends on the operator's configuration,
    the weights and the input only: whatever rows the buffers hold, they
    are overwritten before they are read. *)
Lemma Execute_attention_from_empty kern nr_past a st k v i x len rest ws o :
  AttentionBase.m_kstorage a = Some k →
  AttentionBase.m_vstorage a = Some v →
  KvStorage.curr_id k = 0 → KvStorage.curr_id v = 0 →
  OpBase.inputs (AttentionBase.base a) !! 0%nat = Some i →
  st !! i = Some x → Tensor.shape x = len :: rest →
  views st (OpBase.weights (AttentionBase.base a)) = Ok ws →
  OpBase.outputs (AttentionBase.base a) !! 0%nat = Some o →
  ∃ a' st',
    Execute.attention kern a st nr_past = Ok (a', st') ∧
    st' =
      update
        (Tensor.set_data
           (attend kern (AttentionBase.set_storage None None a) ws (view x)
              nr_past
              (map (project_k kern (AttentionBase.set_storage None None a)
                      ws (view x) nr_past) (seq 0 (Z.to_nat len)))
              (map (project_v kern (AttentionBase.set_storage None None a)
                      ws (view x) nr_past) (seq 0 (Z.to_nat len)))))
        o st.
Proof.
  intros Hk Hv Hkc Hvc Hi Hx Hs Hws Ho. unfold Execute.attention.
  unfold AttentionBase.token_len.
  rewrite (at_Ok _ _ _ Hi). cbn. rewrite (at_Ok _ _ _ Hx). cbn.
  rewrite Hs. cbn. rewrite Hws. cbn. rewrite Hk, Hv. cbn.
  rewrite (at_Ok _ _ _ Ho). cbn. rewrite Hkc, Hvc.
  change (Z.to_nat 0) with 0%nat.
  rewrite !write_rows_valid_from_0 by (by rewrite length_map, length_seq).
  by eexists _, _.
Qed.

(** C2. [reset_ctx] sets the logical length of both caches to zero and
    leaves every other field of the operator and of both caches as it was
    (the arena of tensors is not even an argument); an attention module
    forwards it to its attention operator.  After the reset, [execute]
    writes the same output as on a fresh operator of the same
    configuration, given the same input and weights, whatever rows the
    cache buffers still hold and whatever [nr_past] (0 in particular). *)
Theorem reset_ctx_restores_fresh :
  (∀ a a',
     AttentionBase.reset_ctx a = Ok a' →
     Decode.cache_lengths a' = Some (0, 0) ∧
     AttentionBase.set_storage None None a' =
       AttentionBase.set_storage None None a ∧
     ∃ k v,
       AttentionBase.m_kstorage a = Some k ∧
       AttentionBase.m_vstorage a = Some v ∧
       AttentionBase.m_kstorage a' = Some (KvStorage.set_curr_id 0 k) ∧
       AttentionBase.m_vstorage a' = Some (KvStorage.set_curr_id 0 v) ∧
       KvStorage.rows (KvStorage.set_curr_id 0 k) = KvStorage.rows k ∧
       KvStorage.rows (KvStorage.set_curr_id 0 v) = KvStorage.rows v ∧
       KvStorage.total_id (KvStorage.set_curr_id 0 k) = KvStorage.total_id k ∧
       KvStorage.total_id (KvStorage.set_curr_id 0 v) = KvStorage.total_id v) ∧
  (∀ m m',
     OprModuleBase.m_kind m = OprModuleBase.AttentionModule →
     OprModuleBase.reset_ctx m = Ok m' →
     ∃ a a' rest,
       OprModuleBase.m_oprs m = AttentionOp a :: rest ∧
       AttentionBase.reset_ctx a = Ok a' ∧
       OprModuleBase.m_oprs m' = AttentionOp a' :: rest) ∧
  (∀ kern nr_past a ar a0 st st0 i x x0 len rest ws o,
     AttentionBase.reset_ctx a = Ok ar →
     AttentionBase.set_storage None None a0 =
       AttentionBase.set_storage None None a →
     Decode.cache_lengths a0 = Some (0, 0) →
     OpBase.inputs (AttentionBase.base a) !! 0%nat = Some i →
     st !! i = Some x → st0 !! i = Some x0 → view x0 = view x →
     Tensor.shape x = len :: rest →
     views st (OpBase.weights (AttentionBase.base a)) = Ok ws →
     views st0 (OpBase.weights (AttentionBase.base a)) = Ok ws →
     OpBase.outputs (AttentionBase.base a) !! 0%nat = Some o →
     is_Some (st !! o) → is_Some (st0 !! o) →
     ∃ a1 st1 a2 st2,
       Execute.attention kern ar st nr_past = Ok (a1, st1) ∧
       Execute.attention kern a0 st0 nr_past = Ok (a2, st2) ∧
       Tensor.data <$> st1 !! o = Tensor.data <$> st2 !! o ∧
       (st0 = st → st1 = st2)).
Proof.
  split_and!.
  - intros a a' (k & v & Hk & Hv & ->)%reset_ctx_inv. split_and!; try done.
    by exists k, v.
  - intros m m' Hkind H. unfold OprModuleBase.reset_ctx in H. rewrite Hkind in H.
    unfold at_ in H.
    destruct (OprModuleBase.m_oprs m) as [|[b|mm|mm|r|a|e] rest] eqn:Hops;
      try done.
    cbn in H.
    destruct (AttentionBase.reset_ctx a) as [a'| |] eqn:Ha; [cbn in H|done..].
    injection H as <-. by exists a, a', rest.
  - intros kern nr_past a ar a0 st st0 i x x0 len rest ws o
      (k & v & Hk & Hv & ->)%reset_ctx_inv Hcfg Hfresh Hi Hx Hx0 Hview Hs
      Hws Hws0 Ho [y Hy] [y0 Hy0].
    assert (Hbase : AttentionBase.base a0 = AttentionBase.base a)
      by exact (f_equal AttentionBase.base Hcfg).
    unfold Decode.cache_lengths in Hfresh.
    destruct (AttentionBase.m_kstorage a0) as [k0|] eqn:Hk0;
      [cbn in Hfresh|done].
    destruct (AttentionBase.m_vstorage a0) as [v0|] eqn:Hv0;
      [cbn in Hfresh|done].
    injection Hfresh as Hkc0 Hvc0.
    assert (Hs0 : Tensor.shape x0 = len :: rest).
    { rewrite <- Hs. unfold view in Hview. congruence. }
    destruct (Execute_attention_from_empty kern nr_past
                (AttentionBase.set_storage (Some (KvStorage.reset_id k))
                   (Some (KvStorage.reset_id v)) a)
                st (KvStorage.reset_id k) (KvStorage.reset_id v)
                i x len rest ws o) as (a1 & st1 & H1 & ->); try done.
    destruct (Execute_attention_from_empty kern nr_past a0 st0 k0 v0
                i x0 len rest ws o) as (a2 & st2 & H2 & ->);
      try done; try (by rewrite Hbase).
    eexists a1, _, a2, _. split_and!; try done.
    + rewrite Hcfg, Hview. by rewrite !update_lookup, Hy, Hy0.
    + intros ->. by rewrite Hcfg, Hview.
Qed.

Lemma reset_ctx_restores_fresh_witness :
  ∃ a0 st0 a st ar,
    fresh_attention = Ok (a0, st0) ∧ used_attention = Ok (a, st) ∧
    Decode.cache_lengths a = Some (5, 5) ∧
    AttentionBase.reset_ctx a = Ok ar ∧
    Decode.cache_lengths ar = Some (0, 0) ∧
    ∃ a1 st1 a2 st2,
      Execute.attention probe_kernel ar st 0 = Ok (a1, st1) ∧
      Execute.attention probe_kernel a0 st 0 = Ok (a2, st2) ∧
      st1 = st2.
Proof.
  eexists _, _, _, _, _.
  split; [vm_compute; reflexivity|]. split; [vm_compute; reflexivity|].
  split; [reflexivity|].
  pose proof reset_ctx_restores_fresh as (Hreset & _ & Hsame).
  match goal with
  | |- AttentionBase.reset_ctx ?a = Ok _ ∧ _ => pose (au := a)
  end.
  split; [vm_compute; reflexivity|].
  match goal with
  | |- Decode.cache_lengths ?ar = _ ∧
       ∃ _ _ _ _, _ ∧ Execute.attention ?kern ?a0 ?st ?n = _ ∧ _ =>
      split;
      [ exact (proj1 (Hreset au ar eq_refl))
      | destruct (Hsame kern n au ar a0 st st 0%nat _ _ 2 [16] _ 1%nat
                    eq_refl eq_refl eq_refl eq_refl eq_refl eq_refl eq_refl
                    eq_refl eq_refl eq_refl eq_refl
                    ltac:(by eexists) ltac:(by eexists))
          as (a1 & st1 & a2 & st2 & H1 & H2 & _ & Heq);
        exists a1, st1, a2, st2; split_and!;
          [exact H1|exact H2|by apply Heq] ]
  end.
Defined.

(** ** Pending consumers over a pass *)

Lemma bind_Ok_inv {A B} (f : A → res B) (r : res A) b :
  r ≫= f = Ok b → ∃ a, r = Ok a ∧ f a = Ok b.
Proof. destruct r as [a| |]; [|done..]. intros H. by exists a. Qed.

Lemma same_on_refl {B} (P : Tensor.t → B) st : Wiring.same_on P st st.
Proof. done. Qed.

Lemma same_on_trans {B} (P : Tensor.t → B) st1 st2 st3 :
  Wiring.same_on P st1 st2 → Wiring.same_on P st2 st3 →
  Wiring.same_on P st1 st3.
Proof. intros H1 H2 h. by rewrite H2, H1. Qed.

Lemma update_same_on {B} (P : Tensor.t → B) f h st :
  (∀ x, P (f x) = P x) → Wiring.same_on P st (update f h st).
Proof.
  intros Hf h'. destruct (decide (h = h')) as [->|Hne].
  - rewrite update_lookup. destruct (st !! h'); cbn; [|done]. by rewrite Hf.
  - by rewrite update_lookup_ne.
Qed.

Lemma update_all_same_on {B} (P : Tensor.t → B) f hs st :
  (∀ x, P (f x) = P x) → Wiring.same_on P st (update_all f hs st).
Proof. intros Hf h. by apply update_all_preserves. Qed.

Lemma same_on_counts_static st st' :
  Wiring.same_on Wiring.counts st st' → Wiring.same_on Wiring.static st st'.
Proof.
  intros H h. specialize (H h).
  destruct (st' !! h) as [x'|], (st !! h) as [x|]; cbn in *; try done.
  unfold Wiring.counts in H. unfold Wiring.static. by injection H as -> _ ->.
Qed.

Lemma same_on_counts_cur st st' :
  Wiring.same_on Wiring.counts st st' →
  Wiring.same_on Tensor.cur_count st st'.
Proof.
  intros H h. specialize (H h).
  destruct (st' !! h) as [x'|], (st !! h) as [x|]; cbn in *; try done.
  unfold Wiring.counts in H. by injection H as _ -> _.
Qed.

(** Shape inference writes shapes and element types only. *)
Lemma deduce_output_shape_counts op st st' :
  Operator.deduce_output_shape op st = Ok st' →
  Wiring.same_on Wiring.counts st st'.
Proof.
  intros H.
  assert (∃ s d o, st' = update (Tensor.set_shape s d) o st) as (s & d & o & ->).
  { destruct op as [b|m|m|r|a|e]; cbn in H.
    - unfold OpBase.deduce_output_shape in H.
      repeat (apply bind_Ok_inv in H as (? & _ & H)).
      injection H as <-. by eexists _, _, _.
    - unfold MatMul.deduce_output_shape in H.
      repeat (apply bind_Ok_inv in H as (? & _ & H)).
      injection H as <-. by eexists _, _, _.
    - unfold MatMulLast.deduce_output_shape in H.
      repeat (apply bind_Ok_inv in H as (? & _ & H)).
      injection H as <-. by eexists _, _, _.
    - unfold Reshape.deduce_output_shape in H.
      repeat (apply bind_Ok_inv in H as (? & _ & H)).
      injection H as <-. by eexists _, _, _.
    - unfold OpBase.deduce_output_shape in H.
      repeat (apply bind_Ok_inv in H as (? & _ & H)).
      injection H as <-. by eexists _, _, _.
    - unfold Embedding.deduce_output_shape in H.
      repeat (apply bind_Ok_inv in H as (? & _ & H)).
      injection H as <-. by eexists _, _, _. }
  by apply update_same_on.
Qed.

Lemma deduce_ops_counts ops : ∀ st st',
  OprModuleBase.deduce_ops ops st = Ok st' →
  Wiring.same_on Wiring.counts st st'.
Proof.
  induction ops as [|op ops IH]; intros st st' H; cbn in H.
  - injection H as <-. apply same_on_refl.
  - apply bind_Ok_inv in H as (st1 & H1 & H).
    eapply same_on_trans; [by eapply deduce_output_shape_counts|by apply IH].
Qed.

Lemma deduce_modules_counts ms : ∀ st st',
  Graph.deduce_modules ms st = Ok st' →
  Wiring.same_on Wiring.counts st st'.
Proof.
  induction ms as [|m ms IH]; intros st st' H; cbn in H.
  - injection H as <-. apply same_on_refl.
  - apply bind_Ok_inv in H as (st1 & H1 & H).
    eapply same_on_trans; [by eapply deduce_ops_counts|by apply IH].
Qed.

(** The start of a pass resumes the graph input and nothing else. *)
Lemma begin_pass_counts in_token g st st1 :
  Graph.begin_pass in_token g st = Ok st1 →
  Wiring.same_on Wiring.static st st1 ∧
  ∀ h, Tensor.cur_count <$> st1 !! h =
       (fun x => if decide (h = Graph.m_input g)
                 then Tensor.usr_count x else Tensor.cur_count x) <$> st !! h.
Proof.
  unfold Graph.begin_pass. intros H.
  apply bind_Ok_inv in H as (st0 & H0 & H). injection H as <-.
  apply deduce_modules_counts in H0.
  assert (Hc : Wiring.same_on Wiring.counts st st0).
  { eapply same_on_trans; [|exact H0].
    eapply same_on_trans; by apply update_same_on. }
  split.
  - eapply same_on_trans; [by apply same_on_counts_static|].
    eapply same_on_trans; by apply update_same_on.
  - intros h. specialize (Hc h).
    rewrite (update_same_on Tensor.cur_count Tensor.prepare_data) by done.
    destruct (decide (h = Graph.m_input g)) as [->|Hne].
    + rewrite update_lookup.
      destruct (st0 !! _) as [x0|], (st !! _) as [x|]; cbn in *; try done.
      unfold Wiring.counts in Hc. by injection Hc as -> _ _.
    + rewrite update_lookup_ne by done.
      destruct (st0 !! _) as [x0|], (st !! _) as [x|]; cbn in *; try done.
      unfold Wiring.counts in Hc. by injection Hc as _ -> _.
Qed.

Lemma decrease_static x :
  Wiring.static (Tensor.decrease_curr_user_count x) = Wiring.static x.
Proof.
  unfold Tensor.decrease_curr_user_count, Tensor.recall_data.
  destruct x as [? ? ? ? ? ? [] ? ?]; cbn; by case_bool_decide.
Qed.

Lemma decrease_cur x :
  Tensor.cur_count (Tensor.decrease_curr_user_count x) =
  Tensor.cur_count x - 1.
Proof.
  unfold Tensor.decrease_curr_user_count, Tensor.recall_data.
  destruct x as [? ? ? ? ? ? [] ? ?]; cbn; by case_bool_decide.
Qed.

Lemma iter_decrease_cur n x :
  Tensor.cur_count (Nat.iter n Tensor.decrease_curr_user_count x) =
  Tensor.cur_count x - Z.of_nat n.
Proof.
  induction n as [|n IH]; [cbn; lia|].
  rewrite Nat.iter_succ, decrease_cur, IH. lia.
Qed.

Lemma iter_decrease_static n x :
  Wiring.static (Nat.iter n Tensor.decrease_curr_user_count x) =
  Wiring.static x.
Proof.
  induction n as [|n IH]; [done|].
  by rewrite Nat.iter_succ, decrease_static.
Qed.

Lemma recall_counts x : Wiring.counts (Tensor.recall_data x) = Wiring.counts x.
Proof. unfold Tensor.recall_data. by destruct (Tensor.shared x). Qed.

Lemma OpBase_pre_output_static x :
  Wiring.static (OpBase.pre_execute_output x) = Wiring.static x.
Proof. unfold OpBase.pre_execute_output. by destruct (_ && _). Qed.

Lemma Attention_pre_output_static x :
  Wiring.static (AttentionBase.pre_execute_output x) = Wiring.static x.
Proof. unfold AttentionBase.pre_execute_output. by case_bool_decide. Qed.

(** The pending count a producer's [pre_execute] leaves depends on the
    counts of the tensor only. *)
Lemma OpBase_pre_output_cur x y :
  Wiring.counts x = Wiring.counts y →
  Tensor.cur_count (OpBase.pre_execute_output x) =
  Tensor.cur_count (OpBase.pre_execute_output y).
Proof.
  unfold Wiring.counts, OpBase.pre_execute_output,
    Tensor.get_curr_user_count.
  intros [= Hu Hc Hs]. rewrite Hc, Hs. destruct (_ && _); cbn; congruence.
Qed.

Lemma Attention_pre_output_cur x y :
  Wiring.counts x = Wiring.counts y →
  Tensor.cur_count (AttentionBase.pre_execute_output x) =
  Tensor.cur_count (AttentionBase.pre_execute_output y).
Proof.
  unfold Wiring.counts, AttentionBase.pre_execute_output,
    Tensor.get_curr_user_count.
  intros [= Hu Hc Hs]. rewrite Hc. case_bool_decide; cbn; congruence.
Qed.

(** [pre_execute] of any operator: the wiring is kept, the static fields
    are kept, and the pending counts are those of [cur_after_pre]. *)
Lemma Operator_pre_execute_counts op st op' st' :
  Operator.pre_execute op st = Ok (op', st') →
  Operator.base op' = Operator.base op ∧
  Wiring.same_on Wiring.static st st' ∧
  ∀ h, Tensor.cur_count <$> st' !! h = Wiring.cur_after_pre op h <$> st !! h.
Proof.
  intros H.
  assert (Hplain : ∀ b,
            Wiring.same_on Wiring.static st (OpBase.pre_execute b st) ∧
            ∀ h, Tensor.cur_count <$> OpBase.pre_execute b st !! h =
                 (fun x => if decide (h ∈ OpBase.outputs b)
                           then Tensor.cur_count (OpBase.pre_execute_output x)
                           else Tensor.cur_count x) <$> st !! h).
  { intros b. unfold OpBase.pre_execute. split.
    - eapply same_on_trans.
      + by apply (update_all_same_on _ Tensor.prepare_data).
      + apply update_all_same_on, OpBase_pre_output_static.
    - intros h.
      rewrite (update_all_lookup_idem _ _ _ _ OpBase_pre_execute_output_idem).
      pose proof (update_all_same_on Wiring.counts Tensor.prepare_data
                    (OpBase.weights b) st (fun _ => eq_refl) h) as Hw.
      destruct (update_all Tensor.prepare_data _ st !! h) as [y|],
        (st !! h) as [x|]; cbn in Hw; try done;
        [|by destruct (decide _)].
      injection Hw as Hu Hc Hs.
      destruct (decide _); cbn; f_equal; [|done].
      apply OpBase_pre_output_cur. unfold Wiring.counts. congruence. }
  destruct op as [b|m|m|r|a|e]; cbn in H;
    try (injection H as <- <-; split; [done|]; apply Hplain).
  apply bind_Ok_inv in H as ([a1 st1] & H1 & H). injection H as <- <-.
  split.
  { apply Attention_pre_execute_inv in H1 as (? & ? & ? & _ & _ & _ & -> & _).
    done. }
  unfold AttentionBase.pre_execute in H1.
  apply bind_Ok_inv in H1 as (len & _ & H1).
  apply bind_Ok_inv in H1 as (o & Ho%at_Ok_inv & H1).
  apply bind_Ok_inv in H1 as (y & _ & H1).
  apply bind_Ok_inv in H1 as (k & _ & H1).
  apply bind_Ok_inv in H1 as (k' & _ & H1).
  apply bind_Ok_inv in H1 as (v & _ & H1).
  apply bind_Ok_inv in H1 as (v' & _ & H1).
  injection H1 as _ <-. split.
  - eapply same_on_trans.
    + by apply (update_all_same_on _ Tensor.prepare_data).
    + apply update_same_on, Attention_pre_output_static.
  - intros h. unfold Wiring.cur_after_pre, OpBase.outputs in *. rewrite Ho.
    pose proof (update_all_same_on Wiring.counts Tensor.prepare_data
                  (OpBase.weights (AttentionBase.base a)) st
                  (fun _ => eq_refl) h) as Hw.
    destruct (decide (Some o = Some h)) as [[= ->]|Hne].
    + rewrite update_lookup.
      destruct (update_all Tensor.prepare_data _ st !! h) as [z|],
        (st !! h) as [x|]; cbn in Hw; try done.
      injection Hw as Hu Hc Hs. cbn. f_equal.
      apply Attention_pre_output_cur. unfold Wiring.counts. congruence.
    + rewrite update_lookup_ne by congruence.
      destruct (update_all Tensor.prepare_data _ st !! h) as [z|],
        (st !! h) as [x|]; cbn in Hw; try done.
      injection Hw as Hu Hc Hs. cbn. by f_equal.
Qed.

(** [execute] writes data only. *)
Lemma Operator_execute_counts kern op st nr_past op' st' :
  Operator.execute kern op st nr_past = Ok (op', st') →
  Operator.base op' = Operator.base op ∧
  Wiring.same_on Wiring.counts st st'.
Proof.
  intros H.
  assert (Hplain : ∀ o b st1,
            Execute.plain kern o b st nr_past = Ok st1 →
            Wiring.same_on Wiring.counts st st1).
  { intros o b st1 H1. unfold Execute.plain in H1.
    repeat (apply bind_Ok_inv in H1 as (? & _ & H1)).
    injection H1 as <-. by apply update_same_on. }
  destruct op as [b|m|m|r|a|e]; cbn in H;
    try (apply bind_Ok_inv in H as (st1 & H1 & H); injection H as <- <-;
         split; [done|]; by eapply Hplain).
  apply bind_Ok_inv in H as ([a1 st1] & H1 & H). injection H as <- <-.
  unfold Execute.attention in H1.
  repeat (apply bind_Ok_inv in H1 as (? & _ & H1)).
  injection H1 as <- <-. split; [done|]. by apply update_same_on.
Qed.

(** [end_execute] takes one pending consumer off a tensor for each input
    slot of the operator that holds it. *)
Lemma Operator_end_execute_counts op st op' st' :
  Operator.end_execute op st = Ok (op', st') →
  Operator.base op' = Operator.base op ∧
  Wiring.same_on Wiring.static st st' ∧
  ∀ h, Tensor.cur_count <$> st' !! h =
       (fun x => Tensor.cur_count x -
                 Z.of_nat (count_occ Nat.eq_dec
                             (OpBase.inputs (Operator.base op)) h))
         <$> st !! h.
Proof.
  intros H.
  assert (Hdec : ∀ hs s,
            Wiring.same_on Wiring.static s
              (update_all Tensor.decrease_curr_user_count hs s) ∧
            ∀ h, Tensor.cur_count <$>
                   update_all Tensor.decrease_curr_user_count hs s !! h =
                 (fun x => Tensor.cur_count x -
                           Z.of_nat (count_occ Nat.eq_dec hs h)) <$> s !! h).
  { intros hs s. split.
    - apply update_all_same_on, decrease_static.
    - intros h. rewrite update_all_lookup.
      destruct (s !! h); cbn; [|done]. by rewrite iter_decrease_cur. }
  destruct op as [b|m|m|r|a|e]; cbn in H;
    try (injection H as <- <-; split; [done|]; apply Hdec).
  apply bind_Ok_inv in H as ([a1 st1] & H1 & H). injection H as <- <-.
  rewrite Attention_end_execute_spec in H1.
  repeat (apply bind_Ok_inv in H1 as (? & _ & H1)).
  injection H1 as <- <-. split; [done|].
  destruct (Hdec (OpBase.inputs (AttentionBase.base a))
              (update_all Tensor.recall_data
                 (OpBase.weights (AttentionBase.base a)) st)) as [Hs Hc].
  pose proof (update_all_same_on Wiring.counts Tensor.recall_data
                (OpBase.weights (AttentionBase.base a)) st recall_counts)
    as Hr.
  split.
  - eapply same_on_trans; [|exact Hs]. by apply same_on_counts_static.
  - intros h. rewrite Hc. cbn.
    pose proof (same_on_counts_cur _ _ Hr h) as Hh.
    destruct (update_all Tensor.recall_data _ st !! h) as [y|],
      (st !! h) as [z|]; cbn in *; try done.
    injection Hh as ->. done.
Qed.

(** The three stages together, for a tensor [x] at handle [h]. *)
Lemma Operator_run_counts kern nr_past op st op' st' :
  Operator.run kern nr_past op st = Ok (op', st') →
  Operator.base op' = Operator.base op ∧
  Wiring.same_on Wiring.static st st' ∧
  ∀ h, Tensor.cur_count <$> st' !! h =
       (fun x => Wiring.cur_after_pre op h x -
                 Z.of_nat (count_occ Nat.eq_dec
                             (OpBase.inputs (Operator.base op)) h))
         <$> st !! h.
Proof.
  unfold Operator.run. intros H.
  apply bind_Ok_inv in H as ([op1 st1] & H1 & H).
  apply bind_Ok_inv in H as ([op2 st2] & H2 & H).
  apply Operator_pre_execute_counts in H1 as (Hb1 & Hs1 & Hc1).
  apply Operator_execute_counts in H2 as (Hb2 & Hs2).
  apply Operator_end_execute_counts in H as (Hb3 & Hs3 & Hc3).
  split_and!.
  - congruence.
  - eapply same_on_trans; [exact Hs1|].
    eapply same_on_trans; [|exact Hs3]. by apply same_on_counts_static.
  - intros h. rewrite Hc3, Hb2, Hb1.
    pose proof (same_on_counts_cur _ _ Hs2 h) as Hh.
    specialize (Hc1 h).
    destruct (st2 !! h) as [x2|], (st1 !! h) as [x1|], (st !! h) as [x|];
      cbn in *; try done.
    injection Hh as ->. by injection Hc1 as ->.
Qed.

Lemma uses_app l1 l2 h :
  Wiring.uses (l1 ++ l2) h = Wiring.uses l1 h + Wiring.uses l2 h.
Proof. induction l1 as [|op l1 IH]; cbn; [done|]. rewrite IH. lia. Qed.

Lemma uses_nonneg l h : 0 ≤ Wiring.uses l h.
Proof. induction l as [|op l IH]; cbn; lia. Qed.

Lemma produced_snoc input done op h :
  h ∈ Wiring.produced input (done ++ [op]) ↔
  h ∈ Wiring.produced input done ∨ h ∈ OpBase.outputs (Operator.base op).
Proof.
  unfold Wiring.produced. rewrite map_app, concat_app. cbn.
  rewrite app_nil_r, !elem_of_cons, elem_of_app. tauto.
Qed.

Lemma count_occ_elem (l : list handle) h :
  h ∉ l → count_occ Nat.eq_dec l h = 0%nat.
Proof.
  intros Hn. apply count_occ_not_In. by rewrite <- list_elem_of_In.
Qed.

Lemma same_on_lookup {B} (P : Tensor.t → B) st st' h x' :
  Wiring.same_on P st st' → st' !! h = Some x' →
  ∃ x, st !! h = Some x ∧ P x' = P x.
Proof.
  intros H Hx'. specialize (H h). rewrite Hx' in H.
  destruct (st !! h) as [x|]; cbn in H; [|done].
  exists x. split; [done|]. by injection H.
Qed.

(** One operator run keeps the pending counts balanced. *)
Lemma balanced_step kern nr_past input done op rest st0 st op' st' :
  Wiring.ordered input done (op :: rest) st0 →
  Wiring.same_on Wiring.static st0 st →
  Wiring.closed input done →
  Wiring.balanced input done st →
  Operator.run kern nr_past op st = Ok (op', st') →
  Wiring.balanced input (done ++ [op]) st' ∧
  Wiring.closed input (done ++ [op]) ∧
  Wiring.same_on Wiring.static st0 st' ∧
  Operator.base op' = Operator.base op.
Proof.
  intros (Hin & Hout & Hok & _) Hst Hcl Hbal Hrun.
  apply Operator_run_counts in Hrun as (Hbase & Hs & Hc).
  assert (Hnew : ∀ h, h ∈ OpBase.outputs (Operator.base op) →
                      h ∉ OpBase.inputs (Operator.base op)).
  { intros h Ho Hi. by apply (Hout h Ho), Hin. }
  split_and!; [| |by eapply same_on_trans|done].
  - intros h x' Hx'. specialize (Hc h). rewrite Hx' in Hc.
    destruct (st !! h) as [x|] eqn:Hx; cbn in Hc; [|done].
    injection Hc as Hc.
    assert (Hu : Tensor.usr_count x' = Tensor.usr_count x).
    { destruct (same_on_lookup _ _ _ _ _ Hs Hx') as (y & Hy & Hys).
      rewrite Hx in Hy. injection Hy as <-. by injection Hys. }
    specialize (Hbal h x Hx). rewrite uses_app. cbn. rewrite Z.add_0_r.
    destruct (decide (h ∈ OpBase.outputs (Operator.base op))) as [Ho|Ho].
    + rewrite decide_True by (apply produced_snoc; by right).
      rewrite decide_False in Hbal by by apply Hout.
      rewrite (count_occ_elem _ _ (Hnew h Ho)) in *.
      rewrite (Hcl h (Hout h Ho)).
      assert (Hpre : Wiring.cur_after_pre op h x = Tensor.usr_count x).
      { assert (Hplain : Wiring.output_ok op st0 = (∀ o y,
                  o ∈ OpBase.outputs (Operator.base op) → st0 !! o = Some y →
                  Tensor.shared y = true → Tensor.usr_count y = 0) →
                Tensor.cur_count (OpBase.pre_execute_output x) =
                Tensor.usr_count x).
        { intros Heq. rewrite Heq in Hok.
          unfold OpBase.pre_execute_output, Tensor.get_curr_user_count.
          rewrite Hbal, bool_decide_eq_true_2 by done.
          destruct (Tensor.shared x) eqn:Hsh; cbn; [|done].
          destruct (same_on_lookup _ _ _ _ _ Hst Hx) as (x0 & Hx0 & Hx0s).
          injection Hx0s as Hx0u Hx0sh.
          rewrite Hbal, Hx0u. symmetry. apply (Hok h x0 Ho Hx0). congruence. }
        destruct op as [b|m|m|r|a|e]; cbn in Ho |- *;
          try (rewrite decide_True by done; by apply Hplain).
        destruct Hok as [o Heq]. unfold OpBase.outputs in *.
        rewrite Heq in Ho |- *. apply list_elem_of_singleton in Ho as ->.
        rewrite decide_True by done.
        unfold AttentionBase.pre_execute_output, Tensor.get_curr_user_count.
        by rewrite Hbal, bool_decide_eq_true_2. }
      rewrite Hc, Hpre, Hu. lia.
    + assert (Hpre : Wiring.cur_after_pre op h x = Tensor.cur_count x).
      { destruct op as [b|m|m|r|a|e]; cbn in Ho |- *;
          try by rewrite decide_False.
        rewrite decide_False; [done|]. intros Ho'. apply Ho.
        apply list_elem_of_lookup. by exists 0%nat. }
      rewrite Hc, Hpre, Hbal, Hu.
      destruct (decide (h ∈ Wiring.produced input done)) as [Hp|Hp].
      * rewrite decide_True by (apply produced_snoc; by left). lia.
      * rewrite decide_False by (rewrite produced_snoc; tauto).
        rewrite count_occ_elem; [lia|]. intros Hi. by apply Hp, Hin.
  - intros h Hp. rewrite produced_snoc in Hp.
    rewrite uses_app. cbn. rewrite Hcl by tauto.
    rewrite count_occ_elem; [lia|]. intros Hi. apply Hp. left. by apply Hin.
Qed.

Lemma run_ops_balanced kern nr_past input st0 rest : ∀ done st ops' st',
  Wiring.ordered input done rest st0 →
  Wiring.same_on Wiring.static st0 st →
  Wiring.closed input done →
  Wiring.balanced input done st →
  OprModuleBase.run_ops kern nr_past rest st = Ok (ops', st') →
  Wiring.balanced input (done ++ rest) st' ∧
  Wiring.same_on Wiring.static st0 st' ∧
  Wiring.closed input (done ++ rest).
Proof.
  induction rest as [|op rest IH]; intros ran st ops' st' Hord Hst Hcl Hbal H.
  - cbn in H. injection H as <- <-. by rewrite app_nil_r.
  - cbn in H.
    apply bind_Ok_inv in H as ([op1 st1] & H1 & H).
    apply bind_Ok_inv in H as ([ops1 st2] & H2 & H). injection H as <- <-.
    destruct (balanced_step _ _ _ _ _ _ _ _ _ _ Hord Hst Hcl Hbal H1)
      as (Hbal1 & Hcl1 & Hst1 & _).
    destruct Hord as (_ & _ & _ & Hord).
    replace (ran ++ op :: rest) with ((ran ++ [op]) ++ rest)
      by (by rewrite <- app_assoc).
    by eapply IH.
Qed.

Lemma ordered_prefix input st0 l1 l2 : ∀ done,
  Wiring.ordered input done (l1 ++ l2) st0 → Wiring.ordered input done l1 st0.
Proof.
  induction l1 as [|op l1 IH]; intros ran H; [done|].
  destruct H as (H1 & H2 & H3 & H4). cbn. split_and!; try done. by apply IH.
Qed.

Lemma ordered_suffix input st0 l1 l2 : ∀ ran,
  Wiring.ordered input ran (l1 ++ l2) st0 →
  Wiring.ordered input (ran ++ l1) l2 st0.
Proof.
  induction l1 as [|op l1 IH]; intros ran H.
  - by rewrite app_nil_r.
  - destruct H as (_ & _ & _ & H). apply IH in H.
    by rewrite <- app_assoc in H.
Qed.

Lemma run_ops_app kern nr_past l1 : ∀ l2 st ops' st',
  OprModuleBase.run_ops kern nr_past (l1 ++ l2) st = Ok (ops', st') →
  ∃ ops1 st1 ops2,
    OprModuleBase.run_ops kern nr_past l1 st = Ok (ops1, st1) ∧
    OprModuleBase.run_ops kern nr_past l2 st1 = Ok (ops2, st') ∧
    ops' = ops1 ++ ops2.
Proof.
  induction l1 as [|op l1 IH]; intros l2 st ops' st' H.
  - by exists [], st, ops'.
  - cbn in H.
    apply bind_Ok_inv in H as ([op1 st1] & H1 & H).
    apply bind_Ok_inv in H as ([ops1 st2] & H2 & H). injection H as <- <-.
    destruct (IH _ _ _ _ H2) as (opsa & sta & opsb & Ha & Hb & ->).
    exists (op1 :: opsa), sta, opsb. cbn. rewrite H1. cbn. rewrite Ha. done.
Qed.

Lemma run_ops_app_ok kern nr_past l1 l2 st ops1 st1 ops2 st2 :
  OprModuleBase.run_ops kern nr_past l1 st = Ok (ops1, st1) →
  OprModuleBase.run_ops kern nr_past l2 st1 = Ok (ops2, st2) →
  OprModuleBase.run_ops kern nr_past (l1 ++ l2) st = Ok (ops1 ++ ops2, st2).
Proof.
  revert st ops1. induction l1 as [|op l1 IH]; intros st ops1 H1 H2.
  - cbn in H1. by injection H1 as <- <-.
  - cbn in H1.
    apply bind_Ok_inv in H1 as ([op1 sta] & Ha & H1).
    apply bind_Ok_inv in H1 as ([opsb stb] & Hb & H1). injection H1 as <- <-.
    cbn. rewrite Ha. cbn. by rewrite (IH _ _ Hb H2).
Qed.

(** Running the modules is running all operators of the graph in order. *)
Lemma run_modules_run_ops kern nr_past ms : ∀ st ms' st',
  Graph.run_modules kern nr_past ms st = Ok (ms', st') →
  ∃ ops',
    OprModuleBase.run_ops kern nr_past
      (concat (map OprModuleBase.m_oprs ms)) st = Ok (ops', st') ∧
    ops' = concat (map OprModuleBase.m_oprs ms').
Proof.
  induction ms as [|m ms IH]; intros st ms' st' H; cbn in H.
  - injection H as <- <-. by exists [].
  - apply bind_Ok_inv in H as ([m1 st1] & H1 & H).
    apply bind_Ok_inv in H as ([ms1 st2] & H2 & H). injection H as <- <-.
    unfold OprModuleBase.execute in H1.
    apply bind_Ok_inv in H1 as ([ops1 sta] & Ha & H1). injection H1 as <- <-.
    destruct (IH _ _ _ H2) as (ops2 & Hb & ->).
    eexists. split; [by apply (run_ops_app_ok _ _ _ _ _ _ _ _ _ Ha Hb)|done].
Qed.

Lemma begin_pass_balanced in_token g st st1 :
  Wiring.idle st → Graph.begin_pass in_token g st = Ok st1 →
  Wiring.balanced (Graph.m_input g) [] st1 ∧
  Wiring.same_on Wiring.static st st1.
Proof.
  intros Hidle H. apply begin_pass_counts in H as [Hs Hc]. split; [|done].
  intros h x1 Hx1. specialize (Hc h). rewrite Hx1 in Hc.
  destruct (st !! h) as [x|] eqn:Hx; cbn in Hc; [|done].
  injection Hc as Hc.
  destruct (same_on_lookup _ _ _ _ _ Hs Hx1) as (y & Hy & Hys).
  rewrite Hx in Hy. injection Hy as <-. injection Hys as Hu _.
  rewrite Hc. cbn. unfold Wiring.produced. cbn.
  destruct (decide (h = Graph.m_input g)) as [->|Hne].
  - rewrite decide_True by apply list_elem_of_here. lia.
  - rewrite decide_False by (by rewrite list_elem_of_singleton).
    by apply (Hidle h).
Qed.

Lemma closed_nil input : Wiring.closed input [].
Proof. done. Qed.

Lemma wired_static g st st' :
  Wiring.same_on Wiring.static st st' → Wiring.wired g st → Wiring.wired g st'.
Proof.
  intros Hs Hw h x' Hx'.
  destruct (same_on_lookup _ _ _ _ _ Hs Hx') as (x & Hx & Hxs).
  injection Hxs as -> _. by apply (Hw h).
Qed.

Lemma balanced_nonneg g st0 pre rest st :
  Graph.oprs g = pre ++ rest →
  Wiring.wired g st0 → Wiring.same_on Wiring.static st0 st →
  Wiring.balanced (Graph.m_input g) pre st →
  ∀ h x, st !! h = Some x → 0 ≤ Tensor.cur_count x.
Proof.
  intros Hops Hw Hs Hbal h x Hx. rewrite (Hbal h x Hx).
  destruct (decide _); [|done].
  rewrite (wired_static _ _ _ Hs Hw h x Hx), Hops, uses_app.
  pose proof (uses_nonneg rest h). lia.
Qed.

(** The constructor raises the declared count once per input slot. *)
Lemma OpBase_ctor_usr_count device nm inputs st h :
  Tensor.usr_count <$> (OpBase.ctor device nm inputs st).2 !! h =
  (fun x => Tensor.usr_count x + Z.of_nat (count_occ Nat.eq_dec inputs h))
    <$> st !! h.
Proof.
  cbn. rewrite update_all_lookup. destruct (st !! h) as [x|]; cbn; [|done].
  f_equal. induction (count_occ Nat.eq_dec inputs h) as [|n IH]; [cbn; lia|].
  rewrite Nat.iter_succ. cbn [Tensor.add_user Tensor.usr_count]. lia.
Qed.

Lemma count_occ_NoDup (l : list handle) h :
  NoDup l →
  Z.of_nat (count_occ Nat.eq_dec l h) = if decide (h ∈ l) then 1 else 0.
Proof.
  induction 1 as [|x l Hx Hl IH].
  - cbn. by rewrite decide_False by apply not_elem_of_nil.
  - cbn [count_occ]. destruct (Nat.eq_dec x h) as [->|Hne].
    + rewrite decide_True by apply list_elem_of_here.
      rewrite decide_False in IH by done. lia.
    + rewrite IH. destruct (decide (h ∈ l)) as [Hin|Hin].
      * rewrite decide_True; [done|]. by apply list_elem_of_further.
      * rewrite decide_False; [done|]. rewrite elem_of_cons.
        by intros [->|?].
Qed.

(** Where no operator holds a tensor in two slots, slots and operators
    count the same. *)
Lemma uses_users ops h :
  Forall (fun op => NoDup (OpBase.inputs (Operator.base op))) ops →
  Wiring.uses ops h = Wiring.users ops h.
Proof.
  induction 1 as [|op ops Hop _ IH]; [done|].
  cbn. by rewrite IH, count_occ_NoDup.
Qed.

Lemma count_occ_take (l : list handle) j h :
  (count_occ Nat.eq_dec (take j l) h ≤ count_occ Nat.eq_dec l h)%nat.
Proof.
  revert j. induction l as [|x l IH]; intros [|j]; cbn; try lia.
  specialize (IH j). destruct (Nat.eq_dec x h); lia.
Qed.

(** The pending counts right after [pre_execute] of the next operator. *)
Lemma balanced_after_pre input ran op rest st0 st h x :
  Wiring.ordered input ran (op :: rest) st0 →
  Wiring.same_on Wiring.static st0 st →
  Wiring.closed input ran →
  Wiring.balanced input ran st →
  st !! h = Some x →
  Wiring.cur_after_pre op h x =
    if decide (h ∈ Wiring.produced input (ran ++ [op]))
    then Tensor.usr_count x - Wiring.uses ran h else 0.
Proof.
  intros (Hin & Hout & Hok & _) Hst Hcl Hbal Hx.
  specialize (Hbal h x Hx).
  destruct (decide (h ∈ OpBase.outputs (Operator.base op))) as [Ho|Ho].
  - rewrite decide_True by (apply produced_snoc; by right).
    rewrite decide_False in Hbal by by apply Hout.
    rewrite (Hcl h (Hout h Ho)), Z.sub_0_r.
    assert (Hplain : Wiring.output_ok op st0 = (∀ o y,
              o ∈ OpBase.outputs (Operator.base op) → st0 !! o = Some y →
              Tensor.shared y = true → Tensor.usr_count y = 0) →
            Tensor.cur_count (OpBase.pre_execute_output x) =
            Tensor.usr_count x).
    { intros Heq. rewrite Heq in Hok.
      unfold OpBase.pre_execute_output, Tensor.get_curr_user_count.
      rewrite Hbal, bool_decide_eq_true_2 by done.
      destruct (Tensor.shared x) eqn:Hsh; cbn; [|done].
      destruct (same_on_lookup _ _ _ _ _ Hst Hx) as (x0 & Hx0 & Hx0s).
      injection Hx0s as Hx0u Hx0sh.
      rewrite Hbal, Hx0u. symmetry. apply (Hok h x0 Ho Hx0). congruence. }
    destruct op as [b|m|m|r|a|e]; cbn in Ho |- *;
      try (rewrite decide_True by done; by apply Hplain).
    destruct Hok as [o Heq]. unfold OpBase.outputs in *.
    rewrite Heq in Ho |- *. apply list_elem_of_singleton in Ho as ->.
    rewrite decide_True by done.
    unfold AttentionBase.pre_execute_output, Tensor.get_curr_user_count.
    by rewrite Hbal, bool_decide_eq_true_2.
  - assert (Hpre : Wiring.cur_after_pre op h x = Tensor.cur_count x).
    { destruct op as [b|m|m|r|a|e]; cbn in Ho |- *;
        try by rewrite decide_False.
      rewrite decide_False; [done|]. intros Ho'. apply Ho.
      apply list_elem_of_lookup. by exists 0%nat. }
    rewrite Hpre, Hbal.
    destruct (decide (h ∈ Wiring.produced input ran)) as [Hp|Hp].
    + by rewrite decide_True by (apply produced_snoc; by left).
    + by rewrite decide_False by (rewrite produced_snoc; tauto).
Qed.

(** Within the run of one operator: after [pre_execute] and [execute], and
    after any number of the decrements of [end_execute], no pending count
    is negative or above the declared count. *)
Lemma pending_within_operator g st0 st pre op rest op1 st1 s j :
  Wiring.ordered (Graph.m_input g) pre (op :: rest) st0 →
  Graph.oprs g = pre ++ op :: rest →
  Wiring.wired g st0 →
  Wiring.same_on Wiring.static st0 st →
  Wiring.closed (Graph.m_input g) pre →
  Wiring.balanced (Graph.m_input g) pre st →
  Operator.pre_execute op st = Ok (op1, st1) →
  Wiring.same_on Wiring.counts st1 s →
  ∀ h x,
    update_all Tensor.decrease_curr_user_count
      (take j (OpBase.inputs (Operator.base op))) s !! h = Some x →
    0 ≤ Tensor.cur_count x ≤ Tensor.usr_count x.
Proof.
  intros Hord Hops Hw Hst Hcl Hbal Hpre Hs h x Hx.
  apply Operator_pre_execute_counts in Hpre as (_ & Hs1 & Hc1).
  pose proof (update_all_same_on Wiring.static
                Tensor.decrease_curr_user_count
                (take j (OpBase.inputs (Operator.base op))) s
                decrease_static) as Hsd.
  rewrite update_all_lookup in Hx.
  destruct (s !! h) as [y|] eqn:Hy; [|done]. cbn in Hx. injection Hx as <-.
  rewrite iter_decrease_cur.
  destruct (same_on_lookup _ _ _ _ _ Hs Hy) as (y1 & Hy1 & Hyc).
  unfold Wiring.counts in Hyc. injection Hyc as Hyu Hycur _.
  specialize (Hc1 h). rewrite Hy1 in Hc1.
  destruct (st !! h) as [y0|] eqn:Hy0; cbn in Hc1; [|done].
  injection Hc1 as Hc1.
  destruct (same_on_lookup _ _ _ _ _ Hs1 Hy1) as (z & Hz & Hzs).
  rewrite Hy0 in Hz. injection Hz as <-. injection Hzs as Hzu _.
  rewrite (balanced_after_pre _ _ _ _ _ _ _ _ Hord Hst Hcl Hbal Hy0) in Hc1.
  assert (Hdecl : Tensor.usr_count y0 = Wiring.uses (Graph.oprs g) h)
    by apply (wired_static _ _ _ Hst Hw h y0 Hy0).
  rewrite Hops, uses_app in Hdecl. cbn in Hdecl.
  pose proof (uses_nonneg pre h). pose proof (uses_nonneg rest h).
  pose proof (count_occ_take (OpBase.inputs (Operator.base op)) j h) as Hj.
  pose proof (iter_decrease_static
                (count_occ Nat.eq_dec
                   (take j (OpBase.inputs (Operator.base op))) h) y) as Hiter.
  unfold Wiring.static in Hiter. injection Hiter as Hiter _.
  rewrite Hiter, Hycur, Hc1, Hyu, Hzu.
  destruct (decide (h ∈ Wiring.produced (Graph.m_input g) (pre ++ [op])))
    as [Hp|Hp].
  - lia.
  - destruct Hord as (Hin & _).
    assert (Hni : h ∉ OpBase.inputs (Operator.base op)).
    { intros Hi. apply Hp, produced_snoc. left. by apply Hin. }
    assert (Hnt : h ∉ take j (OpBase.inputs (Operator.base op))).
    { intros (i & Hi & _)%elem_of_take. apply Hni.
      by eapply list_elem_of_lookup_2. }
    rewrite (count_occ_elem _ _ Hnt). lia.
Qed.

(** A pass changes neither the kind nor the wiring of an operator. *)
Lemma Operator_run_skeleton kern nr_past op st op' st' :
  Operator.run kern nr_past op st = Ok (op', st') →
  Wiring.skeleton op' = Wiring.skeleton op.
Proof.
  intros H. pose proof (Operator_run_counts _ _ _ _ _ _ H) as (Hb & _).
  unfold Wiring.skeleton. rewrite Hb. f_equal.
  unfold Operator.run in H.
  apply bind_Ok_inv in H as ([op1 st1] & H1 & H).
  apply bind_Ok_inv in H as ([op2 st2] & H2 & H).
  assert (Hk1 : match op with AttentionOp _ => true | _ => false end =
                match op1 with AttentionOp _ => true | _ => false end).
  { destruct op; cbn in H1; try by injection H1 as <- _.
    apply bind_Ok_inv in H1 as ([? ?] & _ & H1). by injection H1 as <- _. }
  assert (Hk2 : match op1 with AttentionOp _ => true | _ => false end =
                match op2 with AttentionOp _ => true | _ => false end).
  { destruct op1; cbn in H2;
      try (apply bind_Ok_inv in H2 as (? & _ & H2); by injection H2 as <- _).
    apply bind_Ok_inv in H2 as ([? ?] & _ & H2). by injection H2 as <- _. }
  rewrite Hk1, Hk2.
  destruct op2; cbn in H; try by injection H as <- _.
  apply bind_Ok_inv in H as ([? ?] & _ & H). by injection H as <- _.
Qed.

Lemma run_ops_skeleton kern nr_past ops : ∀ st ops' st',
  OprModuleBase.run_ops kern nr_past ops st = Ok (ops', st') →
  map Wiring.skeleton ops' = map Wiring.skeleton ops.
Proof.
  induction ops as [|op ops IH]; intros st ops' st' H; cbn in H.
  - by injection H as <- _.
  - apply bind_Ok_inv in H as ([op1 st1] & H1 & H).
    apply bind_Ok_inv in H as ([ops1 st2] & H2 & H). injection H as <- _.
    cbn. by rewrite (Operator_run_skeleton _ _ _ _ _ _ H1), (IH _ _ _ H2).
Qed.

Lemma skeleton_base l1 l2 :
  map Wiring.skeleton l1 = map Wiring.skeleton l2 →
  map Operator.base l1 = map Operator.base l2.
Proof.
  intros H.
  apply (f_equal (map snd)) in H. by rewrite !map_map in H.
Qed.

Lemma uses_skeleton l1 : ∀ l2 h,
  map Wiring.skeleton l1 = map Wiring.skeleton l2 →
  Wiring.uses l1 h = Wiring.uses l2 h.
Proof.
  induction l1 as [|op1 l1 IH]; intros [|op2 l2] h H; try done.
  cbn in H. injection H as Hk Hb H. cbn. by rewrite Hb, (IH l2 h H).
Qed.

Lemma produced_skeleton input l1 l2 :
  map Wiring.skeleton l1 = map Wiring.skeleton l2 →
  Wiring.produced input l1 = Wiring.produced input l2.
Proof.
  intros H%skeleton_base. unfold Wiring.produced. f_equal. f_equal.
  apply (f_equal (map OpBase.outputs)) in H. by rewrite !map_map in H.
Qed.

Lemma output_ok_skeleton op op' st st' :
  Wiring.skeleton op = Wiring.skeleton op' →
  Wiring.same_on Wiring.static st st' →
  Wiring.output_ok op st → Wiring.output_ok op' st'.
Proof.
  unfold Wiring.skeleton. intros [= Hk Hb] Hs Hok.
  assert (Hplain : (∀ o x, o ∈ OpBase.outputs (Operator.base op) →
                      st !! o = Some x → Tensor.shared x = true →
                      Tensor.usr_count x = 0) →
                   ∀ o x', o ∈ OpBase.outputs (Operator.base op') →
                      st' !! o = Some x' → Tensor.shared x' = true →
                      Tensor.usr_count x' = 0).
  { intros Hp o x' Ho Hx' Hsh.
    destruct (same_on_lookup _ _ _ _ _ Hs Hx') as (x & Hx & Hxs).
    injection Hxs as Hu Hshx. rewrite Hu. apply (Hp o x); congruence. }
  destruct op, op'; try done; cbn in *; try by apply Hplain.
  destruct Hok as [o Ho]. exists o. by rewrite <- Hb.
Qed.

Lemma ordered_skeleton input st st' l1 : ∀ l2 r1 r2,
  map Wiring.skeleton l1 = map Wiring.skeleton l2 →
  map Wiring.skeleton r1 = map Wiring.skeleton r2 →
  Wiring.same_on Wiring.static st st' →
  Wiring.ordered input r1 l1 st → Wiring.ordered input r2 l2 st'.
Proof.
  induction l1 as [|op1 l1 IH]; intros [|op2 l2] r1 r2 Hl Hr Hs H; try done.
  cbn in Hl. injection Hl as Hk Hb Hl.
  destruct H as (Hin & Hout & Hok & H). cbn.
  rewrite <- (produced_skeleton input r1 r2 Hr), <- Hb. split_and!; try done.
  - apply (output_ok_skeleton op1 op2 st st'); [|done..].
    unfold Wiring.skeleton. by f_equal.
  - eapply (IH l2 (r1 ++ [op1])); try done.
    rewrite !map_app, Hr. cbn. do 2 f_equal.
    unfold Wiring.skeleton. by f_equal.
Qed.

(** After a pass the graph is as ready for the next one as it was. *)
Lemma pass_preserves_wiring kern in_token nr_past g st g' st' :
  Wiring.well_formed g st → Wiring.wired g st → Wiring.idle st →
  Graph.execute kern in_token nr_past g st = Ok (g', st') →
  Wiring.well_formed g' st' ∧ Wiring.wired g' st' ∧ Wiring.idle st'.
Proof.
  intros Hwf Hw Hidle H. unfold Graph.execute in H.
  apply bind_Ok_inv in H as (u & _ & H).
  apply bind_Ok_inv in H as (st1 & H1 & H).
  apply bind_Ok_inv in H as ([ms st2] & H2 & H). injection H as <- <-.
  destruct (begin_pass_balanced _ _ _ _ Hidle H1) as [Hbal Hs1].
  apply run_modules_run_ops in H2 as (ops' & H2 & Hops).
  pose proof (run_ops_skeleton _ _ _ _ _ _ H2) as Hsk. rewrite Hops in Hsk.
  destruct (run_ops_balanced _ _ _ st _ _ _ _ _ Hwf Hs1
              (closed_nil _) Hbal H2) as (Hbal2 & Hs2 & _).
  pose proof (wired_static _ _ _ Hs2 Hw) as Hw2. split_and!.
  - unfold Wiring.well_formed, Graph.oprs. cbn.
    by eapply (ordered_skeleton _ st _ (Graph.oprs g) _ [] []).
  - intros h x Hx. rewrite (Hw2 h x Hx).
    unfold Graph.oprs. cbn. by apply uses_skeleton.
  - intros h x Hx. rewrite (Hbal2 h x Hx). cbn [app].
    destruct (decide _); [|done].
    rewrite (Hw2 h x Hx). unfold Graph.oprs. lia.
Qed.

(** C8 (amended). The declared consumer count of a tensor is raised once
    per input slot by each constructor, so after wiring it is the number
    of input slots that hold the tensor, which is the number of consuming
    operators when no operator holds a tensor twice.  [end_execute] takes
    one pending consumer off per input slot.  In a graph whose operators
    read only the graph input and outputs of earlier operators, a pass
    started with no consumer pending ends with none pending, and the
    pending count of every tensor lies between zero and its declared
    count throughout: between any two operators of the pass, after the
    [pre_execute] and [execute] of an operator, and after each single
    decrement of its [end_execute]. *)
Theorem pending_count_balanced :
  (∀ device nm inputs st h,
     Tensor.usr_count <$> (OpBase.ctor device nm inputs st).2 !! h =
     (fun x => Tensor.usr_count x + Z.of_nat (count_occ Nat.eq_dec inputs h))
       <$> st !! h) ∧
  (∀ ops h,
     Forall (fun op => NoDup (OpBase.inputs (Operator.base op))) ops →
     Wiring.uses ops h = Wiring.users ops h) ∧
  (∀ op st op' st' h,
     Operator.end_execute op st = Ok (op', st') →
     Tensor.cur_count <$> st' !! h =
     (fun x => Tensor.cur_count x -
               Z.of_nat (count_occ Nat.eq_dec
                           (OpBase.inputs (Operator.base op)) h))
       <$> st !! h) ∧
  (∀ kern in_token nr_past g st g' st',
     Wiring.well_formed g st → Wiring.wired g st → Wiring.idle st →
     Graph.execute kern in_token nr_past g st = Ok (g', st') →
     Wiring.idle st' ∧ Wiring.wired g st' ∧
     Wiring.wired g' st' ∧ Wiring.well_formed g' st') ∧
  (∀ kern in_token nr_past g st st1 pre rest ops1 st2,
     Wiring.well_formed g st → Wiring.wired g st → Wiring.idle st →
     Graph.begin_pass in_token g st = Ok st1 →
     Graph.oprs g = pre ++ rest →
     OprModuleBase.run_ops kern nr_past pre st1 = Ok (ops1, st2) →
     ∀ h x, st2 !! h = Some x →
       0 ≤ Tensor.cur_count x ≤ Tensor.usr_count x) ∧
  (∀ kern in_token nr_past g st st1 pre op rest ops1 st2 op1 st3 s j,
     Wiring.well_formed g st → Wiring.wired g st → Wiring.idle st →
     Graph.begin_pass in_token g st = Ok st1 →
     Graph.oprs g = pre ++ op :: rest →
     OprModuleBase.run_ops kern nr_past pre st1 = Ok (ops1, st2) →
     Operator.pre_execute op st2 = Ok (op1, st3) →
     Wiring.same_on Wiring.counts st3 s →
     ∀ h x,
       update_all Tensor.decrease_curr_user_count
         (take j (OpBase.inputs (Operator.base op))) s !! h = Some x →
       0 ≤ Tensor.cur_count x ≤ Tensor.usr_count x).
Proof.
  split_and!.
  - apply OpBase_ctor_usr_count.
  - apply uses_users.
  - intros op st op' st' h H.
    by apply Operator_end_execute_counts in H as (_ & _ & Hc).
  - intros kern in_token nr_past g st g' st' Hwf Hw Hidle H.
    destruct (pass_preserves_wiring _ _ _ _ _ _ _ Hwf Hw Hidle H)
      as (Hwf' & Hw' & Hidle').
    split_and!; try done.
    unfold Graph.execute in H.
    apply bind_Ok_inv in H as (u & _ & H).
    apply bind_Ok_inv in H as (st1 & H1 & H).
    apply bind_Ok_inv in H as ([ms st2] & H2 & H). injection H as <- <-.
    destruct (begin_pass_balanced _ _ _ _ Hidle H1) as [Hbal Hs1].
    apply run_modules_run_ops in H2 as (ops' & H2 & _).
    destruct (run_ops_balanced _ _ _ st _ _ _ _ _ Hwf Hs1
                (closed_nil _) Hbal H2) as (_ & Hs2 & _).
    by apply (wired_static _ _ _ Hs2 Hw).
  - intros kern in_token nr_past g st st1 pre rest ops1 st2 Hwf Hw Hidle H1
      Hops H2 h x Hx.
    destruct (begin_pass_balanced _ _ _ _ Hidle H1) as [Hbal Hs1].
    unfold Wiring.well_formed in Hwf. rewrite Hops in Hwf.
    apply ordered_prefix in Hwf.
    destruct (run_ops_balanced _ _ _ st _ _ _ _ _ Hwf Hs1
                (closed_nil _) Hbal H2) as (Hbal2 & Hs2 & _).
    cbn [app] in Hbal2. split.
    + by eapply (balanced_nonneg g st pre rest st2).
    + rewrite (Hbal2 h x Hx). pose proof (uses_nonneg pre h).
      destruct (decide _); [lia|].
      rewrite (wired_static _ _ _ Hs2 Hw h x Hx). apply uses_nonneg.
  - intros kern in_token nr_past g st st1 pre op rest ops1 st2 op1 st3 s j
      Hwf Hw Hidle H1 Hops H2 Hpre Hs.
    destruct (begin_pass_balanced _ _ _ _ Hidle H1) as [Hbal Hs1].
    unfold Wiring.well_formed in Hwf. rewrite Hops in Hwf.
    pose proof (ordered_suffix _ _ _ _ _ Hwf) as Hord.
    apply ordered_prefix in Hwf.
    destruct (run_ops_balanced _ _ _ st _ _ _ _ _ Hwf Hs1
                (closed_nil _) Hbal H2) as (Hbal2 & Hs2 & Hcl2).
    cbn [app] in Hbal2, Hcl2, Hord.
    by eapply (pending_within_operator g st st2 pre op rest op1 st3 s j).
Qed.

Lemma pending_count_balanced_witness :
  ∃ g st g' st',
    tiny_graph = Ok (g, st) ∧
    Graph.execute probe_kernel [1; 2; 3] 0 g st = Ok (g', st') ∧
    Wiring.idle st' ∧ Wiring.wired g st' ∧
    Tensor.usr_count <$> st' !! 3%nat = Some 1.
Proof.
  eexists _, _, _, _. split; [vm_compute; reflexivity|].
  match goal with
  | |- Graph.execute _ _ _ _ ?st = _ ∧ _ => pose (s0 := st)
  end.
  split; [vm_compute; reflexivity|].
  match goal with
  | |- Wiring.idle ?st' ∧ Wiring.wired ?g ?st' ∧ _ =>
      eassert (Hiw : Wiring.idle st' ∧ Wiring.wired g st' ∧
                     Wiring.wired _ st' ∧ Wiring.well_formed _ st');
      [ eapply (proj1 (proj2 (proj2 (proj2 pending_count_balanced)))
                  probe_kernel [1; 2; 3] 0 g s0)
      | destruct Hiw as (Hidle & Hwired & _);
        split_and!; [exact Hidle|exact Hwired|reflexivity] ]
  end.
  - unfold Wiring.well_formed, Graph.oprs. cbn. unfold Wiring.produced. cbn.
    split_and!; try done; try (by eexists);
      first
        [ intros h Hh%list_elem_of_singleton; subst h;
          first
            [ by repeat constructor
            | rewrite !not_elem_of_cons; split_and!;
              first [lia | apply not_elem_of_nil] ]
        | intros o x Ho%list_elem_of_singleton; subst o; by intros [= <-] ].
  - intros h x Hx.
    do 9 (destruct h as [|h]; [by injection Hx as <-|]). done.
  - intros h x Hx.
    do 9 (destruct h as [|h]; [by injection Hx as <-|]). done.
  - vm_compute. reflexivity.
Defined.

(** C8 as stated fails: an operator that holds the same tensor in both of
    its input slots raises the declared count of that tensor by two,
    though one operator lists it. *)
Lemma declared_count_counts_slots :
  ¬ (∀ device nm inputs st b st' h x x',
       OpBase.ctor device nm inputs st = (b, st') →
       st !! h = Some x → st' !! h = Some x' →
       Tensor.usr_count x' = Tensor.usr_count x + Wiring.users [Plain b] h).
Proof.
  intros H.
  specialize (H cpu "square" [0%nat; 0%nat] [activation "x" [4]] _ _ 0%nat
                _ _ eq_refl eq_refl eq_refl).
  vm_compute in H. discriminate H.
Qed.

Example square_uses :
  Tensor.usr_count <$> square.2 !! 0%nat = Some 2 ∧
  Wiring.uses [Plain square.1] 0%nat = 2 ∧
  Wiring.users [Plain square.1] 0%nat = 1 ∧
  Tensor.cur_count <$>
    OpBase.end_execute square.1
      (update Tensor.resume_user_count 0%nat square.2) !! 0%nat = Some 0.
Proof. repeat split; vm_compute; reflexivity. Qed.

(** ** The graph over several calls *)

(** A prefill of three tokens and one decoding step leave four positions
    in both caches; a call past the context length of 8 is fatal; a reset
    empties the caches. *)
Example tiny_graph_decodes :
  ∃ g st g1 st1 g2 st2,
    tiny_graph = Ok (g, st) ∧
    Graph.execute probe_kernel [1; 2; 3] 0 g st = Ok (g1, st1) ∧
    Graph.execute probe_kernel [4] 3 g1 st1 = Ok (g2, st2) ∧
    Wiring.idle st2 ∧
    (∃ e a mm,
       Graph.oprs g2 = [EmbeddingOp e; AttentionOp a; MatMulOp mm] ∧
       Decode.cache_lengths a = Some (4, 4)) ∧
    is_fatal (Graph.execute probe_kernel [5; 6; 7; 8; 9] 4 g2 st2) = true ∧
    (∃ g3 e a mm,
       Graph.reset_ctx g2 = Ok g3 ∧
       Graph.oprs g3 = [EmbeddingOp e; AttentionOp a; MatMulOp mm] ∧
       Decode.cache_lengths a = Some (0, 0)).
Proof.
  eexists _, _, _, _, _, _. split; [vm_compute; reflexivity|].
  split; [vm_compute; reflexivity|]. split; [vm_compute; reflexivity|].
  split_and!.
  - intros h x Hx.
    do 9 (destruct h as [|h]; [by injection Hx as <-|]). done.
  - eexists _, _, _. split; reflexivity.
  - reflexivity.
  - eexists _, _, _, _. split; [vm_compute; reflexivity|].
    split; reflexivity.
Qed.

(** ** Making operators *)

Lemma update_app_new f (st new : Arena) k :
  update f (length st + k) (st ++ new) = st ++ update f k new.
Proof. unfold update. apply alter_app_r. Qed.

Lemma update_app_0 f (st new : Arena) :
  update f (length st) (st ++ new) = st ++ update f 0 new.
Proof. rewrite <- (Nat.add_0_r (length st)) at 1. apply update_app_new. Qed.

(** Brings an arena built by a constructor into the form [st ++ new], the
    handles into the form [length st + k]. *)
Ltac arena_norm :=
  repeat first
    [ rewrite update_length
    | rewrite length_app
    | rewrite <- app_assoc
    | rewrite <- Nat.add_assoc
    | rewrite update_app_new
    | rewrite update_app_0
    | progress cbn [length app Nat.add update alter list_alter] ].

Ltac ctor_unfold :=
  unfold LayerNorm.ctor, MatMul.ctor, SoftMax.ctor, Reshape.ctor,
    Elemwise.ctor, SpliteHalfActiveMul.ctor, DiagMask.ctor, Embedding.ctor,
    LlamaAttention.ctor, GlmAttention.ctor, Glm2MultiQueryAttention.ctor,
    AttentionBase.ctor, AttentionBase.make_weight, OpBase.ctor, make_shared,
    OpBase.add_outputs, OpBase.set_weights, KvStorage.make, at_ in *.

Ltac ctor_simpl :=
  cbn [OpBase.m_outputs OpBase.m_name OpBase.m_weights OpBase.m_inputs
       OpBase.m_device update_all foldl mbind res_bind mret res_ret
       lookup list_lookup] in *.

Ltac arena_norm_in H :=
  repeat first
    [ rewrite update_length in H
    | rewrite length_app in H
    | rewrite <- app_assoc in H
    | rewrite <- Nat.add_assoc in H
    | rewrite update_app_new in H
    | rewrite update_app_0 in H
    | progress cbn [length app Nat.add update alter list_alter] in H ].

Lemma built_make_op c device nm inputs st op st' :
  make_op c device nm inputs st = Ok (op, st') →
  Assembly.built nm inputs st (Operator.base op) st'.
Proof.
  intros H.
  pose proof (update_all_length Tensor.add_user inputs st) as Hl.
  unfold Assembly.built.
  remember (update_all Tensor.add_user inputs st) as st0 eqn:E.
  destruct c; cbn [make_op] in H; ctor_unfold; rewrite <- E in H;
    repeat match goal with b : bool |- _ => destruct b end;
    try match goal with l : list Z |- _ => destruct l end;
    unfold Glm2MultiQueryAttention.udiv32, INFER_ASSERT in H;
    try match type of H with
        | context [bool_decide ?P] => destruct (bool_decide P)
        end;
    do 3 (ctor_simpl; arena_norm_in H);
    try discriminate H;
    try (injection H as <- <-; cbn; rewrite <- ?Hl;
         split_and!;
           [ reflexivity | reflexivity | reflexivity
           | repeat match goal with
                    | |- context [(?n + ?k)%nat] =>
                        replace (n + k)%nat with (Nat.iter k S n)
                          by (cbn; lia)
                    end; reflexivity
           | eexists; split_and!;
               [ reflexivity | reflexivity | by repeat constructor ] ]).
Qed.

(** X1. Making an operator of any class leaves the tensors of the arena
    where they were and changes them in one respect only: each input gets
    one more declared consumer per slot that holds it.  The output and the
    weights of the operator are new tensors, appended in this order, owned
    by the operator, with no consumer, no buffer and no data. *)
Theorem make_op_built c device nm inputs st op st' :
  make_op c device nm inputs st = Ok (op, st') →
  Assembly.built nm inputs st (Operator.base op) st'.
Proof. apply built_make_op. Qed.

Lemma make_op_built_witness :
  ∃ op st',
    make_op (MatMulC [32; 16] true) cpu "proj" [0%nat]
      [activation "x" [5; 16]] = Ok (op, st') ∧
    Assembly.built "proj" [0%nat] [activation "x" [5; 16]]
      (Operator.base op) st'.
Proof.
  eexists _, _. split; [vm_compute; reflexivity|].
  apply (make_op_built (MatMulC [32; 16] true) cpu).
  vm_compute. reflexivity.
Defined.

(** X2. On inputs that are tensors of the arena, making an operator fails
    in two cases only: a matrix multiply with a bias and an empty weight
    shape reads [shape[0]] out of range, and the multi-query-group
    attention is fatal without fused weights and divides by the head
    count. *)
Theorem make_op_outcome c device nm inputs st :
  Forall (fun h => is_Some (st !! h)) inputs →
  let r := make_op c device nm inputs st in
  match c with
  | MatMulC shp bias | MatMulLastC shp bias =>
      match shp with
      | [] => if bias then r = Undefined else is_ok r = true
      | _ :: _ => is_ok r = true
      end
  | Glm2MultiQueryAttentionC _ _ _ head _ _ fused_weights _ _ =>
      if fused_weights
      then if bool_decide (head = 0) then r = Undefined else is_ok r = true
      else r = Fatal "Glm2MultiQueryAttention only support fused weights."
  | _ => is_ok r = true
  end.
Proof.
  intros _.
  destruct c; cbn [make_op]; ctor_unfold;
    unfold Glm2MultiQueryAttention.udiv32, INFER_ASSERT;
    repeat match goal with b : bool |- _ => destruct b end;
    try match goal with l : list Z |- _ => destruct l end;
    try destruct (bool_decide (head = 0));
    reflexivity.
Qed.

Lemma make_op_outcome_witness :
  make_op (MatMulC [] true) cpu "proj" [0%nat] [activation "x" [5; 16]] =
    Undefined ∧
  is_ok (make_op (MatMulC [32; 16] true) cpu "proj" [0%nat]
           [activation "x" [5; 16]]) = true ∧
  make_op (Glm2MultiQueryAttentionC 16 2 8 4 0 Float32 false false Mode0) cpu
    "attn" [0%nat] [activation "x" [5; 16]] =
    Fatal "Glm2MultiQueryAttention only support fused weights.".
Proof.
  assert (H : Forall (fun h => is_Some ([activation "x" [5; 16]] !! h))
                [0%nat]).
  { apply List.Forall_cons; [by eexists|apply List.Forall_nil]. }
  split_and!.
  - exact (make_op_outcome (MatMulC [] true) cpu "proj" [0%nat] _ H).
  - exact (make_op_outcome (MatMulC [32; 16] true) cpu "proj" [0%nat] _ H).
  - exact (make_op_outcome
             (Glm2MultiQueryAttentionC 16 2 8 4 0 Float32 false false Mode0)
             cpu "attn" [0%nat] _ H).
Defined.

(** ** Graphs assembled by the constructors *)

Lemma iter_add_user n x :
  Tensor.usr_count (Nat.iter n Tensor.add_user x) =
    Tensor.usr_count x + Z.of_nat n ∧
  Tensor.cur_count (Nat.iter n Tensor.add_user x) = Tensor.cur_count x ∧
  Tensor.shared (Nat.iter n Tensor.add_user x) = Tensor.shared x.
Proof.
  induction n as [|n (IH1 & IH2 & IH3)]; [cbn; split_and!; [lia|done..]|].
  rewrite Nat.iter_succ. cbn [Tensor.add_user Tensor.usr_count
    Tensor.cur_count Tensor.shared]. split_and!; [lia|done..].
Qed.

Lemma built_length nm inputs st b st' :
  Assembly.built nm inputs st b st' →
  length st' = (length st + S (length (OpBase.weights b)))%nat.
Proof.
  intros (_ & _ & _ & _ & new & -> & Hn & _).
  by rewrite length_app, update_all_length, Hn.
Qed.

Lemma built_old nm inputs st b st' h :
  Assembly.built nm inputs st b st' → (h < length st)%nat →
  st' !! h = Nat.iter (count_occ Nat.eq_dec inputs h) Tensor.add_user <$>
             st !! h.
Proof.
  intros (_ & _ & _ & _ & new & -> & _ & _) Hh.
  rewrite lookup_app_l by (by rewrite update_all_length).
  apply update_all_lookup.
Qed.

Lemma built_new nm inputs st b st' h x :
  Assembly.built nm inputs st b st' → (length st ≤ h)%nat →
  st' !! h = Some x → Assembly.fresh nm x.
Proof.
  intros (_ & _ & _ & _ & new & -> & _ & Hf) Hh Hx.
  rewrite lookup_app_r in Hx by (by rewrite update_all_length).
  rewrite Forall_lookup in Hf. by eapply Hf.
Qed.

Lemma ordered_snoc input st st' op : ∀ rest ran,
  Wiring.ordered input ran rest st →
  (∀ op0, op0 ∈ rest → Wiring.output_ok op0 st → Wiring.output_ok op0 st') →
  (∀ h, h ∈ OpBase.inputs (Operator.base op) →
        h ∈ Wiring.produced input (ran ++ rest)) →
  (∀ h, h ∈ OpBase.outputs (Operator.base op) →
        h ∉ Wiring.produced input (ran ++ rest)) →
  Wiring.output_ok op st' →
  Wiring.ordered input ran (rest ++ [op]) st'.
Proof.
  induction rest as [|op1 rest IH]; intros ran Ho Hok Hin Hout Hop.
  - rewrite app_nil_r in Hin, Hout. cbn. done.
  - destruct Ho as (H1 & H2 & H3 & H4). cbn. split_and!; [done..| |].
    + apply Hok; [apply list_elem_of_here|done].
    + apply IH; [done| | | |done].
      * intros op0 Hop0. apply Hok. by apply list_elem_of_further.
      * by rewrite <- app_assoc.
      * by rewrite <- app_assoc.
Qed.

Lemma produced_output input ops op h :
  op ∈ ops → h ∈ OpBase.outputs (Operator.base op) →
  h ∈ Wiring.produced input ops.
Proof.
  intros Hop Hh. unfold Wiring.produced. apply list_elem_of_further.
  induction ops as [|op1 ops IH]; [by apply elem_of_nil in Hop|].
  cbn. apply elem_of_app.
  apply elem_of_cons in Hop as [->|Hop]; [by left|right; by apply IH].
Qed.

(** What holds of operators assembled so far: the tensors produced are in
    the arena, the declared counts are the numbers of slots, nobody is
    pending, outputs are not shared, and the order is as [ordered] asks. *)
Lemma assembled_inv input ops st :
  Assembly.assembled input ops st →
  (∀ h, h ∈ Wiring.produced input ops → (h < length st)%nat) ∧
  (∀ h x, st !! h = Some x →
     Tensor.usr_count x = Wiring.uses ops h ∧ Tensor.cur_count x = 0) ∧
  (∀ h, (length st ≤ h)%nat → Wiring.uses ops h = 0) ∧
  (∀ op o x, op ∈ ops → o ∈ OpBase.outputs (Operator.base op) →
     st !! o = Some x → Tensor.shared x = false) ∧
  Wiring.ordered input [] ops st.
Proof.
  induction 1 as [st Hi Hz|ops st c device nm inputs op st' Ha IH Hin Hmk].
  - split_and!.
    + intros h Hh. unfold Wiring.produced in Hh. cbn in Hh.
      apply list_elem_of_singleton in Hh. by subst.
    + intros h x Hx. rewrite Forall_lookup in Hz. by apply (Hz h x).
    + done.
    + intros op o x Hop. by apply elem_of_nil in Hop.
    + done.
  - destruct IH as (I1 & I2 & I3 & I4 & I5).
    pose proof (built_make_op _ _ _ _ _ _ _ Hmk) as Hb.
    pose proof (built_length _ _ _ _ _ Hb) as Hlen.
    pose proof Hb as (Hnm & Hins & Houts & Hws & Hnew).
    assert (Hcount : ∀ h, (length st ≤ h)%nat →
              count_occ Nat.eq_dec inputs h = 0%nat).
    { intros h Hh. apply count_occ_elem. intros Hi.
      apply Hin, I1 in Hi. lia. }
    assert (Huses : ∀ h, Wiring.uses (ops ++ [op]) h =
              Wiring.uses ops h + Z.of_nat (count_occ Nat.eq_dec inputs h)).
    { intros h. rewrite uses_app. cbn. rewrite Hins. lia. }
    assert (I4' : ∀ op0 o x, op0 ∈ ops ++ [op] →
              o ∈ OpBase.outputs (Operator.base op0) →
              st' !! o = Some x → Tensor.shared x = false).
    { intros op0 o x Hop0 Ho Hx.
      apply elem_of_app in Hop0 as [Hop0|Hop0].
      - assert (o < length st)%nat as Hlt.
        { apply I1. by apply (produced_output _ _ op0). }
        rewrite (built_old _ _ _ _ _ _ Hb Hlt) in Hx.
        destruct (st !! o) as [x0|] eqn:Ex0; [|done].
        injection Hx as <-.
        destruct (iter_add_user (count_occ Nat.eq_dec inputs o) x0)
          as (_ & _ & ->).
        by eapply I4.
      - apply list_elem_of_singleton in Hop0 as ->.
        rewrite Houts in Ho. apply list_elem_of_singleton in Ho as ->.
        by destruct (built_new _ _ _ _ _ _ _ Hb (le_n _) Hx)
          as (_ & _ & _ & ? & _). }
    split_and!.
    + intros h [Hh|Hh]%produced_snoc.
      * apply I1 in Hh. lia.
      * rewrite Houts in Hh. apply list_elem_of_singleton in Hh. lia.
    + intros h x Hx. rewrite Huses.
      destruct (decide (h < length st)%nat) as [Hlt|Hge].
      * rewrite (built_old _ _ _ _ _ _ Hb Hlt) in Hx.
        destruct (st !! h) as [x0|] eqn:Ex0; [|done].
        injection Hx as <-.
        destruct (iter_add_user (count_occ Nat.eq_dec inputs h) x0)
          as (-> & -> & _).
        destruct (I2 h x0 Ex0) as [-> ->]. done.
      * destruct (built_new _ _ _ _ _ h x Hb ltac:(lia) Hx)
          as (_ & -> & -> & _).
        rewrite I3, Hcount by lia. done.
    + intros h Hh. rewrite Huses, I3, Hcount by lia. done.
    + exact I4'.
    + apply (ordered_snoc input st st' op ops []); [done| | | |].
      * intros op0 Hop0 Hok.
        assert (Hsh : ∀ o x, o ∈ OpBase.outputs (Operator.base op0) →
                  st' !! o = Some x → Tensor.shared x = true →
                  Tensor.usr_count x = 0).
        { intros o x Ho Hx Hs. rewrite (I4' op0 o x) in Hs;
            [discriminate|apply elem_of_app; by left|done..]. }
        destruct op0 as [b|m|m|r|a|e]; try exact Hsh. exact Hok.
      * intros h Hh. rewrite Hins in Hh. by apply Hin.
      * intros h Hh Hp. rewrite Houts in Hh.
        apply list_elem_of_singleton in Hh as ->. apply I1 in Hp. lia.
      * assert (Hsh : ∀ o x, o ∈ OpBase.outputs (Operator.base op) →
                  st' !! o = Some x → Tensor.shared x = true →
                  Tensor.usr_count x = 0).
        { intros o x Ho Hx Hs. rewrite (I4' op o x) in Hs;
            [discriminate|apply elem_of_app; right;
                          apply list_elem_of_here|done..]. }
        destruct op as [b|m|m|r|a|e]; try exact Hsh.
        by exists (length st).
Qed.

(** X3. Operators made by the constructors one after the other, each
    reading the graph input or outputs of operators made before it, form a
    well-formed graph wired as the pass expects: every declared consumer
    count is the number of input slots holding the tensor, and no consumer
    is pending. *)
Theorem assembled_graph_wired g st :
  Assembly.assembled (Graph.m_input g) (Graph.oprs g) st →
  Wiring.well_formed g st ∧ Wiring.wired g st ∧ Wiring.idle st.
Proof.
  intros (_ & I2 & _ & _ & I5)%assembled_inv. split_and!.
  - exact I5.
  - intros h x Hx. by destruct (I2 h x Hx).
  - intros h x Hx. by destruct (I2 h x Hx).
Qed.

(** The derivation for [tiny_graph]: the embedding, the attention and
    the projection, made in this order. *)
Ltac tiny_graph_assembled :=
  eapply (Assembly.assembled_snoc 0%nat [_; _] _ (MatMulC [16; 16] false)
            cpu "l0.wo" [3%nat]);
    [ eapply (Assembly.assembled_snoc 0%nat [_] _
                (LlamaAttentionC 16 4 8 4 0 Float32 false false Mode0)
                cpu "l0" [1%nat]);
        [ eapply (Assembly.assembled_snoc 0%nat [] [Tensor.make "tokens"]
                    (EmbeddingC 16 100 Float32) cpu "tok_embeddings"
                    [0%nat]);
            [ apply Assembly.assembled_nil; [cbn; lia|];
              apply List.Forall_cons; [|apply List.Forall_nil]; by split
            | intros h ->%list_elem_of_singleton; apply list_elem_of_here
            | vm_compute; reflexivity ]
        | intros h ->%list_elem_of_singleton;
          apply list_elem_of_further, list_elem_of_here
        | vm_compute; reflexivity ]
    | intros h ->%list_elem_of_singleton;
      do 2 apply list_elem_of_further; apply list_elem_of_here
    | vm_compute; reflexivity ].

Lemma assembled_graph_wired_witness :
  ∃ g st, tiny_graph = Ok (g, st) ∧
    Wiring.well_formed g st ∧ Wiring.wired g st ∧ Wiring.idle st.
Proof.
  eexists _, _. split; [vm_compute; reflexivity|].
  apply assembled_graph_wired. tiny_graph_assembled.
Defined.

(** ** The attention module *)

Lemma attention_ctor_make_op k device nm inputs embd r nr_ctx head layer_id
    compt_type fused bias mode st :
  make_op
    match k with
    | LlamaAttentionT =>
        LlamaAttentionC embd r nr_ctx head layer_id compt_type fused bias mode
    | GlmAttentionT =>
        GlmAttentionC embd r nr_ctx head layer_id compt_type fused bias mode
    | Glm2MultiQueryAttentionT =>
        Glm2MultiQueryAttentionC embd r nr_ctx head layer_id compt_type fused
          bias mode
    end device nm inputs st =
  '(a, st) ← attention_ctor k device nm inputs embd r nr_ctx head layer_id
               compt_type fused bias mode st;
  Ok (AttentionOp a, st).
Proof. by destruct k. Qed.

(** The two operators of an attention module, as [make_op] makes them. *)
Lemma AttentionModule_ctor_inv k x embd head n_rot n_ctx compt_type device nm
    layer_id fused bias mode same_bias st m st' :
  AttentionModule.ctor (attention_ctor k) x embd head n_rot n_ctx compt_type
    device nm layer_id fused bias mode same_bias st = Ok (m, st') →
  ∃ a st1 mm,
    make_op
      match k with
      | LlamaAttentionT =>
          LlamaAttentionC embd n_rot n_ctx head layer_id compt_type fused
            bias mode
      | GlmAttentionT =>
          GlmAttentionC embd n_rot n_ctx head layer_id compt_type fused bias
            mode
      | Glm2MultiQueryAttentionT =>
          Glm2MultiQueryAttentionC embd n_rot n_ctx head layer_id compt_type
            fused bias mode
      end device nm [x] st = Ok (AttentionOp a, st1) ∧
    make_op (MatMulC [embd; embd] (if same_bias then bias else negb bias))
      device (nm +:+ ".wo") [length st] st1 = Ok (MatMulOp mm, st') ∧
    m = OprModuleBase.mk nm [x] (Some (length st1))
          [AttentionOp a; MatMulOp mm] OprModuleBase.AttentionModule ∧
    head ≠ 0 ∧ embd mod head = 0.
Proof.
  intros H. unfold AttentionModule.ctor in H.
  case_bool_decide as Hh; [discriminate|].
  case_bool_decide as Hm; cbn [mbind res_bind lookup list_lookup INFER_ASSERT]
    in H; [|discriminate].
  pose proof (attention_ctor_make_op k device nm [x] embd n_rot n_ctx head
                layer_id compt_type fused bias mode st) as Hc.
  destruct (attention_ctor k device nm [x] embd n_rot n_ctx head layer_id
              compt_type fused bias mode st) as [[a st1]| |] eqn:EA;
    cbn [mbind res_bind lookup list_lookup INFER_ASSERT]
    in H; try discriminate.
  cbn in Hc.
  destruct (built_make_op _ _ _ _ _ _ _ Hc) as (_ & _ & Ho & _).
  cbn in Ho. unfold at_ in H. rewrite Ho in H. cbn [mbind res_bind lookup list_lookup INFER_ASSERT]
    in H.
  destruct (MatMul.ctor device (nm +:+ ".wo") [length st] [embd; embd]
              (if same_bias then bias else negb bias) st1)
    as [[mm st2]| |] eqn:EM; cbn [mbind res_bind lookup list_lookup INFER_ASSERT]
    in H; try discriminate.
  assert (Hmm : make_op
            (MatMulC [embd; embd] (if same_bias then bias else negb bias))
            device (nm +:+ ".wo") [length st] st1 = Ok (MatMulOp mm, st2))
    by (cbn [make_op]; by rewrite EM).
  destruct (built_make_op _ _ _ _ _ _ _ Hmm) as (_ & _ & Ho2 & _).
  cbn in Ho2. rewrite Ho2 in H. cbn [mbind res_bind lookup list_lookup INFER_ASSERT]
    in H. injection H as <- <-.
  exists a, st1, mm. split_and!; done.
Qed.

(** X4. An attention module extends an assembled graph by two
    operators: the attention, reading the module input, and the output
    projection, reading the attention output and nothing else.  The output
    of the module is the output of the projection, and the attention
    output has exactly one declared consumer. *)
Theorem AttentionModule_ctor_assembles k input ops x embd head n_rot n_ctx
    compt_type device nm layer_id fused bias mode same_bias st m st' :
  Assembly.assembled input ops st →
  x ∈ Wiring.produced input ops →
  AttentionModule.ctor (attention_ctor k) x embd head n_rot n_ctx compt_type
    device nm layer_id fused bias mode same_bias st = Ok (m, st') →
  Assembly.assembled input (ops ++ OprModuleBase.m_oprs m) st' ∧
  ∃ a mm v_out proj_out t,
    OprModuleBase.m_oprs m = [AttentionOp a; MatMulOp mm] ∧
    OpBase.inputs (AttentionBase.base a) = [x] ∧
    OpBase.outputs (AttentionBase.base a) = [v_out] ∧
    OpBase.inputs (MatMul.base mm) = [v_out] ∧
    OpBase.outputs (MatMul.base mm) = [proj_out] ∧
    OprModuleBase.m_output m = Some proj_out ∧
    (proj_out ∉ Wiring.produced input ops) ∧ proj_out ≠ v_out ∧
    st' !! v_out = Some t ∧ Tensor.usr_count t = 1.
Proof.
  intros Ha Hx H.
  apply AttentionModule_ctor_inv in H
    as (a & st1 & mm & Hc & Hmm & -> & _ & _).
  pose proof (built_make_op _ _ _ _ _ _ _ Hc) as Hb1.
  pose proof (built_make_op _ _ _ _ _ _ _ Hmm) as Hb2.
  pose proof Hb1 as (_ & Hi1 & Ho1 & _). pose proof Hb2 as (_ & Hi2 & Ho2 & _).
  cbn in Hi1, Ho1, Hi2, Ho2.
  assert (Ha1 : Assembly.assembled input (ops ++ [AttentionOp a]) st1).
  { eapply Assembly.assembled_snoc; [exact Ha| |exact Hc].
    by intros h ->%list_elem_of_singleton. }
  assert (Ha2 : Assembly.assembled input
                  (ops ++ [AttentionOp a; MatMulOp mm]) st').
  { replace (ops ++ [AttentionOp a; MatMulOp mm])
      with ((ops ++ [AttentionOp a]) ++ [MatMulOp mm])
      by (by rewrite <- app_assoc).
    eapply Assembly.assembled_snoc; [exact Ha1| |exact Hmm].
    intros h ->%list_elem_of_singleton. apply produced_snoc. right.
    cbn. rewrite Ho1. apply list_elem_of_here. }
  split; [exact Ha2|].
  destruct (assembled_inv _ _ _ Ha) as (I1 & _ & I3 & _).
  destruct (assembled_inv _ _ _ Ha2) as (J1 & J2 & _).
  pose proof (built_length _ _ _ _ _ Hb1) as Hl1.
  assert (Hv : (length st < length st')%nat).
  { pose proof (built_length _ _ _ _ _ Hb2). lia. }
  destruct (lookup_lt_is_Some_2 st' (length st) Hv) as [t Ht].
  exists a, mm, (length st), (length st1), t.
  split_and!; try done.
  - intros Hp. apply I1 in Hp. lia.
  - lia.
  - destruct (J2 _ _ Ht) as [-> _]. rewrite uses_app, I3 by lia.
    cbn. rewrite Hi1, Hi2. cbn.
    apply I1 in Hx.
    destruct (Nat.eq_dec x (length st)) as [->|_]; [lia|].
    destruct (Nat.eq_dec (length st) (length st)); [done|lia].
Qed.

Lemma AttentionModule_ctor_assembles_witness :
  ∃ m st', llama_block = Ok (m, st') ∧
    Assembly.assembled 0%nat ([] ++ OprModuleBase.m_oprs m) st' ∧
    ∃ t, st' !! 1%nat = Some t ∧ Tensor.usr_count t = 1.
Proof.
  eexists _, _. split; [vm_compute; reflexivity|].
  edestruct (AttentionModule_ctor_assembles LlamaAttentionT 0%nat [] 0%nat
               16 4 4 8 Float32 cpu "l0" 0 false false Mode0 true
               [activation "x" [3; 16]])
    as (Ha & a & mm & v_out & proj_out & t & Hops & Hi & Ho & _ & _ & _ & _
        & _ & Ht & Hu).
  - apply Assembly.assembled_nil; [cbn; lia|].
    apply List.Forall_cons; [|apply List.Forall_nil]. by split.
  - apply list_elem_of_here.
  - vm_compute. reflexivity.
  - split; [exact Ha|]. exists t. split; [|exact Hu].
    injection Hops as <- _. injection Ho as <-. exact Ht.
Defined.

(** X5. The outcome of making an attention module on an input that is a
    tensor of the arena: a zero head count is a division by zero; a head
    count that does not divide [embd] is fatal before any operator is
    made; the multi-query-group attention without fused weights is fatal;
    every other module is made. *)
Theorem AttentionModule_ctor_outcome k x embd head n_rot n_ctx compt_type
    device nm layer_id fused bias mode same_bias st :
  is_Some (st !! x) →
  let r := AttentionModule.ctor (attention_ctor k) x embd head n_rot n_ctx
             compt_type device nm layer_id fused bias mode same_bias st in
  if bool_decide (head = 0) then r = Undefined
  else if bool_decide (embd mod head = 0) then
    match k with
    | Glm2MultiQueryAttentionT =>
        if fused then is_ok r = true
        else r = Fatal "Glm2MultiQueryAttention only support fused weights."
    | _ => is_ok r = true
    end
  else r = Fatal "Embedding and head is not match.".
Proof.
  intros _. cbv zeta. unfold AttentionModule.ctor.
  case_bool_decide as Hh; [done|].
  case_bool_decide as Hm; [|done].
  destruct k, fused, bias, same_bias; cbn [attention_ctor negb];
    ctor_unfold; unfold Glm2MultiQueryAttention.udiv32, INFER_ASSERT;
    rewrite ?(bool_decide_eq_false_2 (head = 0)) by done;
    reflexivity.
Qed.

Lemma AttentionModule_ctor_outcome_witness :
  AttentionModule.ctor LlamaAttention.ctor 0%nat 16 0 4 8 Float32 cpu "l0" 0
    false false Mode0 true [activation "x" [3; 16]] = Undefined ∧
  AttentionModule.ctor LlamaAttention.ctor 0%nat 16 3 4 8 Float32 cpu "l0" 0
    false false Mode0 true [activation "x" [3; 16]] =
    Fatal "Embedding and head is not match." ∧
  AttentionModule.ctor Glm2MultiQueryAttention.ctor 0%nat 16 4 2 8 Float32
    cpu "l0" 0 false false Mode0 true [activation "x" [3; 16]] =
    Fatal "Glm2MultiQueryAttention only support fused weights." ∧
  is_ok llama_block = true.
Proof.
  assert (H : is_Some ([activation "x" [3; 16]] !! 0%nat)) by (by eexists).
  split_and!.
  - exact (AttentionModule_ctor_outcome LlamaAttentionT 0%nat 16 0 4 8
             Float32 cpu "l0" 0 false false Mode0 true _ H).
  - exact (AttentionModule_ctor_outcome LlamaAttentionT 0%nat 16 3 4 8
             Float32 cpu "l0" 0 false false Mode0 true _ H).
  - exact (AttentionModule_ctor_outcome Glm2MultiQueryAttentionT 0%nat 16 4 2
             8 Float32 cpu "l0" 0 false false Mode0 true _ H).
  - exact (AttentionModule_ctor_outcome LlamaAttentionT 0%nat 16 4 4 8
             Float32 cpu "l0" 0 false false Mode0 true _ H).
Defined.

(** ** The names of the weights *)

Lemma lookup_app_new (st new : Arena) k :
  (st ++ new) !! (length st + k)%nat = new !! k.
Proof. rewrite lookup_app_r by lia. f_equal. lia. Qed.

(** The weights of an operator carry the operator's name followed by the
    endings of its class. *)
Lemma make_op_weight_names c device nm inputs st op st' :
  make_op c device nm inputs st = Ok (op, st') →
  (fun w => Tensor.name <$> st' !! w) <$> OpBase.weights (Operator.base op) =
  (fun s => Some (nm +:+ s)) <$> weight_suffixes c.
Proof.
  intros H.
  remember (update_all Tensor.add_user inputs st) as st0 eqn:E.
  destruct c; cbn [make_op] in H; ctor_unfold; rewrite <- E in H;
    repeat match goal with b : bool |- _ => destruct b end;
    try match goal with l : list Z |- _ => destruct l end;
    unfold Glm2MultiQueryAttention.udiv32, INFER_ASSERT in H;
    try match type of H with
        | context [bool_decide ?P] => destruct (bool_decide P)
        end;
    do 3 (ctor_simpl; arena_norm_in H);
    try discriminate H;
    injection H as <- <-;
    cbn [Operator.base LayerNorm.base MatMul.base Reshape.base
         Elemwise.base Embedding.base AttentionBase.base
         AttentionBase.set_storage OpBase.weights OpBase.m_weights
         fmap list_fmap weight_suffixes app];
    rewrite ?lookup_app_new; reflexivity.
Qed.

Lemma append_assoc_string (s1 s2 s3 : string) :
  (s1 +:+ s2) +:+ s3 = s1 +:+ (s2 +:+ s3).
Proof.
  induction s1 as [|c s1 IH]; [done|].
  change (String c ((s1 +:+ s2) +:+ s3) = String c (s1 +:+ s2 +:+ s3)).
  by rewrite IH.
Qed.

Lemma iter_add_user_name n x :
  Tensor.name (Nat.iter n Tensor.add_user x) = Tensor.name x.
Proof. induction n as [|n IH]; [done|]. by rewrite Nat.iter_succ. Qed.

(** Making an operator leaves the names of the tensors there are. *)
Lemma built_old_name nm inputs st b st' h :
  Assembly.built nm inputs st b st' → (h < length st)%nat →
  Tensor.name <$> st' !! h = Tensor.name <$> st !! h.
Proof.
  intros Hb Hh. rewrite (built_old _ _ _ _ _ _ Hb Hh).
  destruct (st !! h) as [x|]; cbn; [|done]. by rewrite iter_add_user_name.
Qed.

(** X6. The weights of an attention module, as [get_all_weights] lists
    them, are tensors of the arena, and no two of them carry the same
    name. *)
Theorem AttentionModule_weight_names_distinct k x embd head n_rot n_ctx
    compt_type device nm layer_id fused bias mode same_bias st m st' :
  AttentionModule.ctor (attention_ctor k) x embd head n_rot n_ctx compt_type
    device nm layer_id fused bias mode same_bias st = Ok (m, st') →
  Forall (fun w => is_Some (st' !! w)) (OprModuleBase.get_all_weights m) ∧
  NoDup ((fun w => Tensor.name <$> st' !! w) <$>
         OprModuleBase.get_all_weights m).
Proof.
  intros H.
  apply AttentionModule_ctor_inv in H
    as (a & st1 & mm & Hc & Hmm & -> & _ & _).
  pose proof (built_make_op _ _ _ _ _ _ _ Hc) as Hb1.
  pose proof (built_make_op _ _ _ _ _ _ _ Hmm) as Hb2.
  pose proof (built_length _ _ _ _ _ Hb1) as Hl1.
  pose proof Hb1 as (_ & _ & _ & Hw1 & _).
  pose proof (make_op_weight_names _ _ _ _ _ _ _ Hc) as Hn1.
  pose proof (make_op_weight_names _ _ _ _ _ _ _ Hmm) as Hn2.
  cbn [Operator.base] in *.
  assert (Hold : (fun w => Tensor.name <$> st' !! w) <$>
                   OpBase.weights (AttentionBase.base a) =
                 (fun w => Tensor.name <$> st1 !! w) <$>
                   OpBase.weights (AttentionBase.base a)).
  { apply list_fmap_ext. intros i w Hw.
    apply (built_old_name _ _ _ _ _ _ Hb2).
    rewrite Hw1 in Hw. apply lookup_seq in Hw as [-> Hi]. lia. }
  assert (Hall : (fun w => Tensor.name <$> st' !! w) <$>
                   OprModuleBase.get_all_weights
                     (OprModuleBase.mk nm [x] (Some (length st1))
                        [AttentionOp a; MatMulOp mm]
                        OprModuleBase.AttentionModule) =
                 Some <$> ((String.append nm) <$>
                   (weight_suffixes
                      match k with
                      | LlamaAttentionT =>
                          LlamaAttentionC embd n_rot n_ctx head layer_id
                            compt_type fused bias mode
                      | GlmAttentionT =>
                          GlmAttentionC embd n_rot n_ctx head layer_id
                            compt_type fused bias mode
                      | Glm2MultiQueryAttentionT =>
                          Glm2MultiQueryAttentionC embd n_rot n_ctx head
                            layer_id compt_type fused bias mode
                      end ++
                    (String.append ".wo" <$>
                       weight_suffixes
                         (MatMulC [embd; embd]
                            (if same_bias then bias else negb bias)))))).
  { unfold OprModuleBase.get_all_weights.
    cbn [foldl OprModuleBase.m_oprs Operator.base app].
    rewrite !fmap_app, Hold, Hn1, Hn2, <- !list_fmap_compose.
    f_equal. apply list_fmap_ext. intros i s _. cbn.
    by rewrite append_assoc_string. }
  split.
  - apply Forall_lookup. intros i w Hw.
    apply (f_equal (fun l => l !! i)) in Hall.
    rewrite !list_lookup_fmap, Hw in Hall. cbn in Hall.
    destruct (st' !! w); [done|].
    cbn in Hall. by destruct (_ !! i).
  - rewrite Hall. apply (NoDup_fmap_2 _). apply (NoDup_fmap_2 _).
    destruct k, fused, bias, same_bias; cbn;
      apply (bool_decide_unpack _); by vm_compute.
Qed.

Lemma AttentionModule_weight_names_distinct_witness :
  ∃ m st', llama_block = Ok (m, st') ∧
    NoDup ((fun w => Tensor.name <$> st' !! w) <$>
           OprModuleBase.get_all_weights m).
Proof.
  eexists _, _. split; [vm_compute; reflexivity|].
  refine (proj2 (AttentionModule_weight_names_distinct LlamaAttentionT 0%nat
                   16 4 4 8 Float32 cpu "l0" 0 false false Mode0 true
                   [activation "x" [3; 16]] _ _ _)).
  vm_compute. reflexivity.
Defined.

Lemma weight_suffixes_NoDup c : NoDup (weight_suffixes c).
Proof.
  destruct c; cbn [weight_suffixes];
    repeat match goal with b : bool |- _ => destruct b end;
    apply (bool_decide_unpack _); by vm_compute.
Qed.

(** Within one operator, a name identifies the weight. *)
Lemma make_op_weight_names_inj c device nm inputs st op st' i j w w' t t' :
  make_op c device nm inputs st = Ok (op, st') →
  OpBase.weights (Operator.base op) !! i = Some w →
  OpBase.weights (Operator.base op) !! j = Some w' →
  st' !! w = Some t → st' !! w' = Some t' →
  Tensor.name t = Tensor.name t' → i = j.
Proof.
  intros H Hi Hj Ht Ht' Hn.
  pose proof (make_op_weight_names _ _ _ _ _ _ _ H) as Hnames.
  assert (Hnd : NoDup ((fun w => Tensor.name <$> st' !! w) <$>
                       OpBase.weights (Operator.base op))).
  { rewrite Hnames.
    rewrite (list_fmap_compose (String.append nm) Some).
    apply (NoDup_fmap_2 _), (NoDup_fmap_2 _), weight_suffixes_NoDup. }
  eapply (NoDup_lookup _ i j (Some (Tensor.name t))); [exact Hnd|..].
  - by rewrite list_lookup_fmap, Hi; cbn; rewrite Ht.
  - by rewrite list_lookup_fmap, Hj; cbn; rewrite Ht', Hn.
Qed.

(** The weights an operator may ask to have repacked are there once the
    operator is made. *)
Lemma make_op_candidates_present c device nm inputs st op st' :
  make_op c device nm inputs st = Ok (op, st') → candidates_present op st'.
Proof.
  intros H.
  remember (update_all Tensor.add_user inputs st) as st0 eqn:E.
  destruct c; cbn [make_op] in H; ctor_unfold; rewrite <- E in H;
    repeat match goal with b : bool |- _ => destruct b end;
    try match goal with l : list Z |- _ => destruct l end;
    unfold Glm2MultiQueryAttention.udiv32, INFER_ASSERT in H;
    try match type of H with
        | context [bool_decide ?P] => destruct (bool_decide P)
        end;
    do 3 (ctor_simpl; arena_norm_in H);
    try discriminate H;
    injection H as <- <-; try exact I;
    cbn [candidates_present MatMul.base AttentionBase.base
         AttentionBase.set_storage OpBase.weights OpBase.m_weights
         AttentionBase.m_fused_weights];
    try (eexists; split; [reflexivity|];
         rewrite lookup_app_new; by eexists);
    intros j Hj;
    repeat (destruct j as [|j];
            [eexists; split; [reflexivity|];
             rewrite lookup_app_new; by eexists|]);
    lia.
Qed.

(** X7. An operator never asks to have a tensor repacked that carries the
    name of one of its weights other than the candidates (a bias of a matrix
    multiply or of an attention): whatever element type and leading
    dimension the tensor has, and whatever the device supports, the answer
    is false. *)
Theorem other_weights_never_preprocessed c device nm inputs st op st' j w t
    weight :
  make_op c device nm inputs st = Ok (op, st') →
  OpBase.weights (Operator.base op) !! j = Some w →
  w ∉ reorder_candidates op →
  st' !! w = Some t →
  Tensor.name weight = Tensor.name t → Tensor.shape weight ≠ [] →
  Operator.need_preprocess_weight op st' weight = Ok false.
Proof.
  intros H Hj Hnc Ht Hn Hs.
  destruct (Tensor.shape weight) as [|M rest] eqn:Hshape; [done|]. clear Hs.
  pose proof (make_op_candidates_present _ _ _ _ _ _ _ H) as Hcp.
  assert (Hno : ¬ names_candidate op st' weight).
  { intros (w' & wt' & Hin & Hwt' & Hn').
    assert (∃ i, OpBase.weights (Operator.base op) !! i = Some w') as [i Hi].
    { destruct op as [b|m|m|r|a|e]; cbn in Hin;
        try (by apply elem_of_nil in Hin);
        apply elem_of_take_inv in Hin as (i & _ & Hi); by exists i. }
    assert (i = j) as ->.
    { eapply (make_op_weight_names_inj _ _ _ _ _ _ _ _ _ _ _ _ _ H Hi Hj
                Hwt' Ht). congruence. }
    assert (w' = w) as -> by congruence. done. }
  destruct op as [b|m|m|r|a|e]; try reflexivity.
  - cbn in Hcp. destruct Hcp as (w0 & Hw0 & [t0 Ht0]).
    cbn [Operator.need_preprocess_weight].
    rewrite (MatMul_need_preprocess_weight_eq _ _ _ _ _ _ _ Hw0 Ht0 Hshape).
    rewrite bool_decide_eq_false_2; [done|].
    intros Hn0. apply Hno. exists w0, t0. split_and!; [|done..].
    by eapply elem_of_take_lookup; [|done]; lia.
  - cbn [Operator.need_preprocess_weight].
    destruct (Attention_need_preprocess_weight_eq a st' weight M rest Hcp
                Hshape) as ([] & Hrw & ->).
    + exfalso. by apply Hno, Hrw.
    + by destruct (supported_optimization _ _), (bool_decide (_ = Int4)).
Qed.

Lemma other_weights_never_preprocessed_witness :
  ∃ op st' t,
    make_op (MatMulC [32; 16] true) cpu "proj" [0%nat]
      [activation "x" [5; 16]] = Ok (op, st') ∧
    st' !! 3%nat = Some t ∧ Tensor.name t = "proj.bias" ∧
    Operator.need_preprocess_weight op st'
      (Tensor.set_shape [32] (Some Int4) t) = Ok false.
Proof.
  eexists _, _, _. split; [vm_compute; reflexivity|].
  split; [vm_compute; reflexivity|]. split; [reflexivity|].
  eapply (other_weights_never_preprocessed (MatMulC [32; 16] true) cpu
            "proj" [0%nat] [activation "x" [5; 16]] _ _ 1%nat 3%nat).
  - vm_compute. reflexivity.
  - reflexivity.
  - cbn. intros Hin. apply list_elem_of_singleton in Hin. discriminate Hin.
  - reflexivity.
  - reflexivity.
  - discriminate.
Defined.

(** ** Reshape: element counts and zero entries *)

Lemma wildcards_nonneg ts : 0 ≤ Reshape.wildcards ts.
Proof. induction ts as [|d ts IH]; cbn; [done|]. case_bool_decide; lia. Qed.

Lemma solved_product_0 q ts :
  Reshape.wildcards ts = 0 →
  foldr Z.mul 1 (Reshape.solved q ts) = Reshape.fixed_product ts.
Proof.
  induction ts as [|d ts IH]; [done|].
  cbn [Reshape.wildcards Reshape.fixed_product Reshape.solved map foldr].
  fold (Reshape.solved q ts). intros Hw.
  pose proof (wildcards_nonneg ts).
  case_bool_decide; [lia|]. rewrite IH by lia. done.
Qed.

Lemma solved_product_1 q ts :
  Reshape.wildcards ts = 1 →
  foldr Z.mul 1 (Reshape.solved q ts) = q * Reshape.fixed_product ts.
Proof.
  induction ts as [|d ts IH]; [done|].
  cbn [Reshape.wildcards Reshape.fixed_product Reshape.solved map foldr].
  fold (Reshape.solved q ts). intros Hw.
  case_bool_decide.
  - rewrite solved_product_0 by lia. lia.
  - rewrite IH by lia. lia.
Qed.

(** X8. A reshape that succeeds gives its output as many elements as its
    input has, and the input's element type: the target then has exactly
    one wildcard, and the fixed entries divide the element count. *)
Theorem Reshape_preserves_length r st st' i it o ot' :
  OpBase.inputs (Reshape.base r) !! 0%nat = Some i → st !! i = Some it →
  OpBase.outputs (Reshape.base r) !! 0%nat = Some o →
  Reshape.fixed_dims_positive (Reshape.m_target_shape r) →
  Reshape.deduce_output_shape r st = Ok st' →
  st' !! o = Some ot' →
  Reshape.wildcards (Reshape.m_target_shape r) = 1 ∧
  (Reshape.fixed_product (Reshape.m_target_shape r) | Tensor.length it) ∧
  foldr Z.mul 1 (Tensor.shape ot') = Tensor.length it ∧
  Tensor.length ot' = Tensor.length it ∧
  Tensor.dtype ot' = Tensor.dtype it.
Proof.
  intros Hi Hit Ho Hpos H Hot'. unfold Reshape.deduce_output_shape in H.
  rewrite (at_Ok _ _ _ Hi) in H. cbn in H.
  rewrite (at_Ok _ _ _ Hit) in H. cbn in H.
  rewrite (out_shape_spec _ _ Hpos) in H.
  destruct (decide (_ | _)) as [Hdiv|]; [|done].
  destruct (decide (_ = 1)) as [Hw|]; [|done].
  cbn in H. rewrite (at_Ok _ _ _ Ho) in H. cbn in H. injection H as <-.
  rewrite update_lookup in Hot'.
  destruct (st !! o) as [ot|]; [|done]. injection Hot' as <-.
  assert (Hprod : foldr Z.mul 1
            (Reshape.solved
               (Tensor.length it /
                Reshape.fixed_product (Reshape.m_target_shape r))
               (Reshape.m_target_shape r)) = Tensor.length it).
  { rewrite solved_product_1 by done.
    destruct Hdiv as [q Hq]. rewrite Hq.
    pose proof (fixed_product_pos _ Hpos).
    rewrite Z.div_mul by lia. done. }
  split_and!; [done|done|exact Hprod| |done].
  unfold Tensor.length at 1. cbn [Tensor.shape Tensor.set_shape].
  rewrite Hprod. unfold Tensor.length, to_size_t. apply Z.mod_mod. lia.
Qed.

Lemma Reshape_preserves_length_witness :
  ∃ r st st' ot',
    Reshape.ctor cpu "view" [0%nat] [2; -1; 4]
      [activation "x" [3; 16]] = (r, st) ∧
    Reshape.deduce_output_shape r st = Ok st' ∧
    st' !! 1%nat = Some ot' ∧ Tensor.shape ot' = [2; 6; 4] ∧
    Tensor.length ot' = 48.
Proof.
  eexists _, _, _, _. split; [vm_compute; reflexivity|].
  split; [vm_compute; reflexivity|]. split; [vm_compute; reflexivity|].
  split; [reflexivity|].
  edestruct (Reshape_preserves_length
               (Reshape.ctor cpu "view" [0%nat] [2; -1; 4]
                  [activation "x" [3; 16]]).1
               (Reshape.ctor cpu "view" [0%nat] [2; -1; 4]
                  [activation "x" [3; 16]]).2)
    as (_ & _ & _ & Hlen & _);
    [vm_compute; reflexivity | vm_compute; reflexivity
    |vm_compute; reflexivity | fixed_dims
    |vm_compute; reflexivity | vm_compute; reflexivity |].
  exact Hlen.
Defined.

Lemma solve_fixed_zero ts : ∀ i len count out,
  0 ∈ ts →
  Reshape.solve_fixed ts i len count out = Undefined ∨
  Reshape.solve_fixed ts i len count out = Fatal "Reshape error.".
Proof.
  induction ts as [|d ts IH]; intros i len count out Hin.
  - by apply elem_of_nil in Hin.
  - cbn [Reshape.solve_fixed]. case_bool_decide as Hd.
    + case_bool_decide as Hz; [by left|].
      unfold INFER_ASSERT. case_bool_decide; cbn; [|by right].
      apply IH. apply elem_of_cons in Hin as [<-|Hin]; [|done].
      by vm_compute in Hz.
    + apply IH. apply elem_of_cons in Hin as [<-|Hin]; [|done].
      lia.
Qed.

(** X9. A reshape whose target shape has an entry 0 never yields a
    shape: the division by the entry is undefined, unless an earlier entry
    has already failed the divisibility check. *)
Theorem Reshape_zero_entry r st :
  0 ∈ Reshape.m_target_shape r →
  Reshape.deduce_output_shape r st = Undefined ∨
  Reshape.deduce_output_shape r st = Fatal "Reshape error.".
Proof.
  intros Hin. unfold Reshape.deduce_output_shape, at_.
  destruct (OpBase.inputs (Reshape.base r) !! 0%nat) as [i|]; [|by left].
  cbn. destruct (st !! i) as [it|]; [|by left]. cbn.
  unfold Reshape.out_shape.
  destruct (solve_fixed_zero (Reshape.m_target_shape r) 0 (Tensor.length it)
              0 (replicate (length (Reshape.m_target_shape r)) 0) Hin)
    as [-> | ->]; [by left|by right].
Qed.

Lemma Reshape_zero_entry_witness :
  Reshape.deduce_output_shape
    (Reshape.ctor cpu "view" [0%nat] [-1; 0] [activation "x" [3; 16]]).1
    (Reshape.ctor cpu "view" [0%nat] [-1; 0] [activation "x" [3; 16]]).2
  = Undefined.
Proof.
  destruct (Reshape_zero_entry
              (Reshape.ctor cpu "view" [0%nat] [-1; 0]
                 [activation "x" [3; 16]]).1
              (Reshape.ctor cpu "view" [0%nat] [-1; 0]
                 [activation "x" [3; 16]]).2) as [H|H].
  - cbn. apply list_elem_of_further, list_elem_of_here.
  - exact H.
  - vm_compute in H. discriminate H.
Defined.

(** ** Shape inference: ranks, halves and repetition *)

(** X10. The gated activation halves entry 1 of the input shape, rounding
    down, and keeps the other entries and the element type; when the
    entry is even the output has half the elements of the input.  On an
    input shape with fewer than two entries the result is undefined. *)
Theorem SpliteHalfActiveMul_deduce_output_shape_halves s st i it o ot :
  OpBase.inputs (SpliteHalfActiveMul.base s) !! 0%nat = Some i →
  st !! i = Some it →
  OpBase.outputs (SpliteHalfActiveMul.base s) !! 0%nat = Some o →
  st !! o = Some ot →
  match Tensor.shape it with
  | d0 :: d1 :: rest =>
      ∃ st', SpliteHalfActiveMul.deduce_output_shape s st = Ok st' ∧
        st' !! o =
          Some (Tensor.set_shape (d0 :: d1 / 2 :: rest)
                  (Some (Tensor.dtype it)) ot) ∧
        (Z.even d1 = true →
         2 * foldr Z.mul 1 (d0 :: d1 / 2 :: rest) =
         foldr Z.mul 1 (Tensor.shape it))
  | _ => SpliteHalfActiveMul.deduce_output_shape s st = Undefined
  end.
Proof.
  intros Hi Hit Ho Hot. unfold SpliteHalfActiveMul.deduce_output_shape.
  rewrite (at_Ok _ _ _ Hi). cbn. rewrite (at_Ok _ _ _ Hit). cbn.
  destruct (Tensor.shape it) as [|d0 [|d1 rest]] eqn:Hs; [done..|].
  cbn. rewrite (at_Ok _ _ _ Ho). cbn.
  eexists. split; [reflexivity|]. split.
  - by rewrite update_lookup, Hot.
  - intros He. apply Zeven_bool_iff, Zeven_div2 in He.
    rewrite <- Z.div2_div. cbn [foldr]. rewrite He at 2. lia.
Qed.

Lemma SpliteHalfActiveMul_deduce_output_shape_halves_witness :
  ∃ st',
    SpliteHalfActiveMul.deduce_output_shape
      (SpliteHalfActiveMul.ctor cpu "gate" [0%nat] 2
         [activation "x" [3; 64]]).1
      (SpliteHalfActiveMul.ctor cpu "gate" [0%nat] 2
         [activation "x" [3; 64]]).2 = Ok st' ∧
    Tensor.shape <$> st' !! 1%nat = Some [3; 32].
Proof.
  edestruct (SpliteHalfActiveMul_deduce_output_shape_halves
               (SpliteHalfActiveMul.ctor cpu "gate" [0%nat] 2
                  [activation "x" [3; 64]]).1
               (SpliteHalfActiveMul.ctor cpu "gate" [0%nat] 2
                  [activation "x" [3; 64]]).2 0%nat _ 1%nat _
               eq_refl eq_refl eq_refl eq_refl) as (st' & H & Ho & _).
  exists st'. split; [exact H|]. rewrite Ho. reflexivity.
Defined.

(** X11. A matrix multiply has no defined output shape on an input with
    fewer than two dimensions: the row count is read at an index the
    shape does not have.  The last-token variant does not read the input
    shape, and gives one row on the same input. *)
Theorem MatMul_deduce_output_shape_needs_rank m st w wt i it o N K wrest :
  OpBase.weights (MatMul.base m) !! 0%nat = Some w → st !! w = Some wt →
  OpBase.inputs (MatMul.base m) !! 0%nat = Some i → st !! i = Some it →
  OpBase.outputs (MatMul.base m) !! 0%nat = Some o →
  Tensor.shape wt = N :: K :: wrest →
  (length (Tensor.shape it) < 2)%nat →
  MatMul.deduce_output_shape m st = Undefined ∧
  is_ok (MatMulLast.deduce_output_shape m st) = true.
Proof.
  intros Hw Hwt Hi Hit Ho Hs Hr. split.
  - unfold MatMul.deduce_output_shape.
    rewrite (at_Ok _ _ _ Hw). cbn. rewrite (at_Ok _ _ _ Hwt). cbn.
    rewrite (at_Ok _ _ _ Hi). cbn. rewrite (at_Ok _ _ _ Hit). cbn.
    by destruct (Tensor.shape it) as [|d0 [|d1 rest]]; [| |cbn in Hr; lia].
  - unfold MatMulLast.deduce_output_shape.
    rewrite (at_Ok _ _ _ Hw). cbn. rewrite (at_Ok _ _ _ Hwt). cbn.
    rewrite (at_Ok _ _ _ Hi). cbn. rewrite (at_Ok _ _ _ Hit). cbn.
    rewrite Hs. cbn. by rewrite (at_Ok _ _ _ Ho).
Qed.

Lemma MatMul_deduce_output_shape_needs_rank_witness :
  ∃ m st,
    MatMul.ctor cpu "proj" [0%nat] [32; 16] false [activation "x" [16]] =
      Ok (m, st) ∧
    MatMul.deduce_output_shape m st = Undefined ∧
    is_ok (MatMulLast.deduce_output_shape m st) = true.
Proof.
  eexists _, _. split; [vm_compute; reflexivity|].
  eapply (MatMul_deduce_output_shape_needs_rank _ _ 2%nat _ 0%nat _ 1%nat);
    [reflexivity..|]. cbn. lia.
Defined.

Lemma at_elem_of {A} (l : list A) i x : at_ l i = Ok x → x ∈ l.
Proof.
  intros H%at_Ok_inv. apply list_elem_of_lookup. by exists i.
Qed.

Lemma update_update_idem f h (st : Arena) :
  (∀ x, f (f x) = f x) → update f h (update f h st) = update f h st.
Proof.
  intros Hf. apply list_eq. intros h'.
  destruct (decide (h = h')) as [->|Hne].
  - rewrite !update_lookup. destruct (st !! h'); cbn; [|done].
    by rewrite Hf.
  - by rewrite !update_lookup_ne.
Qed.

Lemma at_update_ne f h h' (st : Arena) :
  h ≠ h' → at_ (update f h st) h' = at_ st h'.
Proof. intros Hne. unfold at_. by rewrite update_lookup_ne. Qed.

(** Repeating the shape inference of the classes that [Operator]
    dispatches over. *)
Lemma Operator_deduce_output_shape_idem op st st' :
  (∀ o, OpBase.outputs (Operator.base op) !! 0%nat = Some o →
        (o ∉ OpBase.inputs (Operator.base op)) ∧
        (o ∉ OpBase.weights (Operator.base op))) →
  Operator.deduce_output_shape op st = Ok st' →
  Operator.deduce_output_shape op st' = Ok st'.
Proof.
  intros Hfresh H.
  assert (Hin : ∀ o i, OpBase.outputs (Operator.base op) !! 0%nat = Some o →
            OpBase.inputs (Operator.base op) !! 0%nat = Some i → o ≠ i).
  { intros o i Ho Hi ->. destruct (Hfresh _ Ho) as [Hn _]. apply Hn.
    apply list_elem_of_lookup. by exists 0%nat. }
  assert (Hwn : ∀ o w, OpBase.outputs (Operator.base op) !! 0%nat = Some o →
            OpBase.weights (Operator.base op) !! 0%nat = Some w → o ≠ w).
  { intros o w Ho Hw ->. destruct (Hfresh _ Ho) as [_ Hn]. apply Hn.
    apply list_elem_of_lookup. by exists 0%nat. }
  clear Hfresh.
  destruct op as [b|m|m|r|a|e];
    cbn [Operator.deduce_output_shape Operator.base] in *.
  - unfold OpBase.deduce_output_shape in *.
    apply bind_Ok_inv in H as (o & Ho & H).
    apply bind_Ok_inv in H as (i & Hi & H).
    apply bind_Ok_inv in H as (x & Hx & H). injection H as <-.
    rewrite Ho, Hi. cbn.
    rewrite at_update_ne, Hx by (by apply Hin; apply at_Ok_inv). cbn.
    by rewrite update_update_idem.
  - unfold MatMul.deduce_output_shape in *.
    apply bind_Ok_inv in H as (w & Hw & H).
    apply bind_Ok_inv in H as (wt & Hwt & H).
    apply bind_Ok_inv in H as (i & Hi & H).
    apply bind_Ok_inv in H as (it & Hit & H).
    apply bind_Ok_inv in H as (M & HM & H).
    apply bind_Ok_inv in H as (N & HN & H).
    apply bind_Ok_inv in H as (o & Ho & H). injection H as <-.
    rewrite Hw. cbn.
    rewrite at_update_ne, Hwt by (by apply Hwn; apply at_Ok_inv). cbn.
    rewrite Hi. cbn.
    rewrite at_update_ne, Hit by (by apply Hin; apply at_Ok_inv). cbn.
    rewrite HM. cbn. rewrite HN. cbn. rewrite Ho. cbn.
    by rewrite update_update_idem.
  - unfold MatMulLast.deduce_output_shape in *.
    apply bind_Ok_inv in H as (w & Hw & H).
    apply bind_Ok_inv in H as (wt & Hwt & H).
    apply bind_Ok_inv in H as (i & Hi & H).
    apply bind_Ok_inv in H as (it & Hit & H).
    apply bind_Ok_inv in H as (K & HK & H).
    apply bind_Ok_inv in H as (N & HN & H).
    apply bind_Ok_inv in H as (o & Ho & H). injection H as <-.
    rewrite Hw. cbn.
    rewrite at_update_ne, Hwt by (by apply Hwn; apply at_Ok_inv). cbn.
    rewrite Hi. cbn.
    rewrite at_update_ne, Hit by (by apply Hin; apply at_Ok_inv). cbn.
    rewrite HK. cbn. rewrite HN. cbn. rewrite Ho. cbn.
    by rewrite update_update_idem.
  - unfold Reshape.deduce_output_shape in *.
    apply bind_Ok_inv in H as (i & Hi & H).
    apply bind_Ok_inv in H as (it & Hit & H).
    apply bind_Ok_inv in H as (shp & Hshp & H).
    apply bind_Ok_inv in H as (o & Ho & H). injection H as <-.
    rewrite Hi. cbn.
    rewrite at_update_ne, Hit by (by apply Hin; apply at_Ok_inv). cbn.
    rewrite Hshp. cbn. rewrite Ho. cbn.
    by rewrite update_update_idem.
  - unfold OpBase.deduce_output_shape in *.
    apply bind_Ok_inv in H as (o & Ho & H).
    apply bind_Ok_inv in H as (i & Hi & H).
    apply bind_Ok_inv in H as (x & Hx & H). injection H as <-.
    rewrite Ho, Hi. cbn.
    rewrite at_update_ne, Hx by (by apply Hin; apply at_Ok_inv). cbn.
    by rewrite update_update_idem.
  - unfold Embedding.deduce_output_shape in *.
    apply bind_Ok_inv in H as (i & Hi & H).
    apply bind_Ok_inv in H as (it & Hit & H).
    apply bind_Ok_inv in H as (len & Hlen & H).
    apply bind_Ok_inv in H as (o & Ho & H). injection H as <-.
    rewrite Hi. cbn.
    rewrite at_update_ne, Hit by (by apply Hin; apply at_Ok_inv). cbn.
    rewrite Hlen. cbn. rewrite Ho. cbn.
    by rewrite update_update_idem.
Qed.


(** X12. Shape inference can be repeated: for an operator whose output
    is not one of its inputs or weights, as the constructors make it, a
    second [deduce_output_shape] leaves the arena as the first left it.
    This holds of every class that defines the stage: the default of
    [OpBase] (which [LayerNorm], [SoftMax], [Elemwise], [DiagMask] and the
    attention classes inherit), [MatMul], [MatMulLast], [Reshape],
    [Embedding], and [SpliteHalfActiveMul]. *)
Theorem deduce_output_shape_idempotent :
  (∀ op st st',
     (∀ o, OpBase.outputs (Operator.base op) !! 0%nat = Some o →
           (o ∉ OpBase.inputs (Operator.base op)) ∧
           (o ∉ OpBase.weights (Operator.base op))) →
     Operator.deduce_output_shape op st = Ok st' →
     Operator.deduce_output_shape op st' = Ok st') ∧
  (∀ s st st',
     (∀ o, OpBase.outputs (SpliteHalfActiveMul.base s) !! 0%nat = Some o →
           o ∉ OpBase.inputs (SpliteHalfActiveMul.base s)) →
     SpliteHalfActiveMul.deduce_output_shape s st = Ok st' →
     SpliteHalfActiveMul.deduce_output_shape s st' = Ok st').
Proof.
  split; [exact Operator_deduce_output_shape_idem|].
  intros s st st' Hfresh H.
  unfold SpliteHalfActiveMul.deduce_output_shape in *.
  apply bind_Ok_inv in H as (i & Hi & H).
  apply bind_Ok_inv in H as (it & Hit & H).
  apply bind_Ok_inv in H as (d & Hd & H).
  apply bind_Ok_inv in H as (o & Ho & H). injection H as <-.
  assert (Hne : o ≠ i).
  { intros ->. apply (Hfresh i); [by apply at_Ok_inv|].
    by eapply at_elem_of. }
  rewrite Hi. cbn. rewrite at_update_ne, Hit by done. cbn.
  rewrite Hd. cbn. rewrite Ho. cbn.
  by rewrite update_update_idem.
Qed.

Lemma deduce_output_shape_idempotent_witness :
  (∃ m st st',
     MatMul.ctor cpu "proj" [0%nat] [32; 16] false [activation "x" [5; 16]] =
       Ok (m, st) ∧
     Operator.deduce_output_shape (MatMulOp m) st = Ok st' ∧
     Operator.deduce_output_shape (MatMulOp m) st' = Ok st') ∧
  (∃ st',
     SpliteHalfActiveMul.deduce_output_shape
       (SpliteHalfActiveMul.ctor cpu "gate" [0%nat] 2
          [activation "x" [3; 64]]).1
       (SpliteHalfActiveMul.ctor cpu "gate" [0%nat] 2
          [activation "x" [3; 64]]).2 = Ok st' ∧
     SpliteHalfActiveMul.deduce_output_shape
       (SpliteHalfActiveMul.ctor cpu "gate" [0%nat] 2
          [activation "x" [3; 64]]).1 st' = Ok st' ∧
     Tensor.shape <$> st' !! 1%nat = Some [3; 32]).
Proof.
  split.
  - eexists _, _, _. split; [vm_compute; reflexivity|].
    match goal with
    | |- Operator.deduce_output_shape ?op ?st = _ ∧ _ =>
        eassert (H1 : Operator.deduce_output_shape op st = Ok _)
          by (vm_compute; reflexivity);
        split; [exact H1|];
        apply (proj1 deduce_output_shape_idempotent op st); [|exact H1]
    end.
    intros o Ho. injection Ho as <-.
    split; intros Hin; apply list_elem_of_singleton in Hin; discriminate Hin.
  - eassert (H1 : SpliteHalfActiveMul.deduce_output_shape
                    (SpliteHalfActiveMul.ctor cpu "gate" [0%nat] 2
                       [activation "x" [3; 64]]).1
                    (SpliteHalfActiveMul.ctor cpu "gate" [0%nat] 2
                       [activation "x" [3; 64]]).2 = Ok _)
      by (vm_compute; reflexivity).
    eexists. split; [exact H1|]. split; [|reflexivity].
    apply (proj2 deduce_output_shape_idempotent _
             (SpliteHalfActiveMul.ctor cpu "gate" [0%nat] 2
                [activation "x" [3; 64]]).2); [|exact H1].
    intros o Ho. injection Ho as <-.
    intros Hin. apply list_elem_of_singleton in Hin. discriminate Hin.
Defined.

(** ** Preparing twice *)

Lemma two_stage_idem (f g : Tensor.t → Tensor.t) ws outs (st : Arena) :
  (∀ x, f (f x) = f x) → (∀ x, g (g x) = g x) →
  (∀ x, g (f (g (f x))) = g (f x)) →
  update_all g outs (update_all f ws
    (update_all g outs (update_all f ws st))) =
  update_all g outs (update_all f ws st).
Proof.
  intros Hf Hg Hfg. apply list_eq. intros h.
  repeat first [ rewrite (update_all_lookup_idem g) by done
               | rewrite (update_all_lookup_idem f) by done ].
  destruct (decide (h ∈ outs)), (decide (h ∈ ws)), (st !! h) as [x|];
    cbn; try done; f_equal; auto.
Qed.

Lemma Attention_pre_execute_output_idem x :
  AttentionBase.pre_execute_output (AttentionBase.pre_execute_output x) =
  AttentionBase.pre_execute_output x.
Proof.
  unfold AttentionBase.pre_execute_output.
  destruct x as [nm sh dt ow usr cur sha al da]; cbn.
  destruct (bool_decide (cur = 0)) eqn:E; cbn; rewrite ?E; [|done].
  by destruct (bool_decide (usr = 0)).
Qed.

Lemma OpBase_prepare_pre_output x :
  OpBase.pre_execute_output
    (Tensor.prepare_data (OpBase.pre_execute_output (Tensor.prepare_data x))) =
  OpBase.pre_execute_output (Tensor.prepare_data x).
Proof.
  unfold OpBase.pre_execute_output.
  destruct x as [nm sh dt ow usr cur [] al da]; cbn;
    destruct (bool_decide (cur = 0)) eqn:E; cbn; rewrite ?E; cbn; try done.
  by destruct (bool_decide (usr = 0)).
Qed.

Lemma Attention_prepare_pre_output x :
  AttentionBase.pre_execute_output
    (Tensor.prepare_data
       (AttentionBase.pre_execute_output (Tensor.prepare_data x))) =
  AttentionBase.pre_execute_output (Tensor.prepare_data x).
Proof.
  unfold AttentionBase.pre_execute_output.
  destruct x as [nm sh dt ow usr cur sha al da]; cbn.
  destruct (bool_decide (cur = 0)) eqn:E; cbn; rewrite ?E; cbn; [|done].
  by destruct (bool_decide (usr = 0)).
Qed.

Lemma OpBase_pre_execute_idem b st :
  OpBase.pre_execute b (OpBase.pre_execute b st) = OpBase.pre_execute b st.
Proof.
  unfold OpBase.pre_execute. apply two_stage_idem.
  - apply prepare_data_idem.
  - apply OpBase_pre_execute_output_idem.
  - apply OpBase_prepare_pre_output.
Qed.

(** X13. [pre_execute] can be repeated: a second call right after the
    first leaves every tensor, and the caches of an attention, as the
    first left them, whichever tensors the operator holds. *)
Theorem pre_execute_idempotent op st op' st' :
  Operator.pre_execute op st = Ok (op', st') →
  Operator.pre_execute op' st' = Ok (op', st').
Proof.
  intros H.
  destruct op as [b|m|m|r|a|e];
    try (cbn in H; injection H as <- <-; cbn;
         by rewrite OpBase_pre_execute_idem).
  cbn [Operator.pre_execute] in *.
  apply bind_Ok_inv in H as ([a1 st1] & H & E). injection E as <- <-.
  pose proof (Attention_pre_execute_inv _ _ _ _ H)
    as (len & k & v & Hlen & Hk & Hv & -> & Hsh).
  unfold AttentionBase.pre_execute in H. rewrite Hlen, Hk, Hv in H.
  cbn [mbind res_bind deref] in H.
  destruct (at_ (OpBase.outputs (AttentionBase.base a)) 0) as [o| |] eqn:Ho;
    [|done..].
  cbn [mbind res_bind] in H.
  destruct (at_ (update_all Tensor.prepare_data
                   (OpBase.weights (AttentionBase.base a)) st) o)
    as [x| |] eqn:Hx; [|done..].
  cbn [mbind res_bind] in H.
  unfold KvStorage.prepare_data_with_length, INFER_ASSERT in H.
  destruct (bool_decide (KvStorage.curr_id k + len ≤ KvStorage.total_id k))
    eqn:Ek; [|done].
  cbn [mbind res_bind] in H.
  destruct (bool_decide (KvStorage.curr_id v + len ≤ KvStorage.total_id v))
    eqn:Ev; [|done].
  cbn [mbind res_bind] in H. injection H as <-.
  cbn [Operator.pre_execute]. unfold AttentionBase.pre_execute.
  rewrite (token_len_same_shapes _ _ _ Hsh : AttentionBase.token_len
             (AttentionBase.set_storage _ _ a) _ =
             AttentionBase.token_len a st), Hlen.
  cbn [mbind res_bind AttentionBase.set_storage AttentionBase.base
       AttentionBase.m_kstorage AttentionBase.m_vstorage deref].
  rewrite Ho. cbn [mbind res_bind].
  assert (Hidem :
    update AttentionBase.pre_execute_output o
      (update_all Tensor.prepare_data (OpBase.weights (AttentionBase.base a))
         (update AttentionBase.pre_execute_output o
            (update_all Tensor.prepare_data
               (OpBase.weights (AttentionBase.base a)) st))) =
    update AttentionBase.pre_execute_output o
      (update_all Tensor.prepare_data (OpBase.weights (AttentionBase.base a))
         st)).
  { apply (two_stage_idem Tensor.prepare_data
             AttentionBase.pre_execute_output _ [o]).
    - apply prepare_data_idem.
    - apply Attention_pre_execute_output_idem.
    - apply Attention_prepare_pre_output. }
  assert (Hx' : is_ok (at_ (update_all Tensor.prepare_data
                  (OpBase.weights (AttentionBase.base a))
                  (update AttentionBase.pre_execute_output o
                     (update_all Tensor.prepare_data
                        (OpBase.weights (AttentionBase.base a)) st))) o)
                = true).
  { unfold at_ in *.
    destruct (lookup_lt_is_Some_2
                (update_all Tensor.prepare_data
                   (OpBase.weights (AttentionBase.base a))
                   (update AttentionBase.pre_execute_output o
                      (update_all Tensor.prepare_data
                         (OpBase.weights (AttentionBase.base a)) st))) o)
      as [y ->]; [|done].
    rewrite update_all_length, update_length.
    apply lookup_lt_is_Some. by destruct (_ !! o). }
  match type of Hx' with
  | is_ok ?e = true => destruct e as [y| |]; [|done..]
  end.
  cbn [mbind res_bind]. rewrite Hidem.
  unfold KvStorage.prepare_data_with_length, INFER_ASSERT.
  cbn [KvStorage.curr_id KvStorage.total_id KvStorage.set_prepared].
  rewrite Ek, Ev. reflexivity.
Qed.

Lemma pre_execute_idempotent_witness :
  ∃ a st op' st',
    fresh_attention = Ok (a, st) ∧
    Operator.pre_execute (AttentionOp a) st = Ok (op', st') ∧
    Operator.pre_execute op' st' = Ok (op', st').
Proof.
  eexists _, _, _, _. split; [vm_compute; reflexivity|].
  match goal with
  | |- Operator.pre_execute ?op ?st = _ ∧ _ =>
      eassert (H1 : Operator.pre_execute op st = Ok (_, _))
        by (vm_compute; reflexivity);
      split; [exact H1|];
      exact (pre_execute_idempotent op st _ _ H1)
  end.
Defined.

(** ** As many groups as heads *)



(** ** The weights over a run *)

Lemma update_all_lookup_notin f hs (st : Arena) h :
  h ∉ hs → update_all f hs st !! h = st !! h.
Proof.
  intros Hn. rewrite update_all_lookup, (count_occ_elem _ _ Hn).
  by destruct (st !! h).
Qed.

(** X15. Over the three stages of a run, a weight that is neither an
    input nor an output of the operator is materialized by [pre_execute];
    an operator without a cache leaves it materialized, while an attention
    releases it in [end_execute] unless the tensor is shared. *)
Theorem weights_over_run kern nr_past op st op' st' w x :
  Operator.run kern nr_past op st = Ok (op', st') →
  w ∈ OpBase.weights (Operator.base op) →
  w ∉ OpBase.inputs (Operator.base op) →
  w ∉ OpBase.outputs (Operator.base op) →
  st !! w = Some x →
  st' !! w =
    Some match op with
         | AttentionOp _ => Tensor.recall_data (Tensor.prepare_data x)
         | _ => Tensor.prepare_data x
         end ∧
  ∀ y, st' !! w = Some y →
    Tensor.allocated y =
      match op with AttentionOp _ => Tensor.shared x | _ => true end.
Proof.
  intros H Hw Hi Ho Hx.
  assert (Hmain : st' !! w =
            Some match op with
                 | AttentionOp _ => Tensor.recall_data (Tensor.prepare_data x)
                 | _ => Tensor.prepare_data x
                 end).
  { unfold Operator.run in H.
    apply bind_Ok_inv in H as ([op1 st1] & H1 & H).
    apply bind_Ok_inv in H as ([op2 st2] & H2 & H).
    destruct op as [b|m|m|r|a|e];
      try (cbn [Operator.pre_execute Operator.base] in *;
           injection H1 as <- <-;
           cbn [Operator.execute Operator.base] in H2;
           apply bind_Ok_inv in H2 as (st2' & H2 & E);
           injection E as <- <-;
           cbn [Operator.end_execute Operator.base] in H;
           injection H as <- <-;
           unfold Execute.plain in H2;
           apply bind_Ok_inv in H2 as (ins & _ & H2);
           apply bind_Ok_inv in H2 as (ws & _ & H2);
           apply bind_Ok_inv in H2 as (o & Hout & H2);
           injection H2 as <-;
           apply at_elem_of in Hout;
           unfold OpBase.end_execute, OpBase.pre_execute;
           rewrite update_all_lookup_notin by done;
           rewrite update_lookup_ne by (by intros ->);
           rewrite update_all_lookup_notin by done;
           rewrite (update_all_lookup_idem _ _ _ _ prepare_data_idem);
           rewrite decide_True by done;
           by rewrite Hx).
    cbn [Operator.pre_execute Operator.execute Operator.end_execute
         Operator.base] in *.
    apply bind_Ok_inv in H1 as ([a1 s1] & H1 & E). injection E as <- <-.
    apply bind_Ok_inv in H2 as ([a2 s2] & H2 & E). injection E as <- <-.
    apply bind_Ok_inv in H as ([a3 s3] & H & E). injection E as <- <-.
    pose proof (Attention_pre_execute_inv _ _ _ _ H1)
      as (len & k & v & _ & _ & _ & Ea1 & _).
    pose proof (Attention_execute_inv _ _ _ _ _ _ H2)
      as (k2 & v2 & rk & rv & _ & _ & Ea2 & _).
    assert (Hb : AttentionBase.base a2 = AttentionBase.base a)
      by (by rewrite Ea2, Ea1).
    assert (Hb1 : AttentionBase.base a1 = AttentionBase.base a)
      by (by rewrite Ea1).
    rewrite Attention_end_execute_spec in H.
    apply bind_Ok_inv in H as (len3 & _ & H).
    apply bind_Ok_inv in H as (k3 & _ & H).
    apply bind_Ok_inv in H as (v3 & _ & H). injection H as _ <-.
    rewrite Hb.
    rewrite update_all_lookup_notin by done.
    rewrite (update_all_lookup_idem _ _ _ _ recall_data_idem).
    rewrite decide_True by done.
    unfold Execute.attention in H2.
    apply bind_Ok_inv in H2 as (len2 & _ & H2).
    apply bind_Ok_inv in H2 as (i2 & _ & H2).
    apply bind_Ok_inv in H2 as (x2 & _ & H2).
    apply bind_Ok_inv in H2 as (ws2 & _ & H2).
    apply bind_Ok_inv in H2 as (k2' & _ & H2).
    apply bind_Ok_inv in H2 as (v2' & _ & H2).
    apply bind_Ok_inv in H2 as (o2 & Hout2 & H2).
    injection H2 as _ <-. rewrite Hb1 in Hout2. apply at_elem_of in Hout2.
    rewrite update_lookup_ne by (by intros ->).
    unfold AttentionBase.pre_execute in H1.
    apply bind_Ok_inv in H1 as (len1 & _ & H1).
    apply bind_Ok_inv in H1 as (o1 & Hout1 & H1).
    apply bind_Ok_inv in H1 as (x1 & _ & H1).
    apply bind_Ok_inv in H1 as (k1 & _ & H1).
    apply bind_Ok_inv in H1 as (k1' & _ & H1).
    apply bind_Ok_inv in H1 as (v1 & _ & H1).
    apply bind_Ok_inv in H1 as (v1' & _ & H1).
    injection H1 as _ <-. apply at_elem_of in Hout1.
    rewrite update_lookup_ne by (by intros ->).
    rewrite (update_all_lookup_idem _ _ _ _ prepare_data_idem).
    rewrite decide_True by done. by rewrite Hx. }
  split; [exact Hmain|].
  intros y Hy. rewrite Hmain in Hy. injection Hy as <-.
  destruct op as [b|m|m|r|a|e]; try reflexivity.
  unfold Tensor.recall_data, Tensor.prepare_data. cbn.
  by destruct (Tensor.shared x).
Qed.

Lemma weights_over_run_witness :
  ∃ a st op' st' y,
    fresh_attention = Ok (a, st) ∧
    Operator.run probe_kernel 0 (AttentionOp a) st = Ok (op', st') ∧
    st' !! 2%nat = Some y ∧ Tensor.allocated y = false.
Proof.
  eexists _, _, _, _, _. split; [vm_compute; reflexivity|].
  match goal with
  | |- Operator.run ?k ?n ?op ?st = _ ∧ _ =>
      eassert (H1 : Operator.run k n op st = Ok (_, _))
        by (vm_compute; reflexivity);
      eassert (Hx : st !! 2%nat = Some _) by reflexivity;
      assert (Hw : 2%nat ∈ OpBase.weights (Operator.base op))
        by apply list_elem_of_here;
      assert (Hi : 2%nat ∉ OpBase.inputs (Operator.base op))
        by (intros H; apply list_elem_of_singleton in H; discriminate H);
      assert (Ho : 2%nat ∉ OpBase.outputs (Operator.base op))
        by (intros H; apply list_elem_of_singleton in H; discriminate H);
      split; [exact H1|];
      destruct (weights_over_run k n op st _ _ 2%nat _ H1 Hw Hi Ho Hx)
        as [Hm Ha]
  end.
  split; [exact Hm|]. by rewrite (Ha _ Hm).
Defined.

(** ** Shape inference through an attention module *)

Lemma MatMul_make_op_weight shp bias device nm inputs st m st' :
  make_op (MatMulC shp bias) device nm inputs st = Ok (MatMulOp m, st') →
  MatMul.m_weight_packed m = false ∧
  OpBase.weights (MatMul.base m) !! 0%nat = Some (S (length st)) ∧
  ∃ wt, st' !! S (length st) = Some wt ∧ Tensor.shape wt = shp.
Proof.
  intros H.
  pose proof (update_all_length Tensor.add_user inputs st) as Hl.
  remember (update_all Tensor.add_user inputs st) as st0 eqn:E.
  cbn [make_op] in H; ctor_unfold; rewrite <- E in H.
  destruct bias, shp as [|d0 shp];
    do 3 (ctor_simpl; arena_norm_in H); try discriminate H;
    injection H as <- <-; cbn; rewrite <- Hl, <- (Nat.add_1_r (length st0));
    (split_and!; [done|done|]); rewrite lookup_app_new; by eexists.
Qed.

(** X16. Shape inference through an attention module whose input has
    shape [[L; E]]: the attention keeps the shape of the input, and the
    output of the module, which is the output of the projection, gets [L]
    rows of [embd] elements of the input's element type, whatever the
    width [E] of the input. *)
Theorem AttentionModule_deduce_output_shape k x embd head n_rot n_ctx
    compt_type device nm layer_id fused bias mode same_bias st m st1 xt L E :
  AttentionModule.ctor (attention_ctor k) x embd head n_rot n_ctx compt_type
    device nm layer_id fused bias mode same_bias st = Ok (m, st1) →
  (x < length st)%nat →
  st1 !! x = Some xt → Tensor.shape xt = [L; E] →
  ∃ st2 proj_out pt,
    OprModuleBase.deduce_output_shape m st1 = Ok st2 ∧
    OprModuleBase.m_output m = Some proj_out ∧
    st2 !! proj_out = Some pt ∧
    Tensor.shape pt = [L; embd] ∧ Tensor.dtype pt = Tensor.dtype xt ∧
    Tensor.shape <$> st2 !! length st = Some [L; E].
Proof.
  intros H Hx Hxt Hshape.
  apply AttentionModule_ctor_inv in H
    as (a & sa & mm & Hc & Hmm & -> & _ & _).
  pose proof (built_make_op _ _ _ _ _ _ _ Hc) as Hb1.
  pose proof (built_make_op _ _ _ _ _ _ _ Hmm) as Hb2.
  pose proof (built_length _ _ _ _ _ Hb1) as Hl1.
  pose proof (built_length _ _ _ _ _ Hb2) as Hl2.
  pose proof Hb1 as (_ & Hi1 & Ho1 & _). pose proof Hb2 as (_ & Hi2 & Ho2 & _).
  destruct (MatMul_make_op_weight _ _ _ _ _ _ _ _ Hmm)
    as (Hpk & Hw & wt & Hwt & Hws).
  cbn [Operator.base] in *.
  destruct (lookup_lt_is_Some_2 st1 (length st) ltac:(lia)) as [vt Hvt].
  destruct (lookup_lt_is_Some_2 st1 (length sa) ltac:(lia)) as [pt Hpt].
  set (st1a := update (Tensor.set_shape [L; E] (Some (Tensor.dtype xt)))
                 (length st) st1).
  assert (Hd1 : OpBase.deduce_output_shape (AttentionBase.base a) st1 =
                Ok st1a).
  { unfold OpBase.deduce_output_shape, OpBase.inputs, OpBase.outputs in *.
    rewrite Ho1, Hi1. cbn. rewrite (at_Ok _ _ _ Hxt). cbn.
    by rewrite Hshape. }
  assert (Hd2 : MatMul.deduce_output_shape mm st1a =
                Ok (update (Tensor.set_shape [L; embd]
                              (Some (Tensor.dtype xt))) (length sa) st1a)).
  { rewrite (MatMul_deduce_output_shape_eq mm st1a (length st)
               (Tensor.set_shape [L; E] (Some (Tensor.dtype xt)) vt)
               (S (length sa)) wt (length sa) embd [embd] L).
    - by rewrite Hpk.
    - by rewrite Hi2.
    - unfold st1a. by rewrite update_lookup, Hvt.
    - done.
    - unfold st1a. rewrite update_lookup_ne by lia. done.
    - by rewrite Ho2.
    - done.
    - done. }
  eexists _, (length sa), _. split_and!.
  - unfold OprModuleBase.deduce_output_shape.
    cbn [OprModuleBase.m_oprs OprModuleBase.deduce_ops
         Operator.deduce_output_shape].
    rewrite Hd1. cbn [mbind res_bind]. rewrite Hd2. reflexivity.
  - reflexivity.
  - rewrite update_lookup. unfold st1a.
    rewrite update_lookup_ne by lia. by rewrite Hpt.
  - reflexivity.
  - reflexivity.
  - rewrite update_lookup_ne by lia. unfold st1a.
    by rewrite update_lookup, Hvt.
Qed.

Lemma AttentionModule_deduce_output_shape_witness :
  ∃ m st1 st2 pt,
    llama_block = Ok (m, st1) ∧
    OprModuleBase.deduce_output_shape m st1 = Ok st2 ∧
    st2 !! 5%nat = Some pt ∧ Tensor.shape pt = [3; 16].
Proof.
  edestruct (AttentionModule_deduce_output_shape LlamaAttentionT 0%nat 16 4
               4 8 Float32 cpu "l0" 0 false false Mode0 true
               [activation "x" [3; 16]])
    as (st2 & proj_out & pt & Hd & Ho & Hpt & Hs & _);
    [vm_compute; reflexivity | cbn; lia | reflexivity | reflexivity |].
  injection Ho as <-.
  eexists _, _, st2, pt. split; [vm_compute; reflexivity|].
  split; [exact Hd|]. split; [exact Hpt|exact Hs].
Defined.

(** ** Weights are not activations *)

Lemma uses_pos_elem ops h :
  Wiring.uses ops h ≠ 0 →
  ∃ op, op ∈ ops ∧ h ∈ OpBase.inputs (Operator.base op).
Proof.
  induction ops as [|op ops IH]; cbn; [done|]. intros Hu.
  destruct (decide (h ∈ OpBase.inputs (Operator.base op))) as [Hin|Hin].
  - exists op. split; [apply list_elem_of_here|done].
  - rewrite (count_occ_elem _ _ Hin) in Hu. cbn in Hu.
    destruct (IH Hu) as (op' & Hop' & Hh).
    exists op'. split; [by apply list_elem_of_further|done].
Qed.

Lemma produced_mono input ops op h :
  h ∈ Wiring.produced input ops → h ∈ Wiring.produced input (ops ++ [op]).
Proof. intros H. apply produced_snoc. by left. Qed.

Lemma assembled_reads_produced input ops st :
  Assembly.assembled input ops st →
  (∀ op h, op ∈ ops → h ∈ OpBase.inputs (Operator.base op) →
     h ∈ Wiring.produced input ops) ∧
  (∀ op w, op ∈ ops → w ∈ OpBase.weights (Operator.base op) →
     (w < length st)%nat ∧ w ∉ Wiring.produced input ops).
Proof.
  induction 1 as [st Hi Hz|ops st c device nm inputs op st' Ha IH Hin Hmk].
  - split; intros op h Hop; by apply elem_of_nil in Hop.
  - destruct IH as [IH1 IH2].
    destruct (assembled_inv _ _ _ Ha) as (I1 & _).
    pose proof (built_make_op _ _ _ _ _ _ _ Hmk) as Hb.
    pose proof (built_length _ _ _ _ _ Hb) as Hlen.
    destruct Hb as (_ & Hins & Houts & Hws & _).
    split.
    + intros op0 h [Hop0|Hop0]%elem_of_app Hh.
      * apply produced_mono. by eapply IH1.
      * apply list_elem_of_singleton in Hop0 as ->.
        apply produced_mono, Hin. by rewrite <- Hins.
    + intros op0 w [Hop0|Hop0]%elem_of_app Hw.
      * destruct (IH2 _ _ Hop0 Hw) as [Hlt Hnp]. split; [lia|].
        intros [Hp|Hp]%produced_snoc; [done|].
        rewrite Houts in Hp. apply list_elem_of_singleton in Hp. lia.
      * apply list_elem_of_singleton in Hop0 as ->.
        rewrite Hws in Hw. apply elem_of_seq in Hw. split; [lia|].
        intros [Hp|Hp]%produced_snoc.
        -- apply I1 in Hp. lia.
        -- rewrite Houts in Hp. apply list_elem_of_singleton in Hp. lia.
Qed.

(** X17. In a graph assembled by the constructors a weight is never an
    activation: it is neither the graph input nor the output of an
    operator, no operator holds it in an input slot, and its declared
    consumer count is zero. *)
Theorem assembled_weights_apart input ops st op w :
  Assembly.assembled input ops st →
  op ∈ ops → w ∈ OpBase.weights (Operator.base op) →
  (w ∉ Wiring.produced input ops) ∧
  (∀ op', op' ∈ ops → w ∉ OpBase.inputs (Operator.base op')) ∧
  ∃ x, st !! w = Some x ∧ Tensor.usr_count x = 0.
Proof.
  intros Ha Hop Hw.
  destruct (assembled_reads_produced _ _ _ Ha) as [R1 R2].
  destruct (assembled_inv _ _ _ Ha) as (_ & I2 & _).
  destruct (R2 _ _ Hop Hw) as [Hlt Hnp].
  assert (Hno : ∀ op', op' ∈ ops → w ∉ OpBase.inputs (Operator.base op')).
  { intros op' Hop' Hin. apply Hnp. by eapply R1. }
  split_and!; [done|done|].
  destruct (lookup_lt_is_Some_2 st w Hlt) as [x Hx].
  exists x. split; [done|].
  destruct (I2 _ _ Hx) as [-> _].
  destruct (decide (Wiring.uses ops w = 0)) as [|Hu]; [done|].
  destruct (uses_pos_elem _ _ Hu) as (op' & Hop' & Hin).
  by destruct (Hno _ Hop').
Qed.

Lemma assembled_weights_apart_witness :
  ∃ g st x, tiny_graph = Ok (g, st) ∧
    st !! 8%nat = Some x ∧ Tensor.usr_count x = 0.
Proof.
  eassert (E : tiny_graph = Ok (_, _)) by (vm_compute; reflexivity).
  match type of E with
  | _ = Ok (?g, ?st) =>
      assert (Ha : Assembly.assembled (Graph.m_input g) (Graph.oprs g) st)
        by tiny_graph_assembled;
      eassert (Hop : _ ∈ Graph.oprs g)
        by (do 2 apply list_elem_of_further; apply list_elem_of_here);
      destruct (assembled_weights_apart _ _ _ _ 8%nat Ha Hop)
        as (_ & _ & x & Hx & Hu); [apply list_elem_of_here|];
      exists g, st, x
  end.
  split; [exact E|]. split; [exact Hx|exact Hu].
Defined.

Lemma need_preprocess_weight_complete_witness :
  ∃ m st wt,
    int4_matmul cpu [32; 16] = Ok (m, st) ∧ st !! 2%nat = Some wt ∧
    Operator.need_preprocess_weight (MatMulOp m) st wt = Ok true.
Proof.
  eexists _, _, _. split; [vm_compute; reflexivity|].
  split; [reflexivity|].
  apply need_preprocess_weight_complete.
  - exact I.
  - eexists. split; [reflexivity|]. by eexists.
  - eexists 2%nat, _.
    split_and!; [apply list_elem_of_here|reflexivity|reflexivity].
  - reflexivity.
  - eexists _, _. split; reflexivity.
  - reflexivity.
Defined.

(** X18. The weights of an operator are named after it: the name of each
    is the operator's name followed by the ending its class gives to its
    position, and the endings of one class are pairwise distinct, so that
    a name identifies one weight of the operator. *)
Theorem make_op_weights_named c device nm inputs st op st' :
  make_op c device nm inputs st = Ok (op, st') →
  (fun w => Tensor.name <$> st' !! w) <$> OpBase.weights (Operator.base op) =
    (fun s => Some (nm +:+ s)) <$> weight_suffixes c ∧
  NoDup ((fun w => Tensor.name <$> st' !! w) <$>
         OpBase.weights (Operator.base op)).
Proof.
  intros H. pose proof (make_op_weight_names _ _ _ _ _ _ _ H) as Hn.
  split; [exact Hn|]. rewrite Hn.
  rewrite (list_fmap_compose (String.append nm) Some).
  apply (NoDup_fmap_2 _), (NoDup_fmap_2 _), weight_suffixes_NoDup.
Qed.

Lemma make_op_weights_named_witness :
  ∃ op st',
    make_op (LayerNormC 16 true true true 0) cpu "norm" [0%nat]
      [activation "x" [3; 16]] = Ok (op, st') ∧
    (fun w => Tensor.name <$> st' !! w) <$> OpBase.weights (Operator.base op)
      = [Some "norm.weight"; Some "norm.bias"].
Proof.
  eexists _, _. split; [vm_compute; reflexivity|].
  refine (proj1 (make_op_weights_named (LayerNormC 16 true true true 0) cpu
                   "norm" [0%nat] [activation "x" [3; 16]] _ _ _)).
  vm_compute. reflexivity.
Defined.

(** ** Adding an attention module to the graph *)

(** X20. [add_module] with an attention module, on a tensor the graph
    already produces, keeps a graph assembled by the constructors
    assembled, hence well formed and wired; the tensor it returns is the
    output of the new module, one the extended graph produces and the
    graph before did not, so that the next module can read it. *)
Theorem Graph_add_module_attention k x embd head n_rot n_ctx compt_type device
    nm layer_id fused bias mode same_bias g st out g' st' :
  Assembly.assembled (Graph.m_input g) (Graph.oprs g) st →
  x ∈ Wiring.produced (Graph.m_input g) (Graph.oprs g) →
  Graph.add_module
    (AttentionModule.ctor (attention_ctor k) x embd head n_rot n_ctx
       compt_type device nm layer_id fused bias mode same_bias) g st =
    Ok (out, g', st') →
  Assembly.assembled (Graph.m_input g') (Graph.oprs g') st' ∧
  Wiring.well_formed g' st' ∧ Wiring.wired g' st' ∧ Wiring.idle st' ∧
  ∃ o, out = Some o ∧
       o ∈ Wiring.produced (Graph.m_input g') (Graph.oprs g') ∧
       (o ∉ Wiring.produced (Graph.m_input g) (Graph.oprs g)).
Proof.
  intros Ha Hx H. unfold Graph.add_module in H.
  apply bind_Ok_inv in H as ([m s1] & H & E). injection E as <- <- <-.
  apply AttentionModule_ctor_inv in H
    as (a & sa & mm & Hc & Hmm & -> & _ & _).
  pose proof (built_make_op _ _ _ _ _ _ _ Hc) as (_ & _ & Ho1 & _).
  pose proof (built_make_op _ _ _ _ _ _ _ Hmm) as (_ & _ & Ho2 & _).
  pose proof (built_length _ _ _ _ _ (built_make_op _ _ _ _ _ _ _ Hc)) as Hl1.
  cbn [Operator.base] in Ho1, Ho2.
  assert (Hoprs : Graph.oprs
            (Graph.set_modules
               (Graph.m_modules g ++
                [OprModuleBase.mk nm [x] (Some (length sa))
                   [AttentionOp a; MatMulOp mm]
                   OprModuleBase.AttentionModule]) g) =
          (Graph.oprs g ++ [AttentionOp a]) ++ [MatMulOp mm]).
  { unfold Graph.oprs. cbn [Graph.set_modules Graph.m_modules].
    rewrite map_app, concat_app. cbn. by rewrite <- app_assoc. }
  assert (Ha2 : Assembly.assembled (Graph.m_input g)
                  ((Graph.oprs g ++ [AttentionOp a]) ++ [MatMulOp mm]) s1).
  { eapply Assembly.assembled_snoc; [|  |exact Hmm].
    - eapply Assembly.assembled_snoc; [exact Ha| |exact Hc].
      by intros h ->%list_elem_of_singleton.
    - intros h ->%list_elem_of_singleton. apply produced_snoc. right.
      cbn. rewrite Ho1. apply list_elem_of_here. }
  cbn [Graph.m_input Graph.set_modules]. rewrite Hoprs.
  destruct (assembled_inv _ _ _ Ha) as (I1 & _).
  destruct (assembled_inv _ _ _ Ha2) as (_ & J2 & _ & _ & J5).
  split_and!.
  - exact Ha2.
  - unfold Wiring.well_formed. cbn [Graph.m_input Graph.set_modules].
    by rewrite Hoprs.
  - intros h t Ht. rewrite Hoprs. by destruct (J2 h t Ht).
  - intros h t Ht. by destruct (J2 h t Ht).
  - exists (length sa). split_and!; [done| |].
    + apply produced_snoc. right. cbn. rewrite Ho2. apply list_elem_of_here.
    + intros Hp. apply I1 in Hp. lia.
Qed.

Lemma Graph_add_module_attention_witness :
  ∃ out g' st',
    Graph.add_module
      (AttentionModule.ctor LlamaAttention.ctor 0%nat 16 4 4 8 Float32 cpu
         "l0" 0 false false Mode0 true)
      (Graph.mk 0%nat [] (mkLlmParams false 1 100 16 0 4 1 4 0 8))
      [activation "x" [3; 16]] = Ok (out, g', st') ∧
    out = Some 5%nat ∧ Wiring.well_formed g' st' ∧ Wiring.wired g' st'.
Proof.
  edestruct (Graph_add_module_attention LlamaAttentionT 0%nat 16 4 4 8
               Float32 cpu "l0" 0 false false Mode0 true
               (Graph.mk 0%nat [] (mkLlmParams false 1 100 16 0 4 1 4 0 8))
               [activation "x" [3; 16]])
    as (_ & Hwf & Hw & _ & o & Ho & _).
  - apply Assembly.assembled_nil; [cbn; lia|].
    apply List.Forall_cons; [|apply List.Forall_nil]. by split.
  - apply list_elem_of_here.
  - vm_compute. reflexivity.
  - eexists _, _, _. split; [vm_compute; reflexivity|].
    split; [reflexivity|]. split; [exact Hwf|exact Hw].
Defined.
